(** * The TeX-like box model of gonum/plot (internal/latex/tex/tex.go)

    A shallow embedding of the box model: the node kinds, the size-level
    scaling ([Shrink], [Grow]), kern insertion and the packing routines
    ([hpack], [vpack]), followed by the properties of the packing core.
    The rendering methods, the rule constructors and [unicodeIndex] with
    its table of TeX symbols (the same package) are embedded as well.

    Conventions of the embedding.
    - A Go [float64] is a primitive binary64 [float]; every arithmetic
      operation below is the IEEE-754 operation the Go code performs.
    - A Go [int] is a [Z] that is wrapped to 64 bits wherever the code
      increments or decrements it.
    - A method with a pointer receiver that mutates it becomes a function
      from the receiver to its new value; a method that may panic also
      returns a [result].  A panic leaves the mutations made before it in
      place, as in Go, so such a function returns the receiver together
      with [Panic msg].
    - A node is owned by exactly one parent, so a children slice is a
      [list Node] of values. *)

From Stdlib Require Import ZArith NArith List String Ascii Bool Lia Floats.
Import ListNotations.

Local Open Scope string_scope.
Local Open Scope Z_scope.

(** ** Results and panics *)

Inductive result (A : Type) : Type :=
| Ok (a : A)
| Panic (msg : string).

Arguments Ok {A} a.
Arguments Panic {A} msg.

Definition bind {A B : Type} (r : result A) (k : A -> result B) : result B :=
  match r with
  | Ok a => k a
  | Panic msg => Panic msg
  end.

Notation "x <- r ;; k" := (bind r (fun x => k))
  (at level 61, r at next level, right associativity).

Definition isOk {A : Type} (r : result A) : bool :=
  match r with Ok _ => true | Panic _ => false end.

(** ** Go's [int] and [math] *)

(** Two's-complement wrap-around of a 64-bit [int]. *)
Definition wrapInt (z : Z) : Z := (z + 2 ^ 63) mod 2 ^ 64 - 2 ^ 63.

Definition isInt (z : Z) : Prop := - 2 ^ 63 <= z < 2 ^ 63.

(** [n--] and [n++]. *)
Definition decr (n : Z) : Z := wrapInt (n - 1).
Definition incr (n : Z) : Z := wrapInt (n + 1).

(** [math.IsInf(f, sign)]. *)
Definition IsInf (f : float) (sign : Z) : bool :=
  ((0 <=? sign) && (f =? infinity)%float)
  || ((sign <=? 0) && (f =? neg_infinity)%float).

(** [math.IsNaN]. *)
Definition IsNaN (f : float) : bool := negb (f =? f)%float.

(** [math.Signbit]. *)
Definition Signbit (f : float) : bool := get_sign f.

(** [math.Max], with the special cases of Go's math package:
    an operand [+Inf] gives [+Inf], otherwise an operand NaN gives NaN,
    and [Max(+0, -0) = Max(-0, +0) = +0]. *)
Definition Max (x y : float) : float :=
  if IsInf x 1 || IsInf y 1 then infinity
  else if IsNaN x || IsNaN y then nan
  else if (x =? 0)%float && (x =? y)%float then
         (if Signbit x then y else x)
  else if (y <? x)%float then x else y.

(** ** Constants *)

(** [SHRINK_FACTOR = 0.7], as the [float64] the constant converts to. *)
Definition SHRINK_FACTOR : float := 0x1.6666666666666p-1%float.

(** [GROW_FACTOR = 1.0 / SHRINK_FACTOR]: the exact constant 10/7, as the
    [float64] it converts to. *)
Definition GROW_FACTOR : float := 0x1.6db6db6db6db7p+0%float.

Definition NUM_SIZE_LEVELS : Z := 6.

(** ** Accumulators of the packing loops

    [hpackDims] and [vpackDims] receive pointers to three running
    dimensions of the caller and the two slices of glue totals. *)

Record dims : Type := mkDims {
  dwidth : float;
  dheight : float;
  ddepth : float;
  dstretch : list float;
  dshrink : list float
}.

(** [s[i] += v] on a slice: a run-time panic when [i] is out of range. *)
Fixpoint addAtNat (s : list float) (i : nat) (v : float) : option (list float) :=
  match s, i with
  | [], _ => None
  | a :: s', O => Some ((a + v)%float :: s')
  | a :: s', S i' =>
      match addAtNat s' i' v with
      | Some r => Some (a :: r)
      | None => None
      end
  end.

Definition addAt (s : list float) (i : Z) (v : float) : result (list float) :=
  if i <? 0 then Panic "index out of range"
  else match addAtNat s (Z.to_nat i) v with
       | Some r => Ok r
       | None => Panic "index out of range"
       end.

(** ** Leaf nodes *)

(** Box is a node with a physical location. *)
Module Box.
Record t : Type := mk {
  size : Z;
  width : float;
  height : float;
  depth : float
}.

Definition Shrink (box : t) : t :=
  let size' := decr (size box) in
  if size' >=? NUM_SIZE_LEVELS then
    mk size' (width box) (height box) (depth box)
  else
    mk size' (width box * SHRINK_FACTOR)%float
             (height box * SHRINK_FACTOR)%float
             (depth box * SHRINK_FACTOR)%float.

Definition Grow (box : t) : t :=
  mk (incr (size box))
     (width box * GROW_FACTOR)%float
     (height box * GROW_FACTOR)%float
     (depth box * GROW_FACTOR)%float.

Definition hpackDims (box : t) (a : dims) : dims :=
  let w := (dwidth a + width box)%float in
  if IsInf (height box) 0 || IsInf (depth box) 0 then
    mkDims w (dheight a) (ddepth a) (dstretch a) (dshrink a)
  else
    mkDims w (Max (dheight a) (height box)) (Max (ddepth a) (depth box))
           (dstretch a) (dshrink a).

Definition vpackDims (box : t) (a : dims) : dims :=
  let h := (dheight a + (ddepth a + height box))%float in
  let d := depth box in
  if IsInf (width box) 0 then
    mkDims (dwidth a) h d (dstretch a) (dshrink a)
  else
    mkDims (Max (dwidth a) (width box)) h d (dstretch a) (dshrink a).
End Box.

(** VBox is a box with a height but no width. *)
Module VBox.
Record t : Type := mk {
  size : Z;
  height : float;
  depth : float
}.

Definition Shrink (box : t) : t :=
  let size' := decr (size box) in
  if size' >=? NUM_SIZE_LEVELS then mk size' (height box) (depth box)
  else mk size' (height box * SHRINK_FACTOR)%float
                (depth box * SHRINK_FACTOR)%float.

Definition Grow (box : t) : t :=
  mk (incr (size box))
     (height box * GROW_FACTOR)%float
     (depth box * GROW_FACTOR)%float.

Definition hpackDims (box : t) (a : dims) : dims :=
  if IsInf (height box) 0 || IsInf (depth box) 0 then a
  else
    mkDims (dwidth a) (Max (dheight a) (height box))
           (Max (ddepth a) (depth box)) (dstretch a) (dshrink a).

Definition vpackDims (box : t) (a : dims) : dims :=
  mkDims (Max (dwidth a) 0) (dheight a + (ddepth a + height box))%float
         (depth box) (dstretch a) (dshrink a).
End VBox.

(** HBox is a box with a width but no height nor depth. *)
Module HBox.
Record t : Type := mk {
  size : Z;
  width : float
}.

Definition Shrink (box : t) : t :=
  let size' := decr (size box) in
  if size' >=? NUM_SIZE_LEVELS then mk size' (width box)
  else mk size' (width box * SHRINK_FACTOR)%float.

Definition Grow (box : t) : t :=
  mk (incr (size box)) (width box * GROW_FACTOR)%float.

Definition hpackDims (box : t) (a : dims) : dims :=
  mkDims (dwidth a + width box)%float (dheight a) (ddepth a)
         (dstretch a) (dshrink a).

Definition vpackDims (box : t) (a : dims) : dims :=
  let h := (dheight a + ddepth a)%float in
  if IsInf (width box) 0 then
    mkDims (dwidth a) h 0%float (dstretch a) (dshrink a)
  else
    mkDims (Max (dwidth a) (width box)) h 0%float (dstretch a) (dshrink a).
End HBox.

(** Char is a single character, with its font size, dpi and math flag. *)
Module Char.
Record t : Type := mk {
  c : Z;
  size : Z;
  width : float;
  height : float;
  depth : float;
  font_size : float;
  dpi : float;
  math : bool
}.

Definition Shrink (box : t) : t :=
  let size' := decr (size box) in
  if size' >=? NUM_SIZE_LEVELS then
    mk (c box) size' (width box) (height box) (depth box)
       (font_size box) (dpi box) (math box)
  else
    mk (c box) size'
       (width box * SHRINK_FACTOR)%float
       (height box * SHRINK_FACTOR)%float
       (depth box * SHRINK_FACTOR)%float
       (font_size box * SHRINK_FACTOR)%float (dpi box) (math box).

Definition Grow (box : t) : t :=
  mk (c box) (incr (size box))
     (width box * GROW_FACTOR)%float
     (height box * GROW_FACTOR)%float
     (depth box * GROW_FACTOR)%float
     (font_size box * GROW_FACTOR)%float (dpi box) (math box).

Definition hpackDims (ch : t) (a : dims) : dims :=
  mkDims (dwidth a + width ch)%float
         (Max (dheight a) (height ch)) (Max (ddepth a) (depth ch))
         (dstretch a) (dshrink a).

Definition vpackDims (ch : t) (a : dims) : result dims :=
  Panic "Char node in VList".
End Char.

(** Accent is a character with an accent. *)
Module Accent.
Record t : Type := mk { char : Char.t }.

Definition updateMetrics (box : t) : t * result unit :=
  (box, Panic "not implemented").

Definition Shrink (box : t) : t * result unit :=
  updateMetrics (mk (Char.Shrink (char box))).

Definition Grow (box : t) : t * result unit :=
  updateMetrics (mk (Char.Grow (char box))).

Definition hpackDims (box : t) (a : dims) : dims :=
  Char.hpackDims (char box) a.

Definition vpackDims (box : t) (a : dims) : result dims :=
  Panic "Accent node in VList".
End Accent.

(** Glue: a natural width with stretch and shrink amounts, each with its
    order of infinity. *)
Module Glue.
Record t : Type := mk {
  size : Z;
  width : float;
  stretch : float;
  stretchOrder : Z;
  shrink : float;
  shrinkOrder : Z
}.

Definition Shrink (g : t) : t :=
  let size' := decr (size g) in
  if size' >=? NUM_SIZE_LEVELS then
    mk size' (width g) (stretch g) (stretchOrder g) (shrink g) (shrinkOrder g)
  else
    mk size' (width g * SHRINK_FACTOR)%float
       (stretch g) (stretchOrder g) (shrink g) (shrinkOrder g).

Definition Grow (g : t) : t :=
  mk (incr (size g)) (width g * GROW_FACTOR)%float
     (stretch g) (stretchOrder g) (shrink g) (shrinkOrder g).

Definition hpackDims (g : t) (a : dims) : result dims :=
  st <- addAt (dstretch a) (stretchOrder g) (stretch g) ;;
  sh <- addAt (dshrink a) (shrinkOrder g) (shrink g) ;;
  Ok (mkDims (dwidth a + width g)%float (dheight a) (ddepth a) st sh).

Definition vpackDims (g : t) (a : dims) : result dims :=
  st <- addAt (dstretch a) (stretchOrder g) (stretch g) ;;
  sh <- addAt (dshrink a) (shrinkOrder g) (shrink g) ;;
  Ok (mkDims (dwidth a) (dheight a + ddepth a + width g)%float 0%float st sh).
End Glue.

(** Kern is a node with a width to specify an amount of spacing. *)
Module Kern.
Record t : Type := mk {
  size : Z;
  width : float
}.

Definition Shrink (k : t) : t :=
  let size' := decr (size k) in
  if size' >=? NUM_SIZE_LEVELS then mk size' (width k)
  else mk size' (width k * SHRINK_FACTOR)%float.

Definition Grow (k : t) : t :=
  mk (incr (size k)) (width k * GROW_FACTOR)%float.

Definition hpackDims (k : t) (a : dims) : dims :=
  mkDims (dwidth a + width k)%float (dheight a) (ddepth a)
         (dstretch a) (dshrink a).

Definition vpackDims (k : t) (a : dims) : dims :=
  mkDims (dwidth a) (dheight a + (ddepth a + width k))%float 0%float
         (dstretch a) (dshrink a).
End Kern.

(** Rule is a solid black rectangle.  Its rendering backend takes no part
    in scaling or packing and is left out of the record. *)
Module Rule.
Record t : Type := mk { box : Box.t }.

Definition Shrink (rule : t) : t := mk (Box.Shrink (box rule)).
Definition Grow (rule : t) : t := mk (Box.Grow (box rule)).
Definition hpackDims (rule : t) (a : dims) : dims := Box.hpackDims (box rule) a.
Definition vpackDims (rule : t) (a : dims) : dims := Box.vpackDims (box rule) a.
End Rule.

(** HRule is a horizontal rule. *)
Module HRule.
Record t : Type := mk { rule : Rule.t }.

Definition Shrink (r : t) : t := mk (Rule.Shrink (rule r)).
Definition Grow (r : t) : t := mk (Rule.Grow (rule r)).
Definition hpackDims (r : t) (a : dims) : dims := Rule.hpackDims (rule r) a.
Definition vpackDims (r : t) (a : dims) : dims := Rule.vpackDims (rule r) a.
End HRule.

(** VRule is a vertical rule. *)
Module VRule.
Record t : Type := mk { rule : Rule.t }.

Definition Shrink (r : t) : t := mk (Rule.Shrink (rule r)).
Definition Grow (r : t) : t := mk (Rule.Grow (rule r)).
Definition hpackDims (r : t) (a : dims) : dims := Rule.hpackDims (rule r) a.
Definition vpackDims (r : t) (a : dims) : dims := Rule.vpackDims (rule r) a.
End VRule.

(** ** Lists of nodes *)

(** A loop [for _, node := range children { node.f() }] over nodes that are
    mutated in place: the nodes before a panicking one keep their new
    state, the panicking one keeps what it changed before the panic, and
    the nodes after it are untouched. *)
Section ForEach.
Context {N : Type} (f : N -> N * result unit).

Fixpoint forEach (l : list N) : list N * result unit :=
  match l with
  | [] => ([], Ok tt)
  | n :: rest =>
      match f n with
      | (n', Ok _) => let (rest', r) := forEach rest in (n' :: rest', r)
      | (n', Panic msg) => (n' :: rest, Panic msg)
      end
  end.
End ForEach.

(** List is a list of vertical or horizontal nodes (tex.List); it is
    parameterised by the type of its children so that [Node] can be
    defined from it. *)
Module TexList.
(** The glue setting of a list. *)
Record glueSet : Type := mkGlue {
  set : float;
  sign : Z;
  order : Z;
  ratio : float
}.

Record t (N : Type) : Type := mk {
  box : Box.t;
  shift : float;
  children : list N;
  glue : glueSet
}.

Arguments mk {N} box shift children glue.
Arguments box {N} _.
Arguments shift {N} _.
Arguments children {N} _.
Arguments glue {N} _.

Definition withBox {N} (lst : t N) (b : Box.t) : t N :=
  mk b (shift lst) (children lst) (glue lst).

Definition withChildren {N} (lst : t N) (cs : list N) : t N :=
  mk (box lst) (shift lst) cs (glue lst).

(** [ListOf]: a list with a copy of the elements and zero fields. *)
Definition ListOf {N} (elements : list N) : t N :=
  mk (Box.mk 0 0%float 0%float 0%float) 0%float elements
     (mkGlue 0%float 0 0 0%float).

(** [setGlue] is left unimplemented by the source: it panics. *)
Definition setGlue {N} (lst : t N) (x : float) (sgn : Z)
           (totals : list float) (errMsg : string) : t N * result unit :=
  (lst, Panic "FIXME").

Section Scaling.
Context {N : Type} (shrinkNode growNode : N -> N * result unit).

Definition Shrink (lst : t N) : t N * result unit :=
  match forEach shrinkNode (children lst) with
  | (cs, Panic msg) => (withChildren lst cs, Panic msg)
  | (cs, Ok _) =>
      let box' := Box.Shrink (box lst) in
      if Box.size box' <? NUM_SIZE_LEVELS then
        (mk box' (shift lst * SHRINK_FACTOR)%float cs
            (mkGlue (set (glue lst) * SHRINK_FACTOR)%float
                    (sign (glue lst)) (order (glue lst)) (ratio (glue lst))),
         Ok tt)
      else (mk box' (shift lst) cs (glue lst), Ok tt)
  end.

Definition Grow (lst : t N) : t N * result unit :=
  match forEach growNode (children lst) with
  | (cs, Panic msg) => (withChildren lst cs, Panic msg)
  | (cs, Ok _) =>
      (mk (Box.Grow (box lst)) (shift lst * GROW_FACTOR)%float cs
          (mkGlue (set (glue lst) * GROW_FACTOR)%float
                  (sign (glue lst)) (order (glue lst)) (ratio (glue lst))),
       Ok tt)
  end.
End Scaling.

Definition hpackDims {N} (lst : t N) (a : dims) : dims :=
  let w := (dwidth a + Box.width (box lst))%float in
  if IsInf (Box.height (box lst)) 0 || IsInf (Box.depth (box lst)) 0 then
    mkDims w (dheight a) (ddepth a) (dstretch a) (dshrink a)
  else
    mkDims w
           (Max (dheight a) (Box.height (box lst) - shift lst)%float)
           (Max (ddepth a) (Box.depth (box lst) + shift lst)%float)
           (dstretch a) (dshrink a).

Definition vpackDims {N} (lst : t N) (a : dims) : dims :=
  let h := (dheight a + (ddepth a + Box.height (box lst)))%float in
  let d := Box.depth (box lst) in
  if IsInf (Box.width (box lst)) 0 then
    mkDims (dwidth a) h d (dstretch a) (dshrink a)
  else
    mkDims (Max (dwidth a) (Box.width (box lst))) h d (dstretch a) (dshrink a).
End TexList.

(** HList is a horizontal list of boxes. *)
Module HList.
Record t (N : Type) : Type := mk { lst : TexList.t N }.
Arguments mk {N} lst.
Arguments lst {N} _.

Definition Shrink {N} (shrinkNode : N -> N * result unit) (l : t N)
  : t N * result unit :=
  let (l', r) := TexList.Shrink shrinkNode (lst l) in (mk l', r).

Definition Grow {N} (growNode : N -> N * result unit) (l : t N)
  : t N * result unit :=
  let (l', r) := TexList.Grow growNode (lst l) in (mk l', r).

Definition hpackDims {N} (l : t N) (a : dims) : dims :=
  TexList.hpackDims (lst l) a.
Definition vpackDims {N} (l : t N) (a : dims) : dims :=
  TexList.vpackDims (lst l) a.
End HList.

(** VList is a vertical list of boxes. *)
Module VList.
Record t (N : Type) : Type := mk { lst : TexList.t N }.
Arguments mk {N} lst.
Arguments lst {N} _.

Definition Shrink {N} (shrinkNode : N -> N * result unit) (l : t N)
  : t N * result unit :=
  let (l', r) := TexList.Shrink shrinkNode (lst l) in (mk l', r).

Definition Grow {N} (growNode : N -> N * result unit) (l : t N)
  : t N * result unit :=
  let (l', r) := TexList.Grow growNode (lst l) in (mk l', r).

Definition hpackDims {N} (l : t N) (a : dims) : dims :=
  TexList.hpackDims (lst l) a.
Definition vpackDims {N} (l : t N) (a : dims) : dims :=
  TexList.vpackDims (lst l) a.
End VList.

(** SubSuperCluster embeds an [*HList] (taken to be non-nil) and promotes
    its methods; its nucleus, sub and super fields are placeholders of the
    source and carry no data. *)
Module SubSuperCluster.
Record t (N : Type) : Type := mk { hlist : HList.t N }.
Arguments mk {N} hlist.
Arguments hlist {N} _.

Definition Shrink {N} (shrinkNode : N -> N * result unit) (s : t N)
  : t N * result unit :=
  let (l', r) := HList.Shrink shrinkNode (hlist s) in (mk l', r).

Definition Grow {N} (growNode : N -> N * result unit) (s : t N)
  : t N * result unit :=
  let (l', r) := HList.Grow growNode (hlist s) in (mk l', r).

Definition hpackDims {N} (s : t N) (a : dims) : dims :=
  HList.hpackDims (hlist s) a.
Definition vpackDims {N} (s : t N) (a : dims) : dims :=
  HList.vpackDims (hlist s) a.
End SubSuperCluster.

(** ** Nodes *)

(** The implementations of the [Node] interface. *)
#[warnings="-register-all"]
Inductive Node : Type :=
| NBox (b : Box.t)
| NVBox (b : VBox.t)
| NHBox (b : HBox.t)
| NChar (c : Char.t)
| NAccent (a : Accent.t)
| NList (l : TexList.t Node)
| NHList (l : HList.t Node)
| NVList (l : VList.t Node)
| NRule (r : Rule.t)
| NHRule (r : HRule.t)
| NVRule (r : VRule.t)
| NGlue (g : Glue.t)
| NKern (k : Kern.t)
| NSubSuperCluster (s : SubSuperCluster.t Node).

Definition List_ : Type := TexList.t Node.
Definition HList : Type := HList.t Node.
Definition VList : Type := VList.t Node.

(** [Kerning]: every implementation returns 0, except that of [Char]
    (and of [Accent], which calls it), which is not implemented. *)
Definition Kerning (n next : Node) : result float :=
  match n with
  | NChar _ => Panic "not implemented"
  | NAccent _ => Panic "not implemented"
  | _ => Ok 0%float
  end.

Fixpoint Shrink (n : Node) : Node * result unit :=
  match n with
  | NBox b => (NBox (Box.Shrink b), Ok tt)
  | NVBox b => (NVBox (VBox.Shrink b), Ok tt)
  | NHBox b => (NHBox (HBox.Shrink b), Ok tt)
  | NChar c => (NChar (Char.Shrink c), Ok tt)
  | NAccent a => let (a', r) := Accent.Shrink a in (NAccent a', r)
  | NList l => let (l', r) := TexList.Shrink Shrink l in (NList l', r)
  | NHList l => let (l', r) := HList.Shrink Shrink l in (NHList l', r)
  | NVList l => let (l', r) := VList.Shrink Shrink l in (NVList l', r)
  | NRule r => (NRule (Rule.Shrink r), Ok tt)
  | NHRule r => (NHRule (HRule.Shrink r), Ok tt)
  | NVRule r => (NVRule (VRule.Shrink r), Ok tt)
  | NGlue g => (NGlue (Glue.Shrink g), Ok tt)
  | NKern k => (NKern (Kern.Shrink k), Ok tt)
  | NSubSuperCluster s =>
      let (s', r) := SubSuperCluster.Shrink Shrink s in (NSubSuperCluster s', r)
  end.

Fixpoint Grow (n : Node) : Node * result unit :=
  match n with
  | NBox b => (NBox (Box.Grow b), Ok tt)
  | NVBox b => (NVBox (VBox.Grow b), Ok tt)
  | NHBox b => (NHBox (HBox.Grow b), Ok tt)
  | NChar c => (NChar (Char.Grow c), Ok tt)
  | NAccent a => let (a', r) := Accent.Grow a in (NAccent a', r)
  | NList l => let (l', r) := TexList.Grow Grow l in (NList l', r)
  | NHList l => let (l', r) := HList.Grow Grow l in (NHList l', r)
  | NVList l => let (l', r) := VList.Grow Grow l in (NVList l', r)
  | NRule r => (NRule (Rule.Grow r), Ok tt)
  | NHRule r => (NHRule (HRule.Grow r), Ok tt)
  | NVRule r => (NVRule (VRule.Grow r), Ok tt)
  | NGlue g => (NGlue (Glue.Grow g), Ok tt)
  | NKern k => (NKern (Kern.Grow k), Ok tt)
  | NSubSuperCluster s =>
      let (s', r) := SubSuperCluster.Grow Grow s in (NSubSuperCluster s', r)
  end.

(** The [hpacker] and [vpacker] interfaces: every node kind implements
    both, so the type switches of [hpack] and [vpack] always take their
    first case. *)
Definition hpackDims (n : Node) (a : dims) : result dims :=
  match n with
  | NBox b => Ok (Box.hpackDims b a)
  | NVBox b => Ok (VBox.hpackDims b a)
  | NHBox b => Ok (HBox.hpackDims b a)
  | NChar c => Ok (Char.hpackDims c a)
  | NAccent c => Ok (Accent.hpackDims c a)
  | NList l => Ok (TexList.hpackDims l a)
  | NHList l => Ok (HList.hpackDims l a)
  | NVList l => Ok (VList.hpackDims l a)
  | NRule r => Ok (Rule.hpackDims r a)
  | NHRule r => Ok (HRule.hpackDims r a)
  | NVRule r => Ok (VRule.hpackDims r a)
  | NGlue g => Glue.hpackDims g a
  | NKern k => Ok (Kern.hpackDims k a)
  | NSubSuperCluster s => Ok (SubSuperCluster.hpackDims s a)
  end.

Definition vpackDims (n : Node) (a : dims) : result dims :=
  match n with
  | NBox b => Ok (Box.vpackDims b a)
  | NVBox b => Ok (VBox.vpackDims b a)
  | NHBox b => Ok (HBox.vpackDims b a)
  | NChar c => Char.vpackDims c a
  | NAccent c => Accent.vpackDims c a
  | NList l => Ok (TexList.vpackDims l a)
  | NHList l => Ok (HList.vpackDims l a)
  | NVList l => Ok (VList.vpackDims l a)
  | NRule r => Ok (Rule.vpackDims r a)
  | NHRule r => Ok (HRule.vpackDims r a)
  | NVRule r => Ok (VRule.vpackDims r a)
  | NGlue g => Glue.vpackDims g a
  | NKern k => Ok (Kern.vpackDims k a)
  | NSubSuperCluster s => Ok (SubSuperCluster.vpackDims s a)
  end.

(** ** Packing *)

(** [make([]float64, 4)]. *)
Definition zeroTotals : list float := [0%float; 0%float; 0%float; 0%float].

(** The running dimensions and totals before the first child. *)
Definition startDims : dims := mkDims 0%float 0%float 0%float zeroTotals zeroTotals.

(** The loop over the children of [hpack] and [vpack]: each child updates
    the running dimensions; a panic of a child ends the loop. *)
Fixpoint packLoop (packDims : Node -> dims -> result dims)
         (children : list Node) (a : dims) : result dims :=
  match children with
  | [] => Ok a
  | node :: rest => a' <- packDims node a ;; packLoop packDims rest a'
  end.

(** The glue setting of a list whose size is its natural size. *)
Definition neutralGlue (g : TexList.glueSet) : TexList.glueSet :=
  TexList.mkGlue (TexList.set g) 0 0 0%float.

(** The last step of [hpack] and [vpack]: from the excess [x], reset the
    glue or call [setGlue]. *)
Definition finishPack (lst : List_) (x : float) (a : dims) : List_ * result unit :=
  if (x =? 0)%float then
    (TexList.mk (TexList.box lst) (TexList.shift lst) (TexList.children lst)
                (neutralGlue (TexList.glue lst)), Ok tt)
  else if (0 <? x)%float then
    TexList.setGlue lst x 1 (dstretch a) "overfull"
  else
    TexList.setGlue lst x (-1) (dshrink a) "underfull".

(** [hpack] computes the dimensions of the resulting box. *)
Definition hpack (lst : HList) (width : float) (additional : bool)
  : HList * result unit :=
  match packLoop hpackDims (TexList.children (HList.lst lst)) startDims with
  | Panic msg => (lst, Panic msg)
  | Ok a =>
      let h := dheight a in
      let d := ddepth a in
      let x := dwidth a in
      let width := if additional then (width + x)%float else width in
      let l1 := TexList.withBox (HList.lst lst)
                  (Box.mk (Box.size (TexList.box (HList.lst lst))) width h d) in
      let x := (width - x)%float in
      let (l2, r) := finishPack l1 x a in
      (HList.mk l2, r)
  end.

(** [vpack] computes the dimensions of the resulting box; [l] is the
    largest depth the box may have. *)
Definition vpack (lst : VList) (height : float) (additional : bool) (l : float)
  : VList * result unit :=
  match packLoop vpackDims (TexList.children (VList.lst lst)) startDims with
  | Panic msg => (lst, Panic msg)
  | Ok a =>
      let w := dwidth a in
      let d := ddepth a in
      let x := dheight a in
      let x := if (l <? d)%float then (x + (d - l))%float else x in
      let depth := if (l <? d)%float then l else d in
      let height := if additional then (height + x)%float else height in
      let l1 := TexList.withBox (VList.lst lst)
                  (Box.mk (Box.size (TexList.box (VList.lst lst))) w height depth) in
      let x := (height - x)%float in
      let (l2, r) := finishPack l1 x a in
      (VList.mk l2, r)
  end.

(** ** Kerns and glue *)

Definition NewKern (width : float) : Kern.t := Kern.mk 0 width.

Definition newGlue (w st : float) (sto : Z) (sh : float) (sho : Z) : Glue.t :=
  Glue.mk 0 w st sto sh sho.

(** [NewGlue]; the panic message carries the unknown spec (the quoting
    that the format verb adds to it is not kept). *)
Definition NewGlue (typ : string) : result Glue.t :=
  if String.eqb typ "fil" then Ok (newGlue 0 1 1 0 0)
  else if String.eqb typ "fill" then Ok (newGlue 0 1 2 0 0)
  else if String.eqb typ "filll" then Ok (newGlue 0 1 3 0 0)
  else if String.eqb typ "neg_fil" then Ok (newGlue 0 0 0 1 1)
  else if String.eqb typ "neg_fill" then Ok (newGlue 0 0 0 1 2)
  else if String.eqb typ "neg_filll" then Ok (newGlue 0 0 0 1 3)
  else if String.eqb typ "empty" then Ok (Glue.mk 0 0 0 0 0 0)
  else if String.eqb typ "ss" then Ok (newGlue 0 1 1 (-1) 1)
  else Panic ("tex: unknown Glue spec " ++ typ).

(** [kern] inserts Kern nodes between the nodes of a list.  The amount of
    kerning comes from the [Kerning] method of the left node of each pair;
    the loop is stated for any implementation [kerning] of that method. *)
Section Kern.
Variable kerning : Node -> Node -> result float.

(** The loop of [kern]: [elems] are the children from index [i] on and
    [children] is the slice built so far. *)
Fixpoint kernLoop (elems : list Node) (children : list Node)
  : result (list Node) :=
  match elems with
  | [] => Ok children
  | elem :: rest =>
      dist <- match rest with
              | next :: _ => kerning elem next
              | [] => Ok 0%float
              end ;;
      let children := (children ++ [elem])%list in
      let children :=
        if negb (dist =? 0)%float then (children ++ [NKern (NewKern dist)])%list
        else children in
      kernLoop rest children
  end.

Definition kernWith (lst : HList) : result HList :=
  match TexList.children (HList.lst lst) with
  | [] => Ok lst
  | _ =>
      children <- kernLoop (TexList.children (HList.lst lst)) [] ;;
      Ok (HList.mk (TexList.withChildren (HList.lst lst) children))
  end.

Definition HListOfWith (elements : list Node) (doKern : bool) : result HList :=
  let lst := HList.mk (TexList.ListOf elements) in
  lst <- (if doKern then kernWith lst else Ok lst) ;;
  match hpack lst 0 true with
  | (lst', Ok _) => Ok lst'
  | (_, Panic msg) => Panic msg
  end.
End Kern.

Definition kern (lst : HList) : result HList := kernWith Kerning lst.

Definition HListOf (elements : list Node) (doKern : bool) : result HList :=
  HListOfWith Kerning elements doKern.

Definition VListOf (elements : list Node) : result VList :=
  let lst := VList.mk (TexList.ListOf elements) in
  match vpack lst 0 true infinity with
  | (lst', Ok _) => Ok lst'
  | (_, Panic msg) => Panic msg
  end.

(** [HCentered] and [VCentered]: the elements between two "ss" glues. *)
Definition ssGlue : Glue.t := newGlue 0 1 1 (-1) 1.

Definition HCentered (elements : list Node) : result HList :=
  HListOf (NGlue ssGlue :: (elements ++ [NGlue ssGlue])%list) false.

Definition VCentered (elements : list Node) : result VList :=
  VListOf (NGlue ssGlue :: (elements ++ [NGlue ssGlue])%list).

(** ** Rendering *)

(** The calls that rendering makes on the backend. *)
Inductive backendCall : Type :=
| RenderGlyph
| RenderRectFilled (x1 y1 x2 y2 : float).

(** [Rule.render]: the one method that draws; it fills the rectangle
    from (x, y) to (x+w, y+h).  No other function calls it. *)
Definition Rule_render (rule : Rule.t) (x y w h : float) : list backendCall :=
  [RenderRectFilled x y (x + w)%float (y + h)%float].







(** ** Rule constructors *)

(** [State] has no fields; its two methods are not implemented. *)
Inductive State : Type := mkState.

(** The [backend] interface has no implementation in the package. *)
Inductive backend : Type := mkBackend.

Definition State_Backend (s : State) : result backend :=
  Panic "not implemented".

Definition State_UnderlineThickness (s : State) : result float :=
  Panic "not implemented".

(** [NewRule] gives the rule a zero box whatever [w], [h] and [d] are, and
    asks the state for the backend. *)
Definition NewRule (w h d : float) (state : State) : result Rule.t :=
  out <- State_Backend state ;;
  Ok (Rule.mk (Box.mk 0 0%float 0%float 0%float)).

Definition NewHRule (state : State) (thickness : float) : result HRule.t :=
  thickness <- (if (thickness <? 0)%float then State_UnderlineThickness state
                else Ok thickness) ;;
  let height := (0.5 * thickness)%float in
  let depth := (0.5 * thickness)%float in
  rule <- NewRule infinity height depth state ;;
  Ok (HRule.mk rule).

Definition NewVRule (state : State) : result VRule.t :=
  thickness <- State_UnderlineThickness state ;;
  rule <- NewRule thickness infinity infinity state ;;
  Ok (VRule.mk rule).

(** ** Go's [utf8.DecodeRune] and [string(rune)]

    A Go string is its sequence of bytes: a [string] of Rocq, one [ascii]
    for each byte.  A [rune] is a [Z]. *)

Definition byteOf (c : ascii) : Z := Z.of_N (N_of_ascii c).
Definition byteChar (b : Z) : ascii := ascii_of_N (Z.to_N b).

Definition RuneError : Z := 0xFFFD.
Definition MaxRune : Z := 0x10FFFF.

Definition inRange (lo hi b : Z) : bool := (lo <=? b) && (b <=? hi).

(** [utf8.DecodeRune]: the first rune of [p] and the number of bytes it
    takes; [(RuneError, 0)] for the empty string and [(RuneError, 1)] for
    an encoding that is cut short, overlong, a surrogate or out of
    range. *)
Definition DecodeRune (p : string) : Z * Z :=
  match p with
  | EmptyString => (RuneError, 0)
  | String c0 rest =>
      let p0 := byteOf c0 in
      if p0 <? 0x80 then (p0, 1)
      else if p0 <? 0xC2 then (RuneError, 1)
      else if p0 <? 0xE0 then
        match rest with
        | String c1 _ =>
            let b1 := byteOf c1 in
            if negb (inRange 0x80 0xBF b1) then (RuneError, 1)
            else (Z.lor (Z.shiftl (Z.land p0 0x1F) 6) (Z.land b1 0x3F), 2)
        | _ => (RuneError, 1)
        end
      else if p0 <? 0xF0 then
        match rest with
        | String c1 (String c2 _) =>
            let b1 := byteOf c1 in
            let b2 := byteOf c2 in
            let lo := if p0 =? 0xE0 then 0xA0 else 0x80 in
            let hi := if p0 =? 0xED then 0x9F else 0xBF in
            if negb (inRange lo hi b1) then (RuneError, 1)
            else if negb (inRange 0x80 0xBF b2) then (RuneError, 1)
            else (Z.lor (Z.lor (Z.shiftl (Z.land p0 0x0F) 12)
                               (Z.shiftl (Z.land b1 0x3F) 6))
                        (Z.land b2 0x3F), 3)
        | _ => (RuneError, 1)
        end
      else if p0 <? 0xF5 then
        match rest with
        | String c1 (String c2 (String c3 _)) =>
            let b1 := byteOf c1 in
            let b2 := byteOf c2 in
            let b3 := byteOf c3 in
            let lo := if p0 =? 0xF0 then 0x90 else 0x80 in
            let hi := if p0 =? 0xF4 then 0x8F else 0xBF in
            if negb (inRange lo hi b1) then (RuneError, 1)
            else if negb (inRange 0x80 0xBF b2) then (RuneError, 1)
            else if negb (inRange 0x80 0xBF b3) then (RuneError, 1)
            else (Z.lor (Z.lor (Z.lor (Z.shiftl (Z.land p0 0x07) 18)
                                      (Z.shiftl (Z.land b1 0x3F) 12))
                               (Z.shiftl (Z.land b2 0x3F) 6))
                        (Z.land b3 0x3F), 4)
        | _ => (RuneError, 1)
        end
      else (RuneError, 1)
  end.

(** A rune that has an encoding: in range and not a surrogate. *)
Definition validRune (r : Z) : bool :=
  (0 <=? r) && (r <=? MaxRune) && negb (inRange 0xD800 0xDFFF r).

Definition bytesString (bs : list Z) : string :=
  fold_right (fun b s => String (byteChar b) s) EmptyString bs.

(** The bytes of [string(r)]: the UTF-8 encoding of [r], and that of
    [RuneError] for a rune that has none. *)
Definition runeBytes (r : Z) : list Z :=
  if negb (validRune r) then [0xEF; 0xBF; 0xBD]
  else if r <=? 0x7F then [r]
  else if r <=? 0x7FF then
    [Z.lor 0xC0 (Z.shiftr r 6); Z.lor 0x80 (Z.land r 0x3F)]
  else if r <=? 0xFFFF then
    [Z.lor 0xE0 (Z.shiftr r 12); Z.lor 0x80 (Z.land (Z.shiftr r 6) 0x3F);
     Z.lor 0x80 (Z.land r 0x3F)]
  else
    [Z.lor 0xF0 (Z.shiftr r 18); Z.lor 0x80 (Z.land (Z.shiftr r 12) 0x3F);
     Z.lor 0x80 (Z.land (Z.shiftr r 6) 0x3F); Z.lor 0x80 (Z.land r 0x3F)].

Definition runeString (r : Z) : string := bytesString (runeBytes r).

(** [Char.String]: the character as a string. *)
Definition Char_String (c : Char.t) : string := runeString (Char.c c).

(** ** Unicode indices of TeX symbols ([unicodeIndex])

    The table [tex2uni] of the package, entry by entry and in the order
    of the source; its keys are distinct. *)

Definition tex2uni : list (string * Z) :=
  [ ("widehat", 0x0302)
  ; ("widetilde", 0x0303)
  ; ("widebar", 0x0305)
  ; ("langle", 0x27e8)
  ; ("rangle", 0x27e9)
  ; ("perp", 0x27c2)
  ; ("neq", 0x2260)
  ; ("Join", 0x2a1d)
  ; ("leqslant", 0x2a7d)
  ; ("geqslant", 0x2a7e)
  ; ("lessapprox", 0x2a85)
  ; ("gtrapprox", 0x2a86)
  ; ("lesseqqgtr", 0x2a8b)
  ; ("gtreqqless", 0x2a8c)
  ; ("triangleeq", 0x225c)
  ; ("eqslantless", 0x2a95)
  ; ("eqslantgtr", 0x2a96)
  ; ("backepsilon", 0x03f6)
  ; ("precapprox", 0x2ab7)
  ; ("succapprox", 0x2ab8)
  ; ("fallingdotseq", 0x2252)
  ; ("subseteqq", 0x2ac5)
  ; ("supseteqq", 0x2ac6)
  ; ("varpropto", 0x221d)
  ; ("precnapprox", 0x2ab9)
  ; ("succnapprox", 0x2aba)
  ; ("subsetneqq", 0x2acb)
  ; ("supsetneqq", 0x2acc)
  ; ("lnapprox", 0x2ab9)
  ; ("gnapprox", 0x2aba)
  ; ("longleftarrow", 0x27f5)
  ; ("longrightarrow", 0x27f6)
  ; ("longleftrightarrow", 0x27f7)
  ; ("Longleftarrow", 0x27f8)
  ; ("Longrightarrow", 0x27f9)
  ; ("Longleftrightarrow", 0x27fa)
  ; ("longmapsto", 0x27fc)
  ; ("leadsto", 0x21dd)
  ; ("dashleftarrow", 0x290e)
  ; ("dashrightarrow", 0x290f)
  ; ("circlearrowleft", 0x21ba)
  ; ("circlearrowright", 0x21bb)
  ; ("leftrightsquigarrow", 0x21ad)
  ; ("leftsquigarrow", 0x219c)
  ; ("rightsquigarrow", 0x219d)
  ; ("Game", 0x2141)
  ; ("hbar", 0x0127)
  ; ("hslash", 0x210f)
  ; ("ldots", 0x2026)
  ; ("vdots", 0x22ee)
  ; ("doteqdot", 0x2251)
  ; ("doteq", 8784)
  ; ("partial", 8706)
  ; ("gg", 8811)
  ; ("asymp", 8781)
  ; ("blacktriangledown", 9662)
  ; ("otimes", 8855)
  ; ("nearrow", 8599)
  ; ("varpi", 982)
  ; ("vee", 8744)
  ; ("vec", 8407)
  ; ("smile", 8995)
  ; ("succnsim", 8937)
  ; ("gimel", 8503)
  ; ("vert", 124)
  ; ("|", 124)
  ; ("varrho", 1009)
  ; ("P", 182)
  ; ("approxident", 8779)
  ; ("Swarrow", 8665)
  ; ("textasciicircum", 94)
  ; ("imageof", 8887)
  ; ("ntriangleleft", 8938)
  ; ("nleq", 8816)
  ; ("div", 247)
  ; ("nparallel", 8742)
  ; ("Leftarrow", 8656)
  ; ("lll", 8920)
  ; ("oiint", 8751)
  ; ("ngeq", 8817)
  ; ("Theta", 920)
  ; ("origof", 8886)
  ; ("blacksquare", 9632)
  ; ("solbar", 9023)
  ; ("neg", 172)
  ; ("sum", 8721)
  ; ("Vdash", 8873)
  ; ("coloneq", 8788)
  ; ("degree", 176)
  ; ("bowtie", 8904)
  ; ("blacktriangleright", 9654)
  ; ("varsigma", 962)
  ; ("leq", 8804)
  ; ("ggg", 8921)
  ; ("lneqq", 8808)
  ; ("scurel", 8881)
  ; ("stareq", 8795)
  ; ("BbbN", 8469)
  ; ("nLeftarrow", 8653)
  ; ("nLeftrightarrow", 8654)
  ; ("k", 808)
  ; ("bot", 8869)
  ; ("BbbC", 8450)
  ; ("Lsh", 8624)
  ; ("leftleftarrows", 8647)
  ; ("BbbZ", 8484)
  ; ("digamma", 989)
  ; ("BbbR", 8477)
  ; ("BbbP", 8473)
  ; ("BbbQ", 8474)
  ; ("vartriangleright", 8883)
  ; ("succsim", 8831)
  ; ("wedge", 8743)
  ; ("lessgtr", 8822)
  ; ("veebar", 8891)
  ; ("mapsdown", 8615)
  ; ("Rsh", 8625)
  ; ("chi", 967)
  ; ("prec", 8826)
  ; ("nsubseteq", 8840)
  ; ("therefore", 8756)
  ; ("eqcirc", 8790)
  ; ("textexclamdown", 161)
  ; ("nRightarrow", 8655)
  ; ("flat", 9837)
  ; ("notin", 8713)
  ; ("llcorner", 8990)
  ; ("varepsilon", 949)
  ; ("bigtriangleup", 9651)
  ; ("aleph", 8501)
  ; ("dotminus", 8760)
  ; ("upsilon", 965)
  ; ("Lambda", 923)
  ; ("cap", 8745)
  ; ("barleftarrow", 8676)
  ; ("mu", 956)
  ; ("boxplus", 8862)
  ; ("mp", 8723)
  ; ("circledast", 8859)
  ; ("tau", 964)
  ; ("in", 8712)
  ; ("backslash", 92)
  ; ("varnothing", 8709)
  ; ("sharp", 9839)
  ; ("eqsim", 8770)
  ; ("gnsim", 8935)
  ; ("Searrow", 8664)
  ; ("updownarrows", 8645)
  ; ("heartsuit", 9825)
  ; ("trianglelefteq", 8884)
  ; ("ddag", 8225)
  ; ("sqsubseteq", 8849)
  ; ("mapsfrom", 8612)
  ; ("boxbar", 9707)
  ; ("sim", 8764)
  ; ("Nwarrow", 8662)
  ; ("nequiv", 8802)
  ; ("succ", 8827)
  ; ("vdash", 8866)
  ; ("Leftrightarrow", 8660)
  ; ("parallel", 8741)
  ; ("invnot", 8976)
  ; ("natural", 9838)
  ; ("ss", 223)
  ; ("uparrow", 8593)
  ; ("nsim", 8769)
  ; ("hookrightarrow", 8618)
  ; ("Equiv", 8803)
  ; ("approx", 8776)
  ; ("Vvdash", 8874)
  ; ("nsucc", 8833)
  ; ("leftrightharpoons", 8651)
  ; ("Re", 8476)
  ; ("boxminus", 8863)
  ; ("equiv", 8801)
  ; ("Lleftarrow", 8666)
  ; ("ll", 8810)
  ; ("Cup", 8915)
  ; ("measeq", 8798)
  ; ("upharpoonleft", 8639)
  ; ("lq", 8216)
  ; ("Upsilon", 933)
  ; ("subsetneq", 8842)
  ; ("greater", 62)
  ; ("supsetneq", 8843)
  ; ("Cap", 8914)
  ; ("L", 321)
  ; ("spadesuit", 9824)
  ; ("lrcorner", 8991)
  ; ("not", 824)
  ; ("bar", 772)
  ; ("rightharpoonaccent", 8401)
  ; ("boxdot", 8865)
  ; ("l", 322)
  ; ("leftharpoondown", 8637)
  ; ("bigcup", 8899)
  ; ("iint", 8748)
  ; ("bigwedge", 8896)
  ; ("downharpoonleft", 8643)
  ; ("textasciitilde", 126)
  ; ("subset", 8834)
  ; ("leqq", 8806)
  ; ("mapsup", 8613)
  ; ("nvDash", 8877)
  ; ("looparrowleft", 8619)
  ; ("nless", 8814)
  ; ("rightarrowbar", 8677)
  ; ("Vert", 8214)
  ; ("downdownarrows", 8650)
  ; ("uplus", 8846)
  ; ("simeq", 8771)
  ; ("napprox", 8777)
  ; ("ast", 8727)
  ; ("twoheaduparrow", 8607)
  ; ("doublebarwedge", 8966)
  ; ("Sigma", 931)
  ; ("leftharpoonaccent", 8400)
  ; ("ntrianglelefteq", 8940)
  ; ("nexists", 8708)
  ; ("times", 215)
  ; ("measuredangle", 8737)
  ; ("bumpeq", 8783)
  ; ("carriagereturn", 8629)
  ; ("adots", 8944)
  ; ("checkmark", 10003)
  ; ("lambda", 955)
  ; ("xi", 958)
  ; ("rbrace", 125)
  ; ("rbrack", 93)
  ; ("Nearrow", 8663)
  ; ("maltese", 10016)
  ; ("clubsuit", 9827)
  ; ("top", 8868)
  ; ("overarc", 785)
  ; ("varphi", 966)
  ; ("Delta", 916)
  ; ("iota", 953)
  ; ("nleftarrow", 8602)
  ; ("candra", 784)
  ; ("supset", 8835)
  ; ("triangleleft", 9665)
  ; ("gtreqless", 8923)
  ; ("ntrianglerighteq", 8941)
  ; ("quad", 8195)
  ; ("Xi", 926)
  ; ("gtrdot", 8919)
  ; ("leftthreetimes", 8907)
  ; ("minus", 8722)
  ; ("preccurlyeq", 8828)
  ; ("nleftrightarrow", 8622)
  ; ("lambdabar", 411)
  ; ("blacktriangle", 9652)
  ; ("kernelcontraction", 8763)
  ; ("Phi", 934)
  ; ("angle", 8736)
  ; ("spadesuitopen", 9828)
  ; ("eqless", 8924)
  ; ("mid", 8739)
  ; ("varkappa", 1008)
  ; ("Ldsh", 8626)
  ; ("updownarrow", 8597)
  ; ("beta", 946)
  ; ("textquotedblleft", 8220)
  ; ("rho", 961)
  ; ("alpha", 945)
  ; ("intercal", 8890)
  ; ("beth", 8502)
  ; ("grave", 768)
  ; ("acwopencirclearrow", 8634)
  ; ("nmid", 8740)
  ; ("nsupset", 8837)
  ; ("sigma", 963)
  ; ("dot", 775)
  ; ("Rightarrow", 8658)
  ; ("turnednot", 8985)
  ; ("backsimeq", 8909)
  ; ("leftarrowtail", 8610)
  ; ("approxeq", 8778)
  ; ("curlyeqsucc", 8927)
  ; ("rightarrowtail", 8611)
  ; ("Psi", 936)
  ; ("copyright", 169)
  ; ("yen", 165)
  ; ("vartriangleleft", 8882)
  ; ("rasp", 700)
  ; ("triangleright", 9655)
  ; ("precsim", 8830)
  ; ("infty", 8734)
  ; ("geq", 8805)
  ; ("updownarrowbar", 8616)
  ; ("precnsim", 8936)
  ; ("H", 779)
  ; ("ulcorner", 8988)
  ; ("looparrowright", 8620)
  ; ("ncong", 8775)
  ; ("downarrow", 8595)
  ; ("circeq", 8791)
  ; ("subseteq", 8838)
  ; ("bigstar", 9733)
  ; ("prime", 8242)
  ; ("lceil", 8968)
  ; ("Rrightarrow", 8667)
  ; ("oiiint", 8752)
  ; ("curlywedge", 8911)
  ; ("vDash", 8872)
  ; ("lfloor", 8970)
  ; ("ddots", 8945)
  ; ("exists", 8707)
  ; ("underbar", 817)
  ; ("Pi", 928)
  ; ("leftrightarrows", 8646)
  ; ("sphericalangle", 8738)
  ; ("coprod", 8720)
  ; ("circledcirc", 8858)
  ; ("gtrsim", 8819)
  ; ("gneqq", 8809)
  ; ("between", 8812)
  ; ("theta", 952)
  ; ("complement", 8705)
  ; ("arceq", 8792)
  ; ("nVdash", 8878)
  ; ("S", 167)
  ; ("wr", 8768)
  ; ("wp", 8472)
  ; ("backcong", 8780)
  ; ("lasp", 701)
  ; ("c", 807)
  ; ("nabla", 8711)
  ; ("dotplus", 8724)
  ; ("eta", 951)
  ; ("forall", 8704)
  ; ("eth", 240)
  ; ("colon", 58)
  ; ("sqcup", 8852)
  ; ("rightrightarrows", 8649)
  ; ("sqsupset", 8848)
  ; ("mapsto", 8614)
  ; ("bigtriangledown", 9661)
  ; ("sqsupseteq", 8850)
  ; ("propto", 8733)
  ; ("pi", 960)
  ; ("pm", 177)
  ; ("dots", 0x2026)
  ; ("nrightarrow", 8603)
  ; ("textasciiacute", 180)
  ; ("Doteq", 8785)
  ; ("breve", 774)
  ; ("sqcap", 8851)
  ; ("twoheadrightarrow", 8608)
  ; ("kappa", 954)
  ; ("vartriangle", 9653)
  ; ("diamondsuit", 9826)
  ; ("pitchfork", 8916)
  ; ("blacktriangleleft", 9664)
  ; ("nprec", 8832)
  ; ("curvearrowright", 8631)
  ; ("barwedge", 8892)
  ; ("multimap", 8888)
  ; ("textquestiondown", 191)
  ; ("cong", 8773)
  ; ("rtimes", 8906)
  ; ("rightzigzagarrow", 8669)
  ; ("rightarrow", 8594)
  ; ("leftarrow", 8592)
  ; ("__sqrt__", 8730)
  ; ("twoheaddownarrow", 8609)
  ; ("oint", 8750)
  ; ("bigvee", 8897)
  ; ("eqdef", 8797)
  ; ("sterling", 163)
  ; ("phi", 981)
  ; ("Updownarrow", 8661)
  ; ("backprime", 8245)
  ; ("emdash", 8212)
  ; ("Gamma", 915)
  ; ("i", 305)
  ; ("rceil", 8969)
  ; ("leftharpoonup", 8636)
  ; ("Im", 8465)
  ; ("curvearrowleft", 8630)
  ; ("wedgeq", 8793)
  ; ("curlyeqprec", 8926)
  ; ("questeq", 8799)
  ; ("less", 60)
  ; ("upuparrows", 8648)
  ; ("tilde", 771)
  ; ("textasciigrave", 96)
  ; ("smallsetminus", 8726)
  ; ("ell", 8467)
  ; ("cup", 8746)
  ; ("danger", 9761)
  ; ("nVDash", 8879)
  ; ("cdotp", 183)
  ; ("cdots", 8943)
  ; ("hat", 770)
  ; ("eqgtr", 8925)
  ; ("psi", 968)
  ; ("frown", 8994)
  ; ("acute", 769)
  ; ("downzigzagarrow", 8623)
  ; ("ntriangleright", 8939)
  ; ("cupdot", 8845)
  ; ("circleddash", 8861)
  ; ("oslash", 8856)
  ; ("mho", 8487)
  ; ("d", 803)
  ; ("sqsubset", 8847)
  ; ("cdot", 8901)
  ; ("Omega", 937)
  ; ("OE", 338)
  ; ("veeeq", 8794)
  ; ("Finv", 8498)
  ; ("t", 865)
  ; ("leftrightarrow", 8596)
  ; ("swarrow", 8601)
  ; ("rightthreetimes", 8908)
  ; ("rightleftharpoons", 8652)
  ; ("lesssim", 8818)
  ; ("searrow", 8600)
  ; ("because", 8757)
  ; ("gtrless", 8823)
  ; ("star", 8902)
  ; ("nsubset", 8836)
  ; ("zeta", 950)
  ; ("dddot", 8411)
  ; ("bigcirc", 9675)
  ; ("Supset", 8913)
  ; ("circ", 8728)
  ; ("slash", 8725)
  ; ("ocirc", 778)
  ; ("prod", 8719)
  ; ("twoheadleftarrow", 8606)
  ; ("daleth", 8504)
  ; ("upharpoonright", 8638)
  ; ("odot", 8857)
  ; ("Uparrow", 8657)
  ; ("O", 216)
  ; ("hookleftarrow", 8617)
  ; ("trianglerighteq", 8885)
  ; ("nsime", 8772)
  ; ("oe", 339)
  ; ("nwarrow", 8598)
  ; ("o", 248)
  ; ("ddddot", 8412)
  ; ("downharpoonright", 8642)
  ; ("succcurlyeq", 8829)
  ; ("gamma", 947)
  ; ("scrR", 8475)
  ; ("dag", 8224)
  ; ("thickspace", 8197)
  ; ("frakZ", 8488)
  ; ("lessdot", 8918)
  ; ("triangledown", 9663)
  ; ("ltimes", 8905)
  ; ("scrB", 8492)
  ; ("endash", 8211)
  ; ("scrE", 8496)
  ; ("scrF", 8497)
  ; ("scrH", 8459)
  ; ("scrI", 8464)
  ; ("rightharpoondown", 8641)
  ; ("scrL", 8466)
  ; ("scrM", 8499)
  ; ("frakC", 8493)
  ; ("nsupseteq", 8841)
  ; ("circledR", 174)
  ; ("circledS", 9416)
  ; ("ngtr", 8815)
  ; ("bigcap", 8898)
  ; ("scre", 8495)
  ; ("Downarrow", 8659)
  ; ("scrg", 8458)
  ; ("overleftrightarrow", 8417)
  ; ("scro", 8500)
  ; ("lnsim", 8934)
  ; ("eqcolon", 8789)
  ; ("curlyvee", 8910)
  ; ("urcorner", 8989)
  ; ("lbrace", 123)
  ; ("Bumpeq", 8782)
  ; ("delta", 948)
  ; ("boxtimes", 8864)
  ; ("overleftarrow", 8406)
  ; ("prurel", 8880)
  ; ("clubsuitopen", 9831)
  ; ("cwopencirclearrow", 8635)
  ; ("geqq", 8807)
  ; ("rightleftarrows", 8644)
  ; ("ac", 8766)
  ; ("ae", 230)
  ; ("int", 8747)
  ; ("rfloor", 8971)
  ; ("risingdotseq", 8787)
  ; ("nvdash", 8876)
  ; ("diamond", 8900)
  ; ("ddot", 776)
  ; ("backsim", 8765)
  ; ("oplus", 8853)
  ; ("triangleq", 8796)
  ; ("check", 780)
  ; ("ni", 8715)
  ; ("iiint", 8749)
  ; ("ne", 8800)
  ; ("lesseqgtr", 8922)
  ; ("obar", 9021)
  ; ("supseteq", 8839)
  ; ("nu", 957)
  ; ("AA", 197)
  ; ("AE", 198)
  ; ("models", 8871)
  ; ("ominus", 8854)
  ; ("dashv", 8867)
  ; ("omega", 969)
  ; ("rq", 8217)
  ; ("Subset", 8912)
  ; ("rightharpoonup", 8640)
  ; ("Rdsh", 8627)
  ; ("bullet", 8729)
  ; ("divideontimes", 8903)
  ; ("lbrack", 91)
  ; ("textquotedblright", 8221)
  ; ("Colon", 8759)
  ; ("%", 37)
  ; ("$", 36)
  ; ("{", 123)
  ; ("}", 125)
  ; ("_", 95)
  ; ("#", 35)
  ; ("imath", 0x131)
  ; ("circumflexaccent", 770)
  ; ("combiningbreve", 774)
  ; ("combiningoverline", 772)
  ; ("combininggraveaccent", 768)
  ; ("combiningacuteaccent", 769)
  ; ("combiningdiaeresis", 776)
  ; ("combiningtilde", 771)
  ; ("combiningrightarrowabove", 8407)
  ; ("combiningdotabove", 775)
  ; ("to", 8594)
  ; ("succeq", 8829)
  ; ("emptyset", 8709)
  ; ("leftparen", 40)
  ; ("rightparen", 41)
  ; ("bigoplus", 10753)
  ; ("leftangle", 10216)
  ; ("rightangle", 10217)
  ; ("leftbrace", 124)
  ; ("rightbrace", 125)
  ; ("jmath", 567)
  ; ("bigodot", 10752)
  ; ("preceq", 8828)
  ; ("biguplus", 10756)
  ; ("epsilon", 949)
  ; ("vartheta", 977)
  ; ("bigotimes", 10754)
  ; ("guillemotleft", 171)
  ; ("ring", 730)
  ; ("Thorn", 222)
  ; ("guilsinglright", 8250)
  ; ("perthousand", 8240)
  ; ("macron", 175)
  ; ("cent", 162)
  ; ("guillemotright", 187)
  ; ("equal", 61)
  ; ("asterisk", 42)
  ; ("guilsinglleft", 8249)
  ; ("plus", 43)
  ; ("thorn", 254)
  ; ("dagger", 8224)
  ].

(** [strings.Replace(v, `\`, "", 1)]: [v] without its first backslash. *)
Fixpoint removeBackslash (v : string) : string :=
  match v with
  | EmptyString => EmptyString
  | String c rest =>
      if byteOf c =? 0x5C then rest else String c (removeBackslash rest)
  end.

(** Reading a Go map: the value of the key, if it is present. *)
Fixpoint lookup (key : string) (m : list (string * Z)) : option Z :=
  match m with
  | [] => None
  | (k, r) :: m' => if String.eqb key k then Some r else lookup key m'
  end.

(** [unicodeIndex]; the panic messages carry [v] (the quoting that the
    format verb adds to it is not kept). *)
Definition unicodeIndex (v : string) (math : bool) : result Z :=
  if negb math then
    let (r, _) := DecodeRune v in
    if r =? RuneError then Panic ("tex: invalid rune " ++ v) else Ok r
  else if String.eqb v "-" then Ok 0x2212
  else
    let (r, _) := DecodeRune v in
    if negb (r =? RuneError) then Ok r
    else
      match lookup (removeBackslash v) tex2uni with
      | Some r => Ok r
      | None =>
          Panic (v ++ " is not a valid unicode character nor a known TeX symbol")
      end.

(** ** Well-formed nodes and the quantities the properties speak of *)

(** An order of infinity is an index into the four totals. *)
Definition orderOk (o : Z) : bool := (0 <=? o) && (o <? 4).

(** A glue node whose orders of infinity are within 0..3 (every node that
    is not a glue qualifies). *)
Definition glueOk (n : Node) : bool :=
  match n with
  | NGlue g => orderOk (Glue.stretchOrder g) && orderOk (Glue.shrinkOrder g)
  | _ => true
  end.

Definition isCharOrAccent (n : Node) : bool :=
  match n with
  | NChar _ | NAccent _ => true
  | _ => false
  end.

Definition isGlue (n : Node) : bool :=
  match n with
  | NGlue _ => true
  | _ => false
  end.

(** The width a child adds to the natural width of a horizontal list. *)
Definition hwidth (n : Node) : option float :=
  match n with
  | NBox b => Some (Box.width b)
  | NVBox _ => None
  | NHBox b => Some (HBox.width b)
  | NChar c => Some (Char.width c)
  | NAccent a => Some (Char.width (Accent.char a))
  | NList l => Some (Box.width (TexList.box l))
  | NHList l => Some (Box.width (TexList.box (HList.lst l)))
  | NVList l => Some (Box.width (TexList.box (VList.lst l)))
  | NRule r => Some (Box.width (Rule.box r))
  | NHRule r => Some (Box.width (Rule.box (HRule.rule r)))
  | NVRule r => Some (Box.width (Rule.box (VRule.rule r)))
  | NGlue g => Some (Glue.width g)
  | NKern k => Some (Kern.width k)
  | NSubSuperCluster s =>
      Some (Box.width (TexList.box (HList.lst (SubSuperCluster.hlist s))))
  end.

(** The natural width of a horizontal list: the widths of its children,
    added up from the left. *)
Definition naturalWidth (children : list Node) : float :=
  fold_left (fun x n => match hwidth n with
                        | Some w => (x + w)%float
                        | None => x
                        end) children 0%float.

(** The excess of [hpack]: the final width minus the natural width. *)
Definition hpackExcess (natural width : float) (additional : bool) : float :=
  ((if additional then width + natural else width) - natural)%float.

(** The glue specs that [NewGlue] knows. *)
Definition glueSpecs : list string :=
  ["fil"; "fill"; "filll"; "neg_fil"; "neg_fill"; "neg_filll"; "empty"; "ss"].

(** An HBox of width 10 followed by a glue of natural width 0 that
    stretches by 5 at order 1. *)
Definition stretchExample : HList :=
  HList.mk (TexList.ListOf [NHBox (HBox.mk 0 10); NGlue (newGlue 0 5 1 0 0)]).

(** A box, a kern and a deeper box, for vertical packing. *)
Definition stackExample : VList :=
  VList.mk (TexList.ListOf [NBox (Box.mk 0 1 2 3); NKern (NewKern 4);
                            NBox (Box.mk 0 5 7 11)]).

(** The natural height of a vertical list, once the depth carried out of
    the last child is limited to [l]. *)
Definition vpackNatural (a : dims) (l : float) : float :=
  if (l <? ddepth a)%float then (dheight a + (ddepth a - l))%float
  else dheight a.

(** A glue setting is neutral when its sign, order and ratio are 0. *)
Definition neutral (g : TexList.glueSet) : Prop :=
  TexList.sign g = 0 /\ TexList.order g = 0 /\ TexList.ratio g = 0%float.

(** A box of zero width, height and depth. *)
Definition zeroDims (b : Box.t) : Prop :=
  Box.width b = 0%float /\ Box.height b = 0%float /\ Box.depth b = 0%float.

(** A node that a vertical list can hold: not a character, and with valid
    glue orders. *)
Definition vOk (n : Node) : bool := negb (isCharOrAccent n) && glueOk n.

(** The own height of a child of a vertical list; for a kern and a glue
    it is the width, which they spend vertically; an HBox has none. *)
Definition vheight (n : Node) : option float :=
  match n with
  | NBox b => Some (Box.height b)
  | NVBox b => Some (VBox.height b)
  | NHBox _ => None
  | NChar c => Some (Char.height c)
  | NAccent a => Some (Char.height (Accent.char a))
  | NList l => Some (Box.height (TexList.box l))
  | NHList l => Some (Box.height (TexList.box (HList.lst l)))
  | NVList l => Some (Box.height (TexList.box (VList.lst l)))
  | NRule r => Some (Box.height (Rule.box r))
  | NHRule r => Some (Box.height (Rule.box (HRule.rule r)))
  | NVRule r => Some (Box.height (Rule.box (VRule.rule r)))
  | NGlue g => Some (Glue.width g)
  | NKern k => Some (Kern.width k)
  | NSubSuperCluster s =>
      Some (Box.height (TexList.box (HList.lst (SubSuperCluster.hlist s))))
  end.

(** The depth that a child of a vertical list hands to the next one. *)
Definition vdepth (n : Node) : float :=
  match n with
  | NBox b => Box.depth b
  | NVBox b => VBox.depth b
  | NHBox _ => 0%float
  | NChar c => Char.depth c
  | NAccent a => Char.depth (Accent.char a)
  | NList l => Box.depth (TexList.box l)
  | NHList l => Box.depth (TexList.box (HList.lst l))
  | NVList l => Box.depth (TexList.box (VList.lst l))
  | NRule r => Box.depth (Rule.box r)
  | NHRule r => Box.depth (Rule.box (HRule.rule r))
  | NVRule r => Box.depth (Rule.box (VRule.rule r))
  | NGlue _ => 0%float
  | NKern _ => 0%float
  | NSubSuperCluster s =>
      Box.depth (TexList.box (HList.lst (SubSuperCluster.hlist s)))
  end.

(** The width that a child offers to the width of a vertical list: a VBox
    offers 0, a kern and a glue offer nothing. *)
Definition vwidth (n : Node) : option float :=
  match n with
  | NVBox _ => Some 0%float
  | NGlue _ | NKern _ => None
  | _ => hwidth n
  end.

(** The height total after a child: the total so far, plus the depth of
    the previous child, plus the own height of this child (a glue adds
    the previous depth first and its own size after). *)
Definition vadvance (n : Node) (height prevDepth : float) : float :=
  match n, vheight n with
  | NGlue _, Some h => (height + prevDepth + h)%float
  | _, Some h => (height + (prevDepth + h))%float
  | _, None => (height + prevDepth)%float
  end.

(** The natural height of a vertical list: every child adds its own
    height and the depth of the child before it (0 before the first). *)
Definition naturalHeight (children : list Node) : float :=
  fold_left (fun h p => vadvance (fst p) h (snd p))
            (combine children (0%float :: map vdepth children)) 0%float.

(** The depth carried out of a vertical list: the depth of its last child. *)
Definition lastDepth (children : list Node) : float :=
  last (map vdepth children) 0%float.

(** The width of a vertical list: the largest width its children offer,
    infinite widths aside. *)
Definition maxWidth (children : list Node) : float :=
  fold_left (fun w n => match vwidth n with
                        | Some x => if IsInf x 0 then w else Max w x
                        | None => w
                        end) children 0%float.

(** The height and depth of the box of a child; an HBox, a glue and a
    kern have none. *)
Definition rawHD (n : Node) : option (float * float) :=
  match n with
  | NHBox _ | NGlue _ | NKern _ => None
  | _ => match vheight n with
         | Some h => Some (h, vdepth n)
         | None => None
         end
  end.

(** A child whose own height or depth is infinite. *)
Definition infiniteHD (n : Node) : bool :=
  match rawHD n with
  | Some (h, d) => IsInf h 0 || IsInf d 0
  | None => false
  end.

(** The height and depth that a list offers to an enclosing horizontal
    list: those of its box, moved by its shift. *)
Definition listOffer (l : List_) : float * float :=
  ((Box.height (TexList.box l) - TexList.shift l)%float,
   (Box.depth (TexList.box l) + TexList.shift l)%float).

(** The height and depth that a child offers to a horizontal list. *)
Definition hoffer (n : Node) : option (float * float) :=
  match n with
  | NList l => Some (listOffer l)
  | NHList l => Some (listOffer (HList.lst l))
  | NVList l => Some (listOffer (VList.lst l))
  | NSubSuperCluster s => Some (listOffer (HList.lst (SubSuperCluster.hlist s)))
  | _ => rawHD n
  end.

(** The largest height, and the largest depth, that the given children
    offer (at least 0). *)
Definition maxHeightOf (children : list Node) : float :=
  fold_left (fun h n => match hoffer n with
                        | Some (hn, _) => Max h hn
                        | None => h
                        end) children 0%float.

Definition maxDepthOf (children : list Node) : float :=
  fold_left (fun d n => match hoffer n with
                        | Some (_, dn) => Max d dn
                        | None => d
                        end) children 0%float.

(** The children of finite height and depth. *)
Definition finiteChildren (children : list Node) : list Node :=
  filter (fun n => negb (infiniteHD n)) children.

(** The children that [hpack] measures for the height and depth: the
    characters and accents, and the others of finite height and depth. *)
Definition measuredChildren (children : list Node) : list Node :=
  filter (fun n => isCharOrAccent n || negb (infiniteHD n)) children.

(** A horizontal list with dimensions, a shift and a glue set amount. *)
Definition scaledExample : HList :=
  HList.mk (TexList.mk (Box.mk 0 3 1 2) 0.5
                       [NHBox (HBox.mk 0 3); NKern (NewKern 4)]
                       (TexList.mkGlue 1 0 0 0)).

(** A character of infinite height. *)
Definition tallChar : Char.t := Char.mk 120 0 1 infinity 0 10 72 true.

(** The children of a list with a kern between each adjacent pair whose
    kerning is not zero: the kerning of every pair is asked from the left
    node, pair after pair, and a kern of that width follows the left node
    exactly when the amount is not zero. *)
Fixpoint spliceKerns (kerning : Node -> Node -> result float)
         (elems : list Node) : result (list Node) :=
  match elems with
  | [] => Ok []
  | elem :: rest =>
      match rest with
      | [] => Ok [elem]
      | next :: _ =>
          dist <- kerning elem next ;;
          tail <- spliceKerns kerning rest ;;
          Ok (elem :: (if negb (dist =? 0)%float
                       then NKern (NewKern dist) :: tail
                       else tail))
      end
  end.

(** A kerning table for the examples: 2 between a character and a box,
    0 elsewhere. *)
Definition exampleKerning (n next : Node) : result float :=
  match n, next with
  | NChar _, NBox _ => Ok 2%float
  | _, _ => Ok 0%float
  end.

(** The size counter of a node (for a list, that of its box). *)
Definition ownSize (n : Node) : Z :=
  match n with
  | NBox b => Box.size b
  | NVBox b => VBox.size b
  | NHBox b => HBox.size b
  | NChar c => Char.size c
  | NAccent a => Char.size (Accent.char a)
  | NList l => Box.size (TexList.box l)
  | NHList l => Box.size (TexList.box (HList.lst l))
  | NVList l => Box.size (TexList.box (VList.lst l))
  | NRule r => Box.size (Rule.box r)
  | NHRule r => Box.size (Rule.box (HRule.rule r))
  | NVRule r => Box.size (Rule.box (VRule.rule r))
  | NGlue g => Glue.size g
  | NKern k => Kern.size k
  | NSubSuperCluster s =>
      Box.size (TexList.box (HList.lst (SubSuperCluster.hlist s)))
  end.

Definition boxDims (b : Box.t) : list float :=
  [Box.width b; Box.height b; Box.depth b].

Definition listDims (l : List_) : list float :=
  (boxDims (TexList.box l)
   ++ [TexList.shift l; TexList.set (TexList.glue l)])%list.

(** The physical dimensions of a node: the width, height and depth it
    has, and for a list also the shift and the glue set amount. *)
Definition ownDims (n : Node) : list float :=
  match n with
  | NBox b => boxDims b
  | NVBox b => [VBox.height b; VBox.depth b]
  | NHBox b => [HBox.width b]
  | NChar c => [Char.width c; Char.height c; Char.depth c]
  | NAccent a => [Char.width (Accent.char a); Char.height (Accent.char a);
                  Char.depth (Accent.char a)]
  | NList l => listDims l
  | NHList l => listDims (HList.lst l)
  | NVList l => listDims (VList.lst l)
  | NRule r => boxDims (Rule.box r)
  | NHRule r => boxDims (Rule.box (HRule.rule r))
  | NVRule r => boxDims (Rule.box (VRule.rule r))
  | NGlue g => [Glue.width g]
  | NKern k => [Kern.width k]
  | NSubSuperCluster s => listDims (HList.lst (SubSuperCluster.hlist s))
  end.

(** The signed mantissa [m] and the exponent [e] of a finite float, whose
    value is [m * 2^e]. *)
Definition finiteValue (f : float) : option (Z * Z) :=
  match Prim2SF f with
  | S754_zero _ => Some (0, 0)
  | S754_finite s m e => Some (if s then Zneg m else Zpos m, e)
  | _ => None
  end.

(** [got] is within the relative tolerance 1e-9 of [want]: the two are
    the same float, or both are finite and, in exact arithmetic,
    [|got - want| <= 1e-9 * |want|]. *)
Definition withinTol (got want : float) : bool :=
  PrimFloat.Leibniz.eqb got want
  || match finiteValue got, finiteValue want with
     | Some (m1, e1), Some (m2, e2) =>
         let e := Z.min e1 e2 in
         10 ^ 9 * Z.abs (m1 * 2 ^ (e1 - e) - m2 * 2 ^ (e2 - e))
         <=? Z.abs (m2 * 2 ^ (e2 - e))
     | _, _ => false
     end.

Fixpoint allWithinTol (got want : list float) : bool :=
  match got, want with
  | [], [] => true
  | g :: got', w :: want' => withinTol g w && allWithinTol got' want'
  | _, _ => false
  end.

(** [Shrink] followed by [Grow], when neither panics. *)
Definition shrinkGrow (n : Node) : result Node :=
  match Shrink n with
  | (n1, Ok _) => match Grow n1 with
                  | (n2, Ok _) => Ok n2
                  | (_, Panic msg) => Panic msg
                  end
  | (_, Panic msg) => Panic msg
  end.

(** What a scaling [Shrink] and the [Grow] after it make of a dimension. *)
Definition shrunkGrown (v : float) : float :=
  (v * SHRINK_FACTOR * GROW_FACTOR)%float.

(** Induction over nodes that reaches the children of the lists. *)
Section NodeInduction.
Variable P : Node -> Prop.
Hypothesis PBox : forall b, P (NBox b).
Hypothesis PVBox : forall b, P (NVBox b).
Hypothesis PHBox : forall b, P (NHBox b).
Hypothesis PChar : forall c, P (NChar c).
Hypothesis PAccent : forall a, P (NAccent a).
Hypothesis PList : forall l, Forall P (TexList.children l) -> P (NList l).
Hypothesis PHList :
  forall l, Forall P (TexList.children (HList.lst l)) -> P (NHList l).
Hypothesis PVList :
  forall l, Forall P (TexList.children (VList.lst l)) -> P (NVList l).
Hypothesis PRule : forall r, P (NRule r).
Hypothesis PHRule : forall r, P (NHRule r).
Hypothesis PVRule : forall r, P (NVRule r).
Hypothesis PGlue : forall g, P (NGlue g).
Hypothesis PKern : forall k, P (NKern k).
Hypothesis PSubSuperCluster :
  forall s, Forall P (TexList.children (HList.lst (SubSuperCluster.hlist s))) ->
            P (NSubSuperCluster s).

Fixpoint Node_nested_ind (n : Node) : P n :=
  let all := fix all (cs : list Node) : Forall P cs :=
               match cs with
               | [] => Forall_nil P
               | c :: cs' => Forall_cons c (Node_nested_ind c) (all cs')
               end in
  match n with
  | NBox b => PBox b
  | NVBox b => PVBox b
  | NHBox b => PHBox b
  | NChar c => PChar c
  | NAccent a => PAccent a
  | NList l => PList l (all (TexList.children l))
  | NHList l => PHList l (all (TexList.children (HList.lst l)))
  | NVList l => PVList l (all (TexList.children (VList.lst l)))
  | NRule r => PRule r
  | NHRule r => PHRule r
  | NVRule r => PVRule r
  | NGlue g => PGlue g
  | NKern k => PKern k
  | NSubSuperCluster s =>
      PSubSuperCluster s (all (TexList.children (HList.lst (SubSuperCluster.hlist s))))
  end.
End NodeInduction.

(** A dimension that the two scalings keep clear of underflow and
    overflow: zero, infinite, NaN, or of magnitude between 2^-1021 and
    2^1021. *)
Definition roundsWell (v : float) : bool :=
  (v =? 0)%float || is_infinity v || is_nan v
  || ((0x1p-1021 <=? abs v)%float && (abs v <=? 0x1p1021)%float).

(** The elements that [kern] asks for a kerning: all but the last. *)
Definition kernable (elements : list Node) : bool :=
  forallb (fun n => negb (isCharOrAccent n)) (removelast elements).

(** The list that [HListOf] returns for elements it has measured. *)
Definition packedHList (elements : list Node) : HList :=
  HList.mk (TexList.mk
              (Box.mk 0 (0 + naturalWidth elements)%float
                      (maxHeightOf (measuredChildren elements))
                      (maxDepthOf (measuredChildren elements)))
              0%float elements (TexList.mkGlue 0%float 0 0 0%float)).

(** The list that [VListOf] returns for elements it has measured. *)
Definition packedVList (elements : list Node) : VList :=
  VList.mk (TexList.mk
              (Box.mk 0 (maxWidth elements)
                      (0 + naturalHeight elements)%float
                      (lastDepth elements))
              0%float elements (TexList.mkGlue 0%float 0 0 0%float)).

(** The panic of the vertical measure of a node, if it has one. *)
Definition vpackPanic (n : Node) : option string :=
  match n with
  | NChar _ => Some "Char node in VList"
  | NAccent _ => Some "Accent node in VList"
  | NGlue _ => if glueOk n then None else Some "index out of range"
  | _ => None
  end.

(** The first value that [f] finds in a list. *)
Fixpoint firstSome {A B : Type} (f : A -> option B) (l : list A) : option B :=
  match l with
  | [] => None
  | a :: l' => match f a with
               | Some b => Some b
               | None => firstSome f l'
               end
  end.

(** The elements between the two glues of [HCentered] and [VCentered]. *)
Definition centered (elements : list Node) : list Node :=
  NGlue ssGlue :: (elements ++ [NGlue ssGlue])%list.

(** Whether an accent occurs in a node, at any depth. *)
Fixpoint hasAccent (n : Node) : bool :=
  match n with
  | NAccent _ => true
  | NList l => existsb hasAccent (TexList.children l)
  | NHList l => existsb hasAccent (TexList.children (HList.lst l))
  | NVList l => existsb hasAccent (TexList.children (VList.lst l))
  | NSubSuperCluster s =>
      existsb hasAccent (TexList.children (HList.lst (SubSuperCluster.hlist s)))
  | _ => false
  end.

(** The outcome of a scaling of a node. *)
Definition scalingOutcome (n : Node) : result unit :=
  if hasAccent n then Panic "not implemented" else Ok tt.

(** What packing leaves alone in a list: the children, the shift, the
    size counter and the glue set amount. *)
Definition packFrame (l : List_) : list Node * float * Z * float :=
  (TexList.children l, TexList.shift l, Box.size (TexList.box l),
   TexList.set (TexList.glue l)).

(** [Grow] followed by [Shrink], when neither panics. *)
Definition growShrink (n : Node) : result Node :=
  match Grow n with
  | (n1, Ok _) => match Shrink n1 with
                  | (n2, Ok _) => Ok n2
                  | (_, Panic msg) => Panic msg
                  end
  | (_, Panic msg) => Panic msg
  end.

(** What a [Grow] and the scaling [Shrink] after it make of a dimension. *)
Definition grownShrunk (v : float) : float :=
  (v * GROW_FACTOR * SHRINK_FACTOR)%float.

(** An entry of a table whose key starts with an ASCII byte. *)
Definition asciiKey (e : string * Z) : bool :=
  match fst e with
  | EmptyString => false
  | String c _ => byteOf c <? 0x80
  end.

(** ** Basic facts *)

Arguments IsInf : simpl never.

Lemma addAtNat_length (s : list float) (i : nat) (v : float) :
  (i < List.length s)%nat ->
  exists s', addAtNat s i v = Some s' /\ List.length s' = List.length s.
Proof.
  revert i. induction s as [|a s IH]; intros i Hi; simpl in *.
  - lia.
  - destruct i as [|i].
    + eexists. split; [reflexivity|reflexivity].
    + destruct (IH i) as [s' [E L]]; [lia|].
      rewrite E. eexists. split; [reflexivity|simpl; congruence].
Qed.

Lemma addAt_ok (s : list float) (i : Z) (v : float) :
  List.length s = 4%nat -> orderOk i = true ->
  exists s', addAt s i v = Ok s' /\ List.length s' = 4%nat.
Proof.
  intros L H. unfold orderOk in H.
  apply andb_true_iff in H. destruct H as [H0 H4].
  apply Z.leb_le in H0. apply Z.ltb_lt in H4.
  unfold addAt. destruct (i <? 0) eqn:E; [apply Z.ltb_lt in E; lia|].
  destruct (addAtNat_length s (Z.to_nat i) v) as [s' [E' L']]; [lia|].
  rewrite E'. exists s'. split; [reflexivity|congruence].
Qed.

Lemma packLoop_app (f : Node -> dims -> result dims) (l1 l2 : list Node) (a : dims) :
  packLoop f (l1 ++ l2) a = (a' <- packLoop f l1 a ;; packLoop f l2 a').
Proof.
  revert a. induction l1 as [|n l1 IH]; intros a; simpl; [reflexivity|].
  destruct (f n a) as [a'|msg]; simpl; [apply IH|reflexivity].
Qed.

(** A glue with valid orders keeps the totals four long. *)
Lemma Glue_hpackDims_ok (g : Glue.t) (a : dims) :
  glueOk (NGlue g) = true ->
  List.length (dstretch a) = 4%nat -> List.length (dshrink a) = 4%nat ->
  exists st sh,
    Glue.hpackDims g a
    = Ok (mkDims (dwidth a + Glue.width g)%float (dheight a) (ddepth a) st sh)
    /\ List.length st = 4%nat /\ List.length sh = 4%nat.
Proof.
  simpl. intros H Ls Lh. apply andb_true_iff in H. destruct H as [H1 H2].
  destruct (addAt_ok (dstretch a) _ (Glue.stretch g) Ls H1) as [st [E1 L1]].
  destruct (addAt_ok (dshrink a) _ (Glue.shrink g) Lh H2) as [sh [E2 L2]].
  exists st, sh. unfold Glue.hpackDims. rewrite E1. simpl. rewrite E2. simpl.
  auto.
Qed.

Lemma Glue_vpackDims_ok (g : Glue.t) (a : dims) :
  glueOk (NGlue g) = true ->
  List.length (dstretch a) = 4%nat -> List.length (dshrink a) = 4%nat ->
  exists st sh,
    Glue.vpackDims g a
    = Ok (mkDims (dwidth a) (dheight a + ddepth a + Glue.width g)%float 0%float st sh)
    /\ List.length st = 4%nat /\ List.length sh = 4%nat.
Proof.
  simpl. intros H Ls Lh. apply andb_true_iff in H. destruct H as [H1 H2].
  destruct (addAt_ok (dstretch a) _ (Glue.stretch g) Ls H1) as [st [E1 L1]].
  destruct (addAt_ok (dshrink a) _ (Glue.shrink g) Lh H2) as [sh [E2 L2]].
  exists st, sh. unfold Glue.vpackDims. rewrite E1. simpl. rewrite E2. simpl.
  auto.
Qed.

(** The totals of an accumulator are four long. *)
Definition totalsOk (a : dims) : Prop :=
  List.length (dstretch a) = 4%nat /\ List.length (dshrink a) = 4%nat.

Lemma startDims_totalsOk : totalsOk startDims.
Proof. split; reflexivity. Qed.

(** What one child does to the running dimensions of [hpack], as far as
    the natural width and the totals' lengths go. *)
Lemma hpackDims_width (n : Node) (a : dims) :
  glueOk n = true -> totalsOk a ->
  exists a', hpackDims n a = Ok a'
             /\ totalsOk a'
             /\ dwidth a' = match hwidth n with
                            | Some w => (dwidth a + w)%float
                            | None => dwidth a
                            end.
Proof.
  intros G [Ls Lh].
  destruct n; simpl;
    try (eexists; split; [reflexivity|]; split; [|]);
    unfold Box.hpackDims, VBox.hpackDims, HBox.hpackDims, Char.hpackDims,
      Accent.hpackDims, TexList.hpackDims, HList.hpackDims, VList.hpackDims,
      Rule.hpackDims, HRule.hpackDims, VRule.hpackDims, Kern.hpackDims,
      SubSuperCluster.hpackDims, Char.hpackDims, Box.hpackDims, TexList.hpackDims,
      HList.hpackDims, Rule.hpackDims, Box.hpackDims, TexList.hpackDims;
    repeat match goal with
           | |- context [if ?c then _ else _] => destruct c
           end;
    try (split; assumption); try reflexivity.
  destruct (Glue_hpackDims_ok g a G Ls Lh) as [st [sh [E [L1 L2]]]].
  rewrite E. eexists. split; [reflexivity|]. split; [split; assumption|reflexivity].
Qed.

Lemma hpackLoop_width (children : list Node) (a : dims) :
  forallb glueOk children = true -> totalsOk a ->
  exists a', packLoop hpackDims children a = Ok a'
             /\ totalsOk a'
             /\ dwidth a' = fold_left (fun x n => match hwidth n with
                                                  | Some w => (x + w)%float
                                                  | None => x
                                                  end) children (dwidth a).
Proof.
  revert a. induction children as [|n cs IH]; intros a G T; simpl in *.
  - exists a. auto.
  - apply andb_true_iff in G. destruct G as [Gn Gcs].
    destruct (hpackDims_width n a Gn T) as [a1 [E1 [T1 W1]]].
    rewrite E1. simpl.
    destruct (IH a1 Gcs T1) as [a' [E' [T' W']]].
    exists a'. split; [assumption|]. split; [assumption|].
    rewrite W', W1. reflexivity.
Qed.

(** The natural width from a loop that returned. *)
Lemma hpackDims_width_of_ok (n : Node) (a a' : dims) :
  hpackDims n a = Ok a' ->
  dwidth a' = match hwidth n with
              | Some w => (dwidth a + w)%float
              | None => dwidth a
              end.
Proof.
  destruct n; simpl; intros E;
    try (injection E as <-);
    unfold Box.hpackDims, VBox.hpackDims, HBox.hpackDims, Char.hpackDims,
      Accent.hpackDims, TexList.hpackDims, HList.hpackDims, VList.hpackDims,
      Rule.hpackDims, HRule.hpackDims, VRule.hpackDims, Kern.hpackDims,
      SubSuperCluster.hpackDims, Char.hpackDims, TexList.hpackDims,
      HList.hpackDims, Rule.hpackDims, Box.hpackDims, TexList.hpackDims;
    repeat match goal with
           | |- context [if ?c then _ else _] => destruct c
           end;
    try reflexivity.
  unfold Glue.hpackDims in E.
  destruct (addAt (dstretch a) (Glue.stretchOrder g) (Glue.stretch g)); simpl in E;
    [|discriminate].
  destruct (addAt (dshrink a) (Glue.shrinkOrder g) (Glue.shrink g)); simpl in E;
    [|discriminate].
  injection E as <-. reflexivity.
Qed.

Lemma hpackLoop_width_of_ok (children : list Node) (a a' : dims) :
  packLoop hpackDims children a = Ok a' ->
  dwidth a' = fold_left (fun x n => match hwidth n with
                                    | Some w => (x + w)%float
                                    | None => x
                                    end) children (dwidth a).
Proof.
  revert a. induction children as [|n cs IH]; intros a E; simpl in *.
  - injection E as <-. reflexivity.
  - destruct (hpackDims n a) as [a1|msg] eqn:E1; simpl in E; [|discriminate].
    rewrite (IH a1 E), (hpackDims_width_of_ok n a a1 E1). reflexivity.
Qed.

(** The last step of a packing leaves the box and the children alone. *)
Lemma finishPack_box (lst : List_) (x : float) (a : dims) :
  TexList.box (fst (finishPack lst x a)) = TexList.box lst
  /\ TexList.children (fst (finishPack lst x a)) = TexList.children lst.
Proof.
  unfold finishPack, TexList.setGlue.
  destruct (x =? 0)%float; [split; reflexivity|].
  destruct (0 <? x)%float; split; reflexivity.
Qed.

(** Packing does not touch the children. *)
Lemma hpack_children (lst : HList) (width : float) (additional : bool) :
  TexList.children (HList.lst (fst (hpack lst width additional)))
  = TexList.children (HList.lst lst).
Proof.
  unfold hpack.
  destruct (packLoop hpackDims (TexList.children (HList.lst lst)) startDims);
    [|reflexivity].
  cbv zeta.
  match goal with
  | |- context [finishPack ?l ?x ?a] =>
      pose proof (finishPack_box l x a) as [_ C];
      destruct (finishPack l x a) as [l2 r]
  end.
  simpl in *. exact C.
Qed.


Lemma finishPack_zero (lst : List_) (x : float) (a : dims) :
  (x =? 0)%float = true ->
  finishPack lst x a
  = (TexList.mk (TexList.box lst) (TexList.shift lst) (TexList.children lst)
                (neutralGlue (TexList.glue lst)), Ok tt).
Proof. intros H. unfold finishPack. rewrite H. reflexivity. Qed.

(** ** Glue setting: [setGlue] is a stub *)





(** C1 (the code departs from the claim): the worked example of the
    specification, an HBox of width 10 and a glue stretching by 5 at
    order 1 packed to width 20, has excess 10; the glue-setting step
    panics instead of selecting order 1 and setting the ratio 2. *)
Theorem hpack_stretch_example_panics :
  hpack stretchExample 20 false
  = (HList.mk (TexList.withBox (HList.lst stretchExample) (Box.mk 0 20 0 0)),
     Panic "FIXME").
Proof. vm_compute. reflexivity. Qed.

(** ** Glue construction *)

(** C10: [NewGlue] returns a glue exactly for the eight known specs and
    panics for every other string; "fil", "fill" and "filll" give a glue
    of natural width 0 that stretches by 1 at order 1, 2 and 3 and does
    not shrink. *)
Theorem NewGlue_known_specs (typ : string) :
  (isOk (NewGlue typ) = true <-> In typ glueSpecs)
  /\ (isOk (NewGlue typ) = false <->
      NewGlue typ = Panic ("tex: unknown Glue spec " ++ typ)%string)
  /\ NewGlue "fil" = Ok (Glue.mk 0 0 1 1 0 0)
  /\ NewGlue "fill" = Ok (Glue.mk 0 0 1 2 0 0)
  /\ NewGlue "filll" = Ok (Glue.mk 0 0 1 3 0 0).
Proof.
  split; [|split; [|repeat split; reflexivity]].
  - unfold NewGlue, glueSpecs.
    repeat match goal with
           | |- context [String.eqb typ ?s] =>
               destruct (String.eqb_spec typ s) as [->|?]
           end; simpl; split; intros H; try reflexivity; try discriminate;
      try tauto.
    intuition congruence.
  - unfold NewGlue.
    repeat match goal with
           | |- context [String.eqb typ ?s] =>
               destruct (String.eqb typ s)
           end; simpl; split; intros H; try reflexivity; try discriminate.
Qed.

(** ** The width of a packed horizontal list *)

(** A list without glue has valid glue orders. *)
Lemma noGlue_glueOk (children : list Node) :
  forallb (fun n => negb (isGlue n)) children = true ->
  forallb glueOk children = true.
Proof.
  induction children as [|n cs IH]; simpl; [reflexivity|].
  intros H. apply andb_true_iff in H. destruct H as [Hn Hcs].
  rewrite (IH Hcs), andb_true_r. destruct n; try reflexivity; discriminate.
Qed.

Lemma hpack_width_of_loop (lst : HList) (width : float) (additional : bool) (a : dims) :
  packLoop hpackDims (TexList.children (HList.lst lst)) startDims = Ok a ->
  Box.width (TexList.box (HList.lst (fst (hpack lst width additional))))
  = if additional then (width + dwidth a)%float else width.
Proof.
  intros E. unfold hpack. rewrite E. cbv zeta.
  match goal with
  | |- context [finishPack ?l ?x ?a] =>
      pose proof (finishPack_box l x a) as [B _];
      destruct (finishPack l x a) as [l2 r]
  end.
  simpl in *. rewrite B. reflexivity.
Qed.

(** C2: [hpack] gives the box the requested width when [additional] is
    false and the natural width of the children plus the requested width
    when it is true; in particular, with [additional] false the width is
    the requested one whatever the children are.  (The glue children are
    taken to have orders within 0..3; a list without glue, which has
    nothing to stretch or shrink, always qualifies.) *)
Theorem hpack_box_width (lst : HList) (width : float) (additional : bool) :
  forallb glueOk (TexList.children (HList.lst lst)) = true ->
  Box.width (TexList.box (HList.lst (fst (hpack lst width additional))))
  = (if additional
     then (width + naturalWidth (TexList.children (HList.lst lst)))%float
     else width)
  /\ Box.width (TexList.box (HList.lst (fst (hpack lst width false)))) = width.
Proof.
  intros G.
  destruct (hpackLoop_width _ startDims G startDims_totalsOk) as [a [E [_ W]]].
  split.
  - rewrite (hpack_width_of_loop _ _ _ _ E).
    unfold naturalWidth. simpl in W. rewrite W. reflexivity.
  - apply (hpack_width_of_loop _ _ false _ E).
Qed.

Lemma hpack_box_width_witness :
  Box.width (TexList.box (HList.lst (fst (hpack stretchExample 20 true)))) = 30%float
  /\ Box.width (TexList.box (HList.lst (fst (hpack stretchExample 20 false)))) = 20%float.
Proof.
  split.
  - exact (proj1 (hpack_box_width stretchExample 20 true eq_refl)).
  - exact (proj2 (hpack_box_width stretchExample 20 true eq_refl)).
Defined.

(** A list without glue packed to a given width has that width. *)
Lemma hpack_noGlue_width (lst : HList) (width : float) :
  forallb (fun n => negb (isGlue n)) (TexList.children (HList.lst lst)) = true ->
  Box.width (TexList.box (HList.lst (fst (hpack lst width false)))) = width.
Proof.
  intros H. apply noGlue_glueOk in H.
  destruct (hpackLoop_width _ startDims H startDims_totalsOk) as [a [E _]].
  apply (hpack_width_of_loop _ _ false _ E).
Qed.

(** ** Zero excess *)

Lemma hpack_zero_excess (lst : HList) (width : float) (additional : bool) (a : dims) :
  packLoop hpackDims (TexList.children (HList.lst lst)) startDims = Ok a ->
  (hpackExcess (dwidth a) width additional =? 0)%float = true ->
  snd (hpack lst width additional) = Ok tt
  /\ neutral (TexList.glue (HList.lst (fst (hpack lst width additional)))).
Proof.
  intros E X. unfold hpack. rewrite E. cbv zeta.
  unfold hpackExcess in X. rewrite finishPack_zero by exact X.
  simpl. repeat split; reflexivity.
Qed.

Lemma vpack_zero_excess (lst : VList) (height : float) (additional : bool)
      (l : float) (a : dims) :
  packLoop vpackDims (TexList.children (VList.lst lst)) startDims = Ok a ->
  (hpackExcess (vpackNatural a l) height additional =? 0)%float = true ->
  snd (vpack lst height additional l) = Ok tt
  /\ neutral (TexList.glue (VList.lst (fst (vpack lst height additional l)))).
Proof.
  intros E X. unfold vpack. rewrite E. cbv zeta.
  unfold hpackExcess, vpackNatural in X. rewrite finishPack_zero by exact X.
  simpl. repeat split; reflexivity.
Qed.

(** C8: when the excess of a packing is zero the glue setting of the
    packed list is neutral (sign, order and ratio are 0), for [hpack] and
    for [vpack]; and a list without children, packed in additional mode
    with no extra size, has zero width, height and depth and a neutral
    glue setting (for [vpack], when the depth limit is not negative, as
    in [VListOf]). *)
Theorem pack_zero_excess_neutral
        (hl : HList) (vl : VList) (size : float) (additional : bool) (l : float)
        (ah av : dims) :
  packLoop hpackDims (TexList.children (HList.lst hl)) startDims = Ok ah ->
  packLoop vpackDims (TexList.children (VList.lst vl)) startDims = Ok av ->
  ((hpackExcess (dwidth ah) size additional =? 0)%float = true ->
   snd (hpack hl size additional) = Ok tt
   /\ neutral (TexList.glue (HList.lst (fst (hpack hl size additional)))))
  /\ ((hpackExcess (vpackNatural av l) size additional =? 0)%float = true ->
      snd (vpack vl size additional l) = Ok tt
      /\ neutral (TexList.glue (VList.lst (fst (vpack vl size additional l)))))
  /\ (TexList.children (HList.lst hl) = [] ->
      snd (hpack hl 0 true) = Ok tt
      /\ zeroDims (TexList.box (HList.lst (fst (hpack hl 0 true))))
      /\ neutral (TexList.glue (HList.lst (fst (hpack hl 0 true)))))
  /\ (TexList.children (VList.lst vl) = [] -> (l <? 0)%float = false ->
      snd (vpack vl 0 true l) = Ok tt
      /\ zeroDims (TexList.box (VList.lst (fst (vpack vl 0 true l))))
      /\ neutral (TexList.glue (VList.lst (fst (vpack vl 0 true l))))).
Proof.
  intros Eh Ev. split; [|split; [|split]].
  - apply hpack_zero_excess. exact Eh.
  - apply vpack_zero_excess. exact Ev.
  - intros C. unfold hpack. rewrite C. simpl.
    repeat split; reflexivity.
  - intros C L. unfold vpack. rewrite C. simpl.
    change (l <? 0)%float with (l <? 0)%float. rewrite L. simpl.
    repeat split; reflexivity.
Qed.

Lemma pack_zero_excess_neutral_witness :
  (snd (hpack stretchExample 10 false) = Ok tt
   /\ neutral (TexList.glue (HList.lst (fst (hpack stretchExample 10 false)))))
  /\ (snd (vpack stackExample 0 true infinity) = Ok tt
      /\ neutral (TexList.glue (VList.lst (fst (vpack stackExample 0 true infinity))))).
Proof.
  split.
  - exact (proj1 (pack_zero_excess_neutral stretchExample stackExample 10 false
                    infinity _ _ eq_refl eq_refl) eq_refl).
  - exact (proj1 (proj2 (pack_zero_excess_neutral stretchExample stackExample 0 true
                    infinity _ _ eq_refl eq_refl)) eq_refl).
Defined.

(** ** Characters in vertical lists *)

(** Every node kind but [Char] and [Accent] can be measured vertically. *)
Lemma vpackDims_other (n : Node) (a : dims) :
  isCharOrAccent n = false -> glueOk n = true -> totalsOk a ->
  exists a', vpackDims n a = Ok a' /\ totalsOk a'.
Proof.
  intros C G [Ls Lh].
  destruct n; simpl in C; try discriminate; simpl;
    try (eexists; split; [reflexivity|]);
    unfold Box.vpackDims, VBox.vpackDims, HBox.vpackDims,
      TexList.vpackDims, HList.vpackDims, VList.vpackDims,
      Rule.vpackDims, HRule.vpackDims, VRule.vpackDims, Kern.vpackDims,
      SubSuperCluster.vpackDims, HList.vpackDims, Rule.vpackDims,
      Box.vpackDims, TexList.vpackDims;
    repeat match goal with
           | |- context [if ?c then _ else _] => destruct c
           end;
    try (split; assumption).
  destruct (Glue_vpackDims_ok g a G Ls Lh) as [st [sh [E [L1 L2]]]].
  rewrite E. eexists. split; [reflexivity|split; assumption].
Qed.

Lemma vpackDims_CharOrAccent (n : Node) (a : dims) :
  isCharOrAccent n = true ->
  vpackDims n a = Panic "Char node in VList"
  \/ vpackDims n a = Panic "Accent node in VList".
Proof.
  destruct n; simpl; try discriminate; intros _; [left|right]; reflexivity.
Qed.

Lemma vpackLoop_fails (children : list Node) (a : dims) :
  existsb isCharOrAccent children = true ->
  isOk (packLoop vpackDims children a) = false.
Proof.
  revert a. induction children as [|n cs IH]; intros a H; simpl in *.
  - discriminate.
  - destruct (isCharOrAccent n) eqn:C.
    + destruct (vpackDims_CharOrAccent n a C) as [E|E]; rewrite E; reflexivity.
    + simpl in H. destruct (vpackDims n a) as [a'|msg]; simpl; [|reflexivity].
      apply IH. exact H.
Qed.

Lemma vpackLoop_message (children : list Node) (a : dims) :
  existsb isCharOrAccent children = true ->
  forallb glueOk children = true -> totalsOk a ->
  packLoop vpackDims children a = Panic "Char node in VList"
  \/ packLoop vpackDims children a = Panic "Accent node in VList".
Proof.
  revert a. induction children as [|n cs IH]; intros a H G T; simpl in *.
  - discriminate.
  - apply andb_true_iff in G. destruct G as [Gn Gcs].
    destruct (isCharOrAccent n) eqn:C.
    + destruct (vpackDims_CharOrAccent n a C) as [E|E]; rewrite E; simpl; auto.
    + simpl in H. destruct (vpackDims_other n a C Gn T) as [a' [E T']].
      rewrite E. simpl. apply IH; assumption.
Qed.

(** C9: a vertical list with a [Char] or an [Accent] among its children
    cannot be packed: [vpack], and with it the constructor [VListOf],
    panics and leaves the list as it was, with the message "Char node in
    VList" or "Accent node in VList" (when the glue children have orders
    within 0..3, so that no index panic comes first); the vertical
    measure of every other node kind returns normally. *)
Theorem vpack_panics_on_Char_or_Accent
        (lst : VList) (height : float) (additional : bool) (l : float) :
  existsb isCharOrAccent (TexList.children (VList.lst lst)) = true ->
  (isOk (snd (vpack lst height additional l)) = false
   /\ fst (vpack lst height additional l) = lst
   /\ isOk (VListOf (TexList.children (VList.lst lst))) = false)
  /\ (forallb glueOk (TexList.children (VList.lst lst)) = true ->
      (snd (vpack lst height additional l) = Panic "Char node in VList"
       \/ snd (vpack lst height additional l) = Panic "Accent node in VList")
      /\ (VListOf (TexList.children (VList.lst lst)) = Panic "Char node in VList"
          \/ VListOf (TexList.children (VList.lst lst)) = Panic "Accent node in VList"))
  /\ (forall (n : Node) (a : dims),
         isCharOrAccent n = false -> glueOk n = true -> totalsOk a ->
         exists a', vpackDims n a = Ok a').
Proof.
  intros H. split; [|split].
  - pose proof (vpackLoop_fails _ startDims H) as F.
    unfold VListOf, vpack. simpl.
    destruct (packLoop vpackDims (TexList.children (VList.lst lst)) startDims);
      [discriminate|]. simpl. auto.
  - intros G.
    pose proof (vpackLoop_message _ startDims H G startDims_totalsOk) as M.
    unfold VListOf, vpack. simpl.
    destruct M as [M|M]; rewrite M; simpl; auto.
  - intros n a C G T. destruct (vpackDims_other n a C G T) as [a' [E _]].
    exists a'. exact E.
Qed.

Lemma vpack_panics_on_Char_or_Accent_witness :
  isOk (snd (vpack (VList.mk (TexList.ListOf
          [NBox (Box.mk 0 1 2 3); NChar (Char.mk 120 0 1 1 0 10 72 true)]))
          0 true infinity)) = false.
Proof.
  exact (proj1 (proj1 (vpack_panics_on_Char_or_Accent
     (VList.mk (TexList.ListOf
          [NBox (Box.mk 0 1 2 3); NChar (Char.mk 120 0 1 1 0 10 72 true)]))
     0 true infinity eq_refl))).
Defined.

(** ** Vertical packing *)

(** What one child does to the running dimensions of [vpack]. *)
Lemma vpackDims_step (n : Node) (a : dims) :
  vOk n = true -> totalsOk a ->
  exists a', vpackDims n a = Ok a'
             /\ totalsOk a'
             /\ dwidth a' = match vwidth n with
                            | Some x => if IsInf x 0 then dwidth a else Max (dwidth a) x
                            | None => dwidth a
                            end
             /\ dheight a' = vadvance n (dheight a) (ddepth a)
             /\ ddepth a' = vdepth n.
Proof.
  intros V [Ls Lh]. unfold vOk in V. apply andb_true_iff in V.
  destruct V as [C G]. apply negb_true_iff in C.
  destruct n; simpl in C; try discriminate; simpl;
    try (eexists; split; [reflexivity|]);
    unfold Box.vpackDims, VBox.vpackDims, HBox.vpackDims,
      TexList.vpackDims, HList.vpackDims, VList.vpackDims,
      Rule.vpackDims, HRule.vpackDims, VRule.vpackDims, Kern.vpackDims,
      SubSuperCluster.vpackDims, HList.vpackDims, Rule.vpackDims,
      Box.vpackDims, TexList.vpackDims, vadvance; simpl;
    try change (IsInf 0 0) with false; cbv iota;
    repeat match goal with
           | |- context [if ?c then _ else _] => destruct c
           end;
    try (split; [split; assumption|repeat split; reflexivity]).
  destruct (Glue_vpackDims_ok g a G Ls Lh) as [st [sh [E [L1 L2]]]].
  rewrite E. eexists. split; [reflexivity|].
  split; [split; assumption|repeat split; reflexivity].
Qed.

Lemma last_cons_default (A : Type) (l : list A) (x d : A) :
  last (x :: l) d = last l x.
Proof.
  revert x d. induction l as [|y l IH]; intros x d; [reflexivity|].
  change (last (x :: y :: l) d) with (last (y :: l) d).
  rewrite (IH y d), (IH y x). reflexivity.
Qed.

Lemma vpackLoop_measures (children : list Node) (a : dims) :
  forallb vOk children = true -> totalsOk a ->
  exists a', packLoop vpackDims children a = Ok a'
    /\ dwidth a' = fold_left (fun w n => match vwidth n with
                                         | Some x => if IsInf x 0 then w else Max w x
                                         | None => w
                                         end) children (dwidth a)
    /\ dheight a' = fold_left (fun h p => vadvance (fst p) h (snd p))
                              (combine children (ddepth a :: map vdepth children))
                              (dheight a)
    /\ ddepth a' = last (map vdepth children) (ddepth a).
Proof.
  revert a. induction children as [|n cs IH]; intros a V T.
  - exists a. simpl. auto.
  - simpl in V. apply andb_true_iff in V. destruct V as [Vn Vcs].
    destruct (vpackDims_step n a Vn T) as [a1 [E1 [T1 [W1 [H1 D1]]]]].
    destruct (IH a1 Vcs T1) as [a' [E' [W' [H' D']]]].
    exists a'. simpl packLoop. rewrite E1. simpl bind.
    split; [exact E'|].
    rewrite W', H', D', W1, H1, D1. simpl map. rewrite last_cons_default.
    repeat split.
Qed.

(** C5: [vpack] takes as width the largest width of the children and as
    natural height the sum, child by child, of the child's own height and
    the depth of the child before it; the depth of the last child is the
    carried depth.  When the carried depth exceeds [l], the excess is
    added to the height total and the depth of the list is [l];
    otherwise the depth is the carried depth. *)
Theorem vpack_dimensions
        (lst : VList) (height : float) (additional : bool) (l : float) :
  forallb vOk (TexList.children (VList.lst lst)) = true ->
  let children := TexList.children (VList.lst lst) in
  let box := TexList.box (VList.lst (fst (vpack lst height additional l))) in
  let d := lastDepth children in
  let x := if (l <? d)%float then (naturalHeight children + (d - l))%float
           else naturalHeight children in
  Box.width box = maxWidth children
  /\ Box.depth box = (if (l <? d)%float then l else d)
  /\ Box.height box = (if additional then (height + x)%float else height).
Proof.
  intros V children box d x.
  destruct (vpackLoop_measures _ startDims V startDims_totalsOk)
    as [a [E [W [H D]]]].
  subst box. unfold vpack. fold children. fold children in E. rewrite E. cbv zeta.
  match goal with
  | |- context [finishPack ?l ?x ?a] =>
      pose proof (finishPack_box l x a) as [B _];
      destruct (finishPack l x a) as [l2 r]
  end.
  simpl in B. simpl fst. simpl VList.lst. rewrite B. simpl.
  fold children in W, H, D.
  change (ddepth startDims) with 0%float in *.
  change (dheight startDims) with 0%float in *.
  change (dwidth startDims) with 0%float in *.
  unfold maxWidth, naturalHeight, lastDepth in *.
  subst x d. rewrite W, H, D. repeat split.
Qed.

Lemma vpack_dimensions_witness :
  Box.width (TexList.box (VList.lst (fst (vpack stackExample 0 true 2)))) = 5%float
  /\ Box.depth (TexList.box (VList.lst (fst (vpack stackExample 0 true 2)))) = 2%float
  /\ Box.height (TexList.box (VList.lst (fst (vpack stackExample 0 true 2)))) = 25%float.
Proof.
  exact (vpack_dimensions stackExample 0 true 2 eq_refl).
Defined.

(** ** Height and depth of a packed horizontal list *)

Lemma fold_left_filter (A B : Type) (f : A -> B -> A) (p : B -> bool)
      (l : list B) (a : A) :
  fold_left f (filter p l) a
  = fold_left (fun a b => if p b then f a b else a) l a.
Proof.
  revert a. induction l as [|b l IH]; intros a; simpl; [reflexivity|].
  destruct (p b); simpl; apply IH.
Qed.

(** What one child does to the running height and depth of [hpack]. *)
Lemma hpackDims_height_depth (n : Node) (a a' : dims) :
  hpackDims n a = Ok a' ->
  dheight a' = (if isCharOrAccent n || negb (infiniteHD n)
                then match hoffer n with
                     | Some (hn, _) => Max (dheight a) hn
                     | None => dheight a
                     end
                else dheight a)
  /\ ddepth a' = (if isCharOrAccent n || negb (infiniteHD n)
                  then match hoffer n with
                       | Some (_, dn) => Max (ddepth a) dn
                       | None => ddepth a
                       end
                  else ddepth a).
Proof.
  destruct n; simpl; intros E;
    try (injection E as <-);
    unfold Box.hpackDims, VBox.hpackDims, HBox.hpackDims, Char.hpackDims,
      Accent.hpackDims, TexList.hpackDims, HList.hpackDims, VList.hpackDims,
      Rule.hpackDims, HRule.hpackDims, VRule.hpackDims, Kern.hpackDims,
      SubSuperCluster.hpackDims, Char.hpackDims, TexList.hpackDims,
      HList.hpackDims, Rule.hpackDims, Box.hpackDims, TexList.hpackDims,
      infiniteHD;
    simpl;
    repeat match goal with
           | |- context [IsInf ?h 0 || IsInf ?d 0] =>
               destruct (IsInf h 0 || IsInf d 0)
           end;
    simpl; try (split; reflexivity).
  unfold Glue.hpackDims in E.
  destruct (addAt (dstretch a) (Glue.stretchOrder g) (Glue.stretch g)); simpl in E;
    [|discriminate].
  destruct (addAt (dshrink a) (Glue.shrinkOrder g) (Glue.shrink g)); simpl in E;
    [|discriminate].
  injection E as <-. split; reflexivity.
Qed.

Lemma hpackLoop_height_depth (children : list Node) (a a' : dims) :
  packLoop hpackDims children a = Ok a' ->
  dheight a' = fold_left (fun h n => match hoffer n with
                                     | Some (hn, _) => Max h hn
                                     | None => h
                                     end) (measuredChildren children) (dheight a)
  /\ ddepth a' = fold_left (fun d n => match hoffer n with
                                       | Some (_, dn) => Max d dn
                                       | None => d
                                       end) (measuredChildren children) (ddepth a).
Proof.
  unfold measuredChildren. rewrite !fold_left_filter.
  revert a. induction children as [|n cs IH]; intros a E; simpl in *.
  - injection E as <-. split; reflexivity.
  - destruct (hpackDims n a) as [a1|msg] eqn:E1; simpl in E; [|discriminate].
    destruct (hpackDims_height_depth n a a1 E1) as [H1 D1].
    destruct (IH a1 E) as [H' D'].
    rewrite H', D', H1, D1. split; reflexivity.
Qed.

(** C6, as the code has it: during [hpack] every child adds its width
    to the natural width, and a child whose own height or depth is
    infinite is left out of the height and depth maxima unless it is a
    [Char] or an [Accent], which are always measured; the height and the
    depth of the packed list are the maxima over the measured children. *)
Theorem hpack_height_depth (lst : HList) (width : float) (additional : bool) :
  forallb glueOk (TexList.children (HList.lst lst)) = true ->
  let children := TexList.children (HList.lst lst) in
  let box := TexList.box (HList.lst (fst (hpack lst width additional))) in
  Box.height box = maxHeightOf (measuredChildren children)
  /\ Box.depth box = maxDepthOf (measuredChildren children)
  /\ Box.width box
     = (if additional then (width + naturalWidth children)%float else width).
Proof.
  intros G children box.
  destruct (hpackLoop_width _ startDims G startDims_totalsOk) as [a [E [_ W]]].
  destruct (hpackLoop_height_depth _ _ _ E) as [H D].
  fold children in E, W, H, D.
  assert (dwidth a = naturalWidth children) as W' by exact W.
  subst box. unfold hpack. fold children. rewrite E. cbv zeta.
  match goal with
  | |- context [finishPack ?l ?x ?a] =>
      pose proof (finishPack_box l x a) as [B _];
      destruct (finishPack l x a) as [l2 r]
  end.
  simpl in B. simpl fst. simpl HList.lst. rewrite B. simpl.
  unfold maxHeightOf, maxDepthOf. rewrite H, D, W'.
  repeat split.
Qed.

Lemma hpack_height_depth_witness :
  Box.height (TexList.box (HList.lst (fst (hpack
     (HList.mk (TexList.ListOf [NBox (Box.mk 0 1 infinity 3); NBox (Box.mk 0 2 5 7)]))
     0 true))))
  = 5%float.
Proof.
  exact (proj1 (hpack_height_depth
     (HList.mk (TexList.ListOf [NBox (Box.mk 0 1 infinity 3); NBox (Box.mk 0 2 5 7)]))
     0 true eq_refl)).
Defined.

(** C6, as stated, fails for a character: a [Char] of infinite height
    is not left out, so the packed height is infinite and not the
    largest height of the children of finite height and depth. *)
Lemma hpack_infinite_Char_counterexample :
  let lst := HList.mk (TexList.ListOf [NChar tallChar; NBox (Box.mk 0 2 5 7)]) in
  infiniteHD (NChar tallChar) = true
  /\ snd (hpack lst 0 true) = Ok tt
  /\ Box.height (TexList.box (HList.lst (fst (hpack lst 0 true)))) = infinity
  /\ maxHeightOf (finiteChildren (TexList.children (HList.lst lst))) = 5%float.
Proof. vm_compute. repeat split; reflexivity. Qed.

(** ** Kern insertion *)

Section KernFacts.
Variable kerning : Node -> Node -> result float.

Lemma kernLoop_splice (elems children : list Node) :
  kernLoop kerning elems children
  = (tail <- spliceKerns kerning elems ;; Ok (children ++ tail)%list).
Proof.
  revert children. induction elems as [|elem rest IH]; intros children.
  - simpl. rewrite app_nil_r. reflexivity.
  - destruct rest as [|next rest'].
    + simpl. change (0 =? 0)%float with true. simpl. reflexivity.
    + change (kernLoop kerning (elem :: next :: rest') children)
        with (dist <- kerning elem next ;;
              kernLoop kerning (next :: rest')
                (if negb (dist =? 0)%float
                 then ((children ++ [elem]) ++ [NKern (NewKern dist)])%list
                 else (children ++ [elem])%list)).
      change (spliceKerns kerning (elem :: next :: rest'))
        with (dist <- kerning elem next ;;
              tail <- spliceKerns kerning (next :: rest') ;;
              Ok (elem :: (if negb (dist =? 0)%float
                           then NKern (NewKern dist) :: tail
                           else tail))).
      destruct (kerning elem next) as [dist|msg]; [|reflexivity].
      unfold bind at 1 3. rewrite IH.
      destruct (spliceKerns kerning (next :: rest')) as [tail|msg];
        [|reflexivity].
      unfold bind.
      destruct (negb (dist =? 0)%float); rewrite <- !app_assoc; reflexivity.
Qed.

Lemma kernWith_splice (lst : HList) :
  kernWith kerning lst
  = (children <- spliceKerns kerning (TexList.children (HList.lst lst)) ;;
     Ok (HList.mk (TexList.withChildren (HList.lst lst) children))).
Proof.
  unfold kernWith. destruct lst as [[box shift children glue]]. simpl.
  destruct children as [|elem rest]; [reflexivity|].
  rewrite kernLoop_splice.
  destruct (spliceKerns kerning (elem :: rest)) as [tail|msg]; reflexivity.
Qed.
End KernFacts.

(** Every [Kerning] of the source returns 0 or is not implemented, so the
    splice of the source inserts nothing. *)
Lemma spliceKerns_Kerning (elems children : list Node) :
  spliceKerns Kerning elems = Ok children -> children = elems.
Proof.
  revert children. induction elems as [|elem rest IH]; intros children E.
  - injection E as <-. reflexivity.
  - destruct rest as [|next rest'].
    + injection E as <-. reflexivity.
    + change (spliceKerns Kerning (elem :: next :: rest'))
        with (dist <- Kerning elem next ;;
              tail <- spliceKerns Kerning (next :: rest') ;;
              Ok (elem :: (if negb (dist =? 0)%float
                           then NKern (NewKern dist) :: tail
                           else tail))) in E.
      destruct (spliceKerns Kerning (next :: rest')) as [tail|msg] eqn:T.
      * rewrite (IH tail eq_refl) in E.
        destruct elem; simpl in E; try discriminate;
          change (0 =? 0)%float with true in E; simpl in E;
          injection E as <-; reflexivity.
      * destruct elem; simpl in E; discriminate.
Qed.

(** C7: constructing an HList with kerning asks, for each adjacent pair
    of children, the kerning of the left child with the right one and
    puts a kern of that width between them exactly when the amount is not
    zero; the list is packed after that, over the spliced children, and
    each kern adds its width to the natural width.  This holds for every
    implementation of the [Kerning] method; with the implementations of
    the source, which return 0 or are not implemented, no kern is
    inserted. *)
Theorem HListOf_kerning (kerning : Node -> Node -> result float)
        (elements : list Node) :
  kernWith kerning (HList.mk (TexList.ListOf elements))
  = (children <- spliceKerns kerning elements ;;
     Ok (HList.mk (TexList.ListOf children)))
  /\ HListOfWith kerning elements true
     = (children <- spliceKerns kerning elements ;;
        HListOfWith kerning children false)
  /\ (forall (k : Kern.t) (a : dims),
         hpackDims (NKern k) a
         = Ok (mkDims (dwidth a + Kern.width k)%float (dheight a) (ddepth a)
                      (dstretch a) (dshrink a)))
  /\ (forall lst,
         HListOfWith kerning elements true = Ok lst ->
         exists children,
           spliceKerns kerning elements = Ok children
           /\ TexList.children (HList.lst lst) = children
           /\ Box.width (TexList.box (HList.lst lst))
              = (0 + naturalWidth children)%float)
  /\ (forall children,
         spliceKerns Kerning elements = Ok children -> children = elements).
Proof.
  assert (kernWith kerning (HList.mk (TexList.ListOf elements))
          = (children <- spliceKerns kerning elements ;;
             Ok (HList.mk (TexList.ListOf children)))) as K.
  { rewrite kernWith_splice. reflexivity. }
  assert (HListOfWith kerning elements true
          = (children <- spliceKerns kerning elements ;;
             HListOfWith kerning children false)) as H.
  { unfold HListOfWith at 1. rewrite K.
    destruct (spliceKerns kerning elements) as [children|msg]; reflexivity. }
  split; [exact K|]. split; [exact H|]. split; [reflexivity|]. split.
  - intros lst E. rewrite H in E.
    destruct (spliceKerns kerning elements) as [children|msg]; [|discriminate].
    exists children. split; [reflexivity|].
    simpl in E. unfold HListOfWith in E. simpl in E.
    destruct (hpack (HList.mk (TexList.ListOf children)) 0 true) as [lst' r] eqn:P.
    destruct r as [u|msg]; [|discriminate]. injection E as <-.
    pose proof (hpack_children (HList.mk (TexList.ListOf children)) 0 true) as C.
    rewrite P in C. simpl in C. split; [exact C|].
    destruct (packLoop hpackDims children startDims) as [a|msg] eqn:L.
    + pose proof (hpack_width_of_loop (HList.mk (TexList.ListOf children)) 0 true a L) as W.
      rewrite P in W. simpl in W. rewrite W.
      rewrite (hpackLoop_width_of_ok _ _ _ L). reflexivity.
    + unfold hpack in P. simpl in P. rewrite L in P. injection P as _ P. discriminate.
  - apply spliceKerns_Kerning.
Qed.


Lemma HListOf_kerning_witness :
  HListOfWith exampleKerning [NChar tallChar; NBox (Box.mk 0 1 2 3)] true
  = HListOfWith exampleKerning
      [NChar tallChar; NKern (NewKern 2); NBox (Box.mk 0 1 2 3)] false.
Proof.
  exact (proj1 (proj2 (HListOf_kerning exampleKerning
                         [NChar tallChar; NBox (Box.mk 0 1 2 3)]))).
Defined.

(** ** Shrink followed by Grow *)

Lemma incr_decr (s : Z) : isInt s -> incr (decr s) = s.
Proof.
  unfold isInt, incr, decr, wrapInt.
  change (2 ^ 63) with 9223372036854775808.
  change (2 ^ 64) with 18446744073709551616.
  intros H. Z.to_euclidean_division_equations. lia.
Qed.

Lemma forEach_Ok (N : Type) (f : N -> N * result unit) (l cs : list N) (u : unit) :
  forEach f l = (cs, Ok u) ->
  cs = map (fun n => fst (f n)) l
  /\ Forall (fun n => snd (f n) = Ok tt) l.
Proof.
  revert cs. induction l as [|n l IH]; intros cs E; simpl in E.
  - injection E as <- _. split; constructor.
  - destruct (f n) as [n' [[]|msg]] eqn:F; [|discriminate].
    destruct (forEach f l) as [rest' r]. injection E as <- ->.
    destruct (IH rest' eq_refl) as [-> A].
    split; [simpl; rewrite F; reflexivity|].
    constructor; [rewrite F; reflexivity|exact A].
Qed.

Lemma forEach_all_Ok (N : Type) (g : N -> N * result unit) (cs : list N) :
  Forall (fun n => snd (g n) = Ok tt) cs ->
  exists cs', forEach g cs = (cs', Ok tt).
Proof.
  induction 1 as [|n cs Hn _ [cs' IH]]; simpl.
  - eexists. reflexivity.
  - destruct (g n) as [n' r]. simpl in Hn. subst r. rewrite IH.
    eexists. reflexivity.
Qed.

(** The children that [Shrink] has scaled can be grown back. *)
Lemma forEach_Shrink_Grow (children cs : list Node) (u : unit) :
  Forall (fun n => snd (Shrink n) = Ok tt -> snd (Grow (fst (Shrink n))) = Ok tt)
         children ->
  forEach Shrink children = (cs, Ok u) ->
  exists cs', forEach Grow cs = (cs', Ok tt).
Proof.
  intros IH E. destruct (forEach_Ok _ _ _ _ _ E) as [-> A].
  apply forEach_all_Ok. rewrite Forall_map.
  rewrite Forall_forall in *. intros n I. apply IH; [exact I|]. apply A. exact I.
Qed.

(** The outcome of [Shrink] and of [Grow] on a list, from the outcome of
    the loop over its children. *)
Lemma TexList_Shrink_Ok (l : List_) :
  snd (TexList.Shrink Shrink l) = Ok tt ->
  exists cs u, forEach Shrink (TexList.children l) = (cs, Ok u).
Proof.
  unfold TexList.Shrink.
  destruct (forEach Shrink (TexList.children l)) as [cs [u|msg]];
    [eauto|discriminate].
Qed.

Lemma TexList_Shrink_Grow (l : List_) :
  Forall (fun n => snd (Shrink n) = Ok tt -> snd (Grow (fst (Shrink n))) = Ok tt)
         (TexList.children l) ->
  isInt (Box.size (TexList.box l)) ->
  decr (Box.size (TexList.box l)) < NUM_SIZE_LEVELS ->
  snd (TexList.Shrink Shrink l) = Ok tt ->
  exists l', TexList.Grow Grow (fst (TexList.Shrink Shrink l)) = (l', Ok tt)
             /\ Box.size (TexList.box l') = Box.size (TexList.box l)
             /\ listDims l' = map shrunkGrown (listDims l).
Proof.
  intros IH I D S. destruct (TexList_Shrink_Ok l S) as [cs [u E]].
  destruct (forEach_Shrink_Grow _ _ _ IH E) as [cs' G].
  unfold TexList.Shrink. rewrite E.
  assert ((Box.size (Box.Shrink (TexList.box l)) <? NUM_SIZE_LEVELS) = true) as L.
  { apply Z.ltb_lt. unfold Box.Shrink.
    destruct (decr (Box.size (TexList.box l)) >=? NUM_SIZE_LEVELS); exact D. }
  rewrite L. unfold TexList.Grow. simpl. rewrite G.
  eexists. split; [reflexivity|].
  unfold Box.Shrink.
  destruct (decr (Box.size (TexList.box l)) >=? NUM_SIZE_LEVELS) eqn:C;
    [apply Z.geb_le in C; lia|].
  simpl. split; [apply incr_decr; exact I|reflexivity].
Qed.

Lemma TexList_Shrink_Grow_Ok (l : List_) :
  Forall (fun n => snd (Shrink n) = Ok tt -> snd (Grow (fst (Shrink n))) = Ok tt)
         (TexList.children l) ->
  snd (TexList.Shrink Shrink l) = Ok tt ->
  snd (TexList.Grow Grow (fst (TexList.Shrink Shrink l))) = Ok tt.
Proof.
  intros IH S. destruct (TexList_Shrink_Ok l S) as [cs [u E]].
  destruct (forEach_Shrink_Grow _ _ _ IH E) as [cs' G].
  unfold TexList.Shrink. rewrite E.
  destruct (Box.size (Box.Shrink (TexList.box l)) <? NUM_SIZE_LEVELS);
    unfold TexList.Grow; simpl; rewrite G; reflexivity.
Qed.

(** A node that could be shrunk can be grown. *)
Lemma Shrink_Grow_Ok (n : Node) :
  snd (Shrink n) = Ok tt -> snd (Grow (fst (Shrink n))) = Ok tt.
Proof.
  induction n using Node_nested_ind; simpl; try reflexivity.
  - discriminate.
  - intros S.
    destruct (TexList.Shrink Shrink l) as [l1 r1] eqn:E1. simpl in S. subst r1.
    pose proof (TexList_Shrink_Grow_Ok l H) as G. rewrite E1 in G.
    simpl in *. destruct (TexList.Grow Grow l1) as [l2 r2]. simpl in *.
    apply G. reflexivity.
  - intros S. unfold HList.Shrink in *.
    destruct (TexList.Shrink Shrink (HList.lst l)) as [l1 r1] eqn:E1.
    simpl in S. subst r1.
    pose proof (TexList_Shrink_Grow_Ok (HList.lst l) H) as G. rewrite E1 in G.
    simpl in *. unfold HList.Grow. simpl.
    destruct (TexList.Grow Grow l1) as [l2 r2]. simpl in *.
    apply G. reflexivity.
  - intros S. unfold VList.Shrink in *.
    destruct (TexList.Shrink Shrink (VList.lst l)) as [l1 r1] eqn:E1.
    simpl in S. subst r1.
    pose proof (TexList_Shrink_Grow_Ok (VList.lst l) H) as G. rewrite E1 in G.
    simpl in *. unfold VList.Grow. simpl.
    destruct (TexList.Grow Grow l1) as [l2 r2]. simpl in *.
    apply G. reflexivity.
  - intros S. unfold SubSuperCluster.Shrink, HList.Shrink in *.
    destruct (TexList.Shrink Shrink (HList.lst (SubSuperCluster.hlist s)))
      as [l1 r1] eqn:E1.
    simpl in S. subst r1.
    pose proof (TexList_Shrink_Grow_Ok (HList.lst (SubSuperCluster.hlist s)) H) as G.
    rewrite E1 in G.
    simpl in *. unfold SubSuperCluster.Grow, HList.Grow. simpl.
    destruct (TexList.Grow Grow l1) as [l2 r2]. simpl in *.
    apply G. reflexivity.
Qed.

(** ** Rounding of the two scalings

    The product of two binary64 numbers, as the specification of the
    primitive floats computes it: the exact product of the mantissas is
    shifted right to 53 bits and rounded to one of its two neighbours. *)

Lemma digits2_pos_size (p : positive) : digits2_pos p = Pos.size p.
Proof. induction p; simpl; congruence. Qed.

Lemma digits2_pos_bounds (p : positive) :
  2 ^ (Zpos (digits2_pos p) - 1) <= Zpos p < 2 ^ Zpos (digits2_pos p).
Proof.
  rewrite digits2_pos_size. split.
  - pose proof (Pos.size_le p) as H.
    assert (Zpos (2 ^ Pos.size p) <= Zpos p~0) as H' by exact H.
    rewrite Pos2Z.inj_pow in H'.
    replace (Zpos (Pos.size p)) with (Zpos (Pos.size p) - 1 + 1) in H' by lia.
    rewrite Z.pow_add_r in H' by lia. lia.
  - pose proof (Pos.size_gt p) as H.
    assert (Zpos p < Zpos (2 ^ Pos.size p)) as H' by exact H.
    rewrite Pos2Z.inj_pow in H'. exact H'.
Qed.

Lemma shr_1_m (mrs : shr_record) : 0 <= shr_m mrs -> shr_m (shr_1 mrs) = shr_m mrs / 2.
Proof.
  destruct mrs as [m r s]. simpl. intros H.
  destruct m as [|p|p]; [reflexivity| |lia].
  destruct p; simpl.
  - apply Z.div_unique with 1; lia.
  - apply Z.div_unique with 0; lia.
  - reflexivity.
Qed.

Lemma iter_shr_1_m (p : positive) (mrs : shr_record) :
  0 <= shr_m mrs ->
  shr_m (iter_pos shr_1 p mrs) = shr_m mrs / 2 ^ Zpos p.
Proof.
  revert mrs. induction p as [p IH|p IH|]; intros mrs H; simpl iter_pos.
  - assert (0 <= shr_m (shr_1 mrs)) as H1
        by (rewrite shr_1_m by exact H; apply Z.div_pos; lia).
    assert (0 <= shr_m (iter_pos shr_1 p (shr_1 mrs))) as H2
        by (rewrite IH by exact H1; apply Z.div_pos; lia).
    rewrite IH by exact H2. rewrite IH by exact H1. rewrite shr_1_m by exact H.
    rewrite !Z.div_div by lia.
    f_equal. change (Zpos p~1) with (2 * Zpos p + 1).
    replace (2 * Zpos p + 1) with (1 + Zpos p + Zpos p) by lia.
    rewrite !Z.pow_add_r by lia. change (2 ^ 1) with 2. lia.
  - assert (0 <= shr_m (iter_pos shr_1 p mrs)) as H2
        by (rewrite IH by exact H; apply Z.div_pos; lia).
    rewrite IH by exact H2. rewrite IH by exact H.
    rewrite !Z.div_div by lia.
    f_equal. change (Zpos p~0) with (2 * Zpos p).
    replace (2 * Zpos p) with (Zpos p + Zpos p) by lia.
    rewrite Z.pow_add_r by lia. reflexivity.
  - rewrite shr_1_m by exact H. reflexivity.
Qed.

Lemma Zdigits2_unique (z k : Z) :
  0 < k -> 2 ^ (k - 1) <= z < 2 ^ k -> Zdigits2 z = k.
Proof.
  intros K [L U].
  assert (0 < z) as Z0 by (pose proof (Z.pow_pos_nonneg 2 (k - 1)); lia).
  destruct z as [|p|p]; try lia. simpl.
  pose proof (digits2_pos_bounds p) as [L' U'].
  set (d := Zpos (digits2_pos p)) in *.
  assert (0 < d) as D by (subst d; lia).
  destruct (Z.lt_trichotomy d k) as [C|[C|C]]; [|exact C|].
  - assert (2 ^ d <= 2 ^ (k - 1)) by (apply Z.pow_le_mono_r; lia). lia.
  - assert (2 ^ k <= 2 ^ (d - 1)) by (apply Z.pow_le_mono_r; lia). lia.
Qed.

Lemma round_nearest_even_cases (q : Z) (l : location) :
  round_nearest_even q l = q \/ round_nearest_even q l = q + 1.
Proof.
  destruct l as [|[]]; simpl; auto. destruct (Z.even q); auto.
Qed.

Lemma shr_m_shr (m : Z) (l : location) (e n : Z) :
  0 <= m -> 0 <= n ->
  shr_m (fst (shr (shr_record_of_loc m l) e n)) = m / 2 ^ n
  /\ snd (shr (shr_record_of_loc m l) e n) = e + n.
Proof.
  intros M N.
  assert (shr_m (shr_record_of_loc m l) = m) as S
      by (destruct l as [|[]]; reflexivity).
  destruct n as [|p|p]; simpl; [| |lia].
  - rewrite S, Z.div_1_r. split; [reflexivity|lia].
  - rewrite iter_shr_1_m by (rewrite S; exact M). rewrite S. split; reflexivity.
Qed.

Lemma round_aux_normal (sx : bool) (P : positive) (ex : Z) :
  let d := Zpos (digits2_pos P) in
  53 <= d -> -1074 <= d + ex - 53 -> d + ex - 53 + 1 <= 971 ->
  exists r,
    (r = Zpos P / 2 ^ (d - 53) \/ r = Zpos P / 2 ^ (d - 53) + 1)
    /\ binary_round_aux prec emax sx (Zpos P) ex loc_Exact
       = if r =? 2 ^ 53
         then S754_finite sx (2 ^ 52)%positive (ex + d - 53 + 1)
         else S754_finite sx (Z.to_pos r) (ex + d - 53).
Proof.
  intros d D L U.
  pose proof (digits2_pos_bounds P) as [PL PU]. fold d in PL, PU.
  unfold binary_round_aux, shr_fexp.
  change (Zdigits2 (Zpos P)) with d. clearbody d.
  assert (fexp prec emax (d + ex) - ex = d - 53) as F1.
  { unfold fexp, emin, prec, emax. lia. }
  rewrite F1.
  destruct (shr_m_shr (Zpos P) loc_Exact ex (d - 53)) as [M1 E1]; [lia|lia|].
  destruct (shr (shr_record_of_loc (Zpos P) loc_Exact) ex (d - 53)) as [mrs' e'].
  cbv beta iota delta [fst snd] in M1, E1. subst e'.
  set (q := Zpos P / 2 ^ (d - 53)) in *.
  assert (2 ^ 52 <= q < 2 ^ 53) as Q.
  { subst q. split.
    - apply Z.div_le_lower_bound; [apply Z.pow_pos_nonneg; lia|].
      rewrite <- Z.pow_add_r by lia. replace (d - 53 + 52) with (d - 1) by lia.
      exact PL.
    - apply Z.div_lt_upper_bound; [apply Z.pow_pos_nonneg; lia|].
      rewrite <- Z.pow_add_r by lia. replace (d - 53 + 53) with d by lia.
      exact PU. }
  rewrite M1.
  set (r := round_nearest_even q (loc_of_shr_record mrs')).
  exists r. split; [apply round_nearest_even_cases|].
  assert (r = q \/ r = q + 1) as R by apply round_nearest_even_cases.
  destruct (r =? 2 ^ 53) eqn:C.
  - apply Z.eqb_eq in C.
    assert (Zdigits2 r = 54) as Dg
        by (apply Zdigits2_unique; [lia|rewrite C; simpl; lia]).
    rewrite Dg.
    assert (fexp prec emax (54 + (ex + (d - 53))) - (ex + (d - 53)) = 1) as F2.
    { unfold fexp, emin, prec, emax. lia. }
    rewrite F2. rewrite C. simpl.
    assert ((ex + (d - 53) + 1 <=? 971) = true) as B
        by (apply Z.leb_le; lia).
    rewrite B. f_equal. lia.
  - apply Z.eqb_neq in C.
    assert (Zdigits2 r = 53) as Dg
        by (apply Zdigits2_unique; [lia|simpl (53 - 1); lia]).
    rewrite Dg.
    assert (fexp prec emax (53 + (ex + (d - 53))) - (ex + (d - 53)) = 0) as F2.
    { unfold fexp, emin, prec, emax. lia. }
    rewrite F2. simpl.
    assert (shr_m (shr_record_of_loc r loc_Exact) = r) as S by reflexivity.
    simpl shr_record_of_loc. simpl shr_m.
    destruct r as [|pr|pr]; [lia| |lia].
    assert ((ex + (d - 53) <=? 971) = true) as B
        by (apply Z.leb_le; lia).
    change (emax - prec) with 971.
    rewrite B. simpl. f_equal. lia.
Qed.

Lemma pow2_52 : 2 ^ 52 = 4503599627370496. Proof. reflexivity. Qed.
Lemma pow2_53 : 2 ^ 53 = 9007199254740992. Proof. reflexivity. Qed.

Lemma SFmul_const (sx : bool) (mx : positive) (ex : Z) (mc : positive) (ec : Z) :
  2 ^ 52 <= Zpos mx < 2 ^ 53 -> 2 ^ 52 <= Zpos mc < 2 ^ 53 ->
  -1074 <= ex + ec + 52 -> ex + ec + 54 <= 971 ->
  exists (m' : positive) (k : Z),
    SFmul prec emax (S754_finite sx mx ex) (S754_finite false mc ec)
    = S754_finite sx m' (ex + ec + k)
    /\ (k = 52 \/ k = 53 \/ k = 54)
    /\ 2 ^ 52 <= Zpos m' < 2 ^ 53
    /\ Z.abs (Zpos m' * 2 ^ k - Zpos mx * Zpos mc) <= 2 ^ k.
Proof.
  intros Mx Mc L U. unfold SFmul. rewrite xorb_false_r.
  set (P := (mx * mc)%positive).
  assert (Zpos P = Zpos mx * Zpos mc) as HP by (subst P; apply Pos2Z.inj_mul).
  assert (2 ^ 104 <= Zpos P < 2 ^ 106) as B.
  { rewrite HP. rewrite pow2_52, pow2_53 in *.
    change (2 ^ 104) with (4503599627370496 * 4503599627370496).
    change (2 ^ 106) with (9007199254740992 * 9007199254740992). nia. }
  pose proof (digits2_pos_bounds P) as [PL PU].
  set (d := Zpos (digits2_pos P)) in *.
  assert (d = 105 \/ d = 106) as Dd.
  { assert (0 < d) by (subst d; lia).
    destruct (Z_lt_le_dec d 105) as [C|C].
    - assert (2 ^ d <= 2 ^ 104) by (apply Z.pow_le_mono_r; lia). lia.
    - destruct (Z_lt_le_dec 106 d) as [C'|C'].
      + assert (2 ^ 106 <= 2 ^ (d - 1)) by (apply Z.pow_le_mono_r; lia). lia.
      + lia. }
  destruct (round_aux_normal sx P (ex + ec)) as [r [R E]];
    fold d; [lia|lia|lia|].
  fold d in R, E. rewrite E. clear E. clearbody d.
  pose proof (Z.div_mod (Zpos P) (2 ^ (d - 53))) as DM.
  pose proof (Z.mod_pos_bound (Zpos P) (2 ^ (d - 53))) as MB.
  rewrite <- HP.
  destruct Dd as [-> | ->].
  - change (2 ^ (105 - 53)) with 4503599627370496 in *.
    change (2 ^ 104) with 20282409603651670423947251286016 in *.
    change (2 ^ 106) with 81129638414606681695789005144064 in *.
    change (2 ^ 105) with 40564819207303340847894502572032 in *.
    rewrite pow2_52, pow2_53 in *.
    destruct (r =? 9007199254740992) eqn:C.
    + apply Z.eqb_eq in C. exists (2 ^ 52)%positive, 53.
      split; [f_equal; lia|]. split; [auto|].
      change (Zpos (2 ^ 52)) with 4503599627370496.
      change (2 ^ 53) with 9007199254740992. lia.
    + apply Z.eqb_neq in C. exists (Z.to_pos r), 52.
      split; [f_equal; lia|]. split; [auto|].
      rewrite Z2Pos.id by lia.
      change (2 ^ 52) with 4503599627370496. lia.
  - change (2 ^ (106 - 53)) with 9007199254740992 in *.
    change (2 ^ 104) with 20282409603651670423947251286016 in *.
    change (2 ^ 106) with 81129638414606681695789005144064 in *.
    change (2 ^ (106 - 1)) with 40564819207303340847894502572032 in *.
    rewrite pow2_52, pow2_53 in *.
    destruct (r =? 9007199254740992) eqn:C.
    + apply Z.eqb_eq in C. exists (2 ^ 52)%positive, 54.
      split; [f_equal; lia|]. split; [auto|].
      change (Zpos (2 ^ 52)) with 4503599627370496.
      change (2 ^ 54) with 18014398509481984. lia.
    + apply Z.eqb_neq in C. exists (Z.to_pos r), 53.
      split; [f_equal; lia|]. split; [auto|].
      rewrite Z2Pos.id by lia.
      change (2 ^ 53) with 9007199254740992. lia.
Qed.

Lemma Prim2SF_SHRINK_FACTOR :
  Prim2SF SHRINK_FACTOR = S754_finite false 6305039478318694 (-53).
Proof. vm_compute. reflexivity. Qed.

Lemma Prim2SF_GROW_FACTOR :
  Prim2SF GROW_FACTOR = S754_finite false 6433713753386423 (-52).
Proof. vm_compute. reflexivity. Qed.

Lemma shrunkGrown_withinTol (v : float) (sx : bool) (mx : positive) (ex : Z) :
  Prim2SF v = S754_finite sx mx ex ->
  2 ^ 52 <= Zpos mx < 2 ^ 53 -> -1073 <= ex <= 969 ->
  withinTol (shrunkGrown v) v = true.
Proof.
  intros V Mx Ex.
  destruct (SFmul_const sx mx ex 6305039478318694 (-53)) as [m1 [k1 [HY [K1 [M1 B1]]]]];
    [exact Mx|rewrite pow2_52, pow2_53; lia|lia|lia|].
  assert (k1 = 52 \/ k1 = 53) as K1'.
  { rewrite pow2_52, pow2_53 in *.
    destruct K1 as [-> | [-> | ->]]; auto.
    exfalso. change (2 ^ 54) with 18014398509481984 in B1. lia. }
  clear K1.
  destruct (SFmul_const sx m1 (ex + -53 + k1) 6433713753386423 (-52))
    as [m2 [k2 [HZ [K2 [M2 B2]]]]];
    [exact M1|rewrite pow2_52, pow2_53; lia|lia|lia|].
  assert (Prim2SF (shrunkGrown v) = S754_finite sx m2 (ex + -53 + k1 + -52 + k2)) as E.
  { unfold shrunkGrown. rewrite mul_spec, mul_spec, V.
    rewrite Prim2SF_SHRINK_FACTOR, Prim2SF_GROW_FACTOR.
    unfold SF64mul. rewrite HY. exact HZ. }
  unfold withinTol. apply orb_true_iff. right.
  unfold finiteValue. rewrite E, V.
  rewrite pow2_52, pow2_53 in *.
  apply Z.leb_le.
  destruct K1' as [-> | ->]; destruct K2 as [-> | [-> | ->]];
    change (2 ^ 52) with 4503599627370496 in *;
    change (2 ^ 53) with 9007199254740992 in *;
    change (2 ^ 54) with 18014398509481984 in *;
    try (exfalso; lia).
  all: match goal with
       | |- context [Z.min ?a ?b] =>
           first [ rewrite (Z.min_l a b) by lia | rewrite (Z.min_r a b) by lia ]
       end.
  all: repeat match goal with
         | |- context [2 ^ (?a - ?b)] =>
             first [ replace (a - b) with 0 by lia
                   | replace (a - b) with 1 by lia
                   | replace (a - b) with 2 by lia ]
         end.
  all: change (2 ^ 0) with 1; change (2 ^ 1) with 2; change (2 ^ 2) with 4;
    change (10 ^ 9) with 1000000000.
  all: destruct sx; lia.
Qed.

Lemma Prim2SF_low : Prim2SF 0x1p-1021%float = S754_finite false (2 ^ 52) (-1073).
Proof. vm_compute. reflexivity. Qed.

Lemma Prim2SF_high : Prim2SF 0x1p1021%float = S754_finite false (2 ^ 52) 969.
Proof. vm_compute. reflexivity. Qed.

Lemma special_withinTol (v : float) :
  match Prim2SF v with S754_finite _ _ _ => False | _ => True end ->
  withinTol (shrunkGrown v) v = true.
Proof.
  intros H. rewrite <- (SF2Prim_Prim2SF v).
  destruct (Prim2SF v) as [[]|[]| |s m e]; try contradiction;
    vm_compute; reflexivity.
Qed.

Lemma roundsWell_withinTol (v : float) :
  roundsWell v = true -> withinTol (shrunkGrown v) v = true.
Proof.
  intros R.
  destruct (Prim2SF v) as [s|s| |s m e] eqn:V;
    try (apply special_withinTol; rewrite V; exact I).
  assert ((0x1p-1021 <=? abs v)%float = true /\ (abs v <=? 0x1p1021)%float = true)
    as [Lo Hi].
  { unfold roundsWell, is_infinity, is_nan in R.
    rewrite !eqb_spec, abs_spec, V in R. simpl SFabs in R.
    change (Prim2SF 0) with (S754_zero false) in R.
    change (Prim2SF infinity) with (S754_infinity false) in R.
    assert (SFeqb (S754_finite s m e) (S754_finite s m e) = true) as Refl.
    { unfold SFeqb, SFcompare. rewrite Z.compare_refl.
      destruct s; rewrite Pos.compare_cont_refl; reflexivity. }
    rewrite Refl in R.
    assert (SFeqb (S754_finite s m e) (S754_zero false) = false) as NZ
        by (destruct s; reflexivity).
    rewrite NZ in R. simpl in R.
    apply andb_true_iff in R. exact R. }
  rewrite leb_spec, abs_spec, V, Prim2SF_low in Lo.
  rewrite leb_spec, abs_spec, V, Prim2SF_high in Hi.
  simpl SFabs in Lo, Hi. unfold SFleb, SFcompare in Lo, Hi.
  assert (-1073 <= e <= 969) as Ex.
  { split.
    - destruct (Z.compare_spec (-1073) e); try lia; discriminate.
    - destruct (Z.compare_spec e 969); try lia; discriminate. }
  pose proof (Prim2SF_valid v) as Val. rewrite V in Val.
  unfold valid_binary, bounded, canonical_mantissa in Val.
  apply andb_true_iff in Val. destruct Val as [Can _].
  apply Z.eqb_eq in Can. unfold fexp, emin, prec, emax in Can.
  pose proof (digits2_pos_bounds m) as Bd.
  assert (Zpos (digits2_pos m) = 53) as D by lia.
  rewrite D in Bd. change (53 - 1) with 52 in Bd.
  exact (shrunkGrown_withinTol v s m e V Bd Ex).
Qed.

Lemma allWithinTol_shrunkGrown (l : list float) :
  forallb roundsWell l = true -> allWithinTol (map shrunkGrown l) l = true.
Proof.
  induction l as [|v l IH]; simpl; [reflexivity|].
  intros H. apply andb_true_iff in H. destruct H as [Hv Hl].
  rewrite (roundsWell_withinTol v Hv), (IH Hl). reflexivity.
Qed.

(** A leaf whose [Shrink] scales: the size test of its [Shrink] fails. *)
Lemma scaling_gate (s : Z) :
  decr s < NUM_SIZE_LEVELS -> (decr s >=? NUM_SIZE_LEVELS) = false.
Proof.
  intros H. destruct (decr s >=? NUM_SIZE_LEVELS) eqn:C; [|reflexivity].
  apply Z.geb_le in C. lia.
Qed.

(** C3, as the code has it: for a node whose size counter, once
    decremented, is below [NUM_SIZE_LEVELS] (so that [Shrink] scales it),
    and that [Shrink] can handle (no accent in it), [Shrink] followed by
    [Grow] returns normally, restores the size counter, and turns each of
    width, height and depth (for a list also the shift and the glue set
    amount) [v] into [v * SHRINK_FACTOR * GROW_FACTOR]; that is within
    the relative tolerance 1e-9 of [v] when [v] is zero, infinite, NaN or
    of magnitude between 2^-1021 and 2^1021. *)
Theorem Shrink_Grow_restores (n : Node) :
  isInt (ownSize n) ->
  decr (ownSize n) < NUM_SIZE_LEVELS ->
  snd (Shrink n) = Ok tt ->
  exists n',
    shrinkGrow n = Ok n'
    /\ ownSize n' = ownSize n
    /\ ownDims n' = map shrunkGrown (ownDims n)
    /\ (forallb roundsWell (ownDims n) = true ->
        allWithinTol (ownDims n') (ownDims n) = true).
Proof.
  intros I D S.
  cut (exists n', shrinkGrow n = Ok n'
                  /\ ownSize n' = ownSize n
                  /\ ownDims n' = map shrunkGrown (ownDims n)).
  { intros [n' [E [Sz Dm]]]. exists n'. repeat split; try assumption.
    intros R. rewrite Dm. apply allWithinTol_shrunkGrown. exact R. }
  unfold shrinkGrow.
  pose proof (Shrink_Grow_Ok n S) as G.
  assert (forall l : List_,
             isInt (Box.size (TexList.box l)) ->
             decr (Box.size (TexList.box l)) < NUM_SIZE_LEVELS ->
             snd (TexList.Shrink Shrink l) = Ok tt ->
             exists l', TexList.Grow Grow (fst (TexList.Shrink Shrink l)) = (l', Ok tt)
                        /\ Box.size (TexList.box l') = Box.size (TexList.box l)
                        /\ listDims l' = map shrunkGrown (listDims l)) as L.
  { intros l Il Dl Sl. apply TexList_Shrink_Grow; try assumption.
    apply Forall_forall. intros c _. apply Shrink_Grow_Ok. }
  destruct n;
    try (simpl in I, D, S |- *; eexists; split; [reflexivity|];
         unfold Box.Shrink, VBox.Shrink, HBox.Shrink, Char.Shrink, Glue.Shrink,
           Kern.Shrink, Rule.Shrink, HRule.Shrink, VRule.Shrink, Rule.Shrink,
           Box.Shrink;
         simpl; rewrite (scaling_gate _ D); simpl;
         split; [apply incr_decr; exact I|reflexivity]).
  - discriminate.
  - change (Shrink (NList l))
      with (let (l', r) := TexList.Shrink Shrink l in (NList l', r)) in *.
    destruct (TexList.Shrink Shrink l) as [l1 r1] eqn:E1. simpl in S. subst r1.
    destruct (L l I D) as [l' [E [Sz Dm]]]; [rewrite E1; reflexivity|].
    rewrite E1 in E. simpl in E.
    change (Grow (NList l1))
      with (let (l', r) := TexList.Grow Grow l1 in (NList l', r)).
    rewrite E. exists (NList l'). split; [reflexivity|]. split; assumption.
  - change (Shrink (NHList l))
      with (let (l', r) := HList.Shrink Shrink l in (NHList l', r)) in *.
    unfold HList.Shrink in *.
    destruct (TexList.Shrink Shrink (HList.lst l)) as [l1 r1] eqn:E1.
    simpl in S. subst r1.
    destruct (L (HList.lst l) I D) as [l' [E [Sz Dm]]]; [rewrite E1; reflexivity|].
    rewrite E1 in E. simpl in E.
    change (Grow (NHList (HList.mk l1)))
      with (let (l', r) := HList.Grow Grow (HList.mk l1) in (NHList l', r)).
    unfold HList.Grow. simpl HList.lst. rewrite E.
    exists (NHList (HList.mk l')). split; [reflexivity|]. split; assumption.
  - change (Shrink (NVList l))
      with (let (l', r) := VList.Shrink Shrink l in (NVList l', r)) in *.
    unfold VList.Shrink in *.
    destruct (TexList.Shrink Shrink (VList.lst l)) as [l1 r1] eqn:E1.
    simpl in S. subst r1.
    destruct (L (VList.lst l) I D) as [l' [E [Sz Dm]]]; [rewrite E1; reflexivity|].
    rewrite E1 in E. simpl in E.
    change (Grow (NVList (VList.mk l1)))
      with (let (l', r) := VList.Grow Grow (VList.mk l1) in (NVList l', r)).
    unfold VList.Grow. simpl VList.lst. rewrite E.
    exists (NVList (VList.mk l')). split; [reflexivity|]. split; assumption.
  - change (Shrink (NSubSuperCluster s))
      with (let (s', r) := SubSuperCluster.Shrink Shrink s in
            (NSubSuperCluster s', r)) in *.
    unfold SubSuperCluster.Shrink, HList.Shrink in *.
    destruct (TexList.Shrink Shrink (HList.lst (SubSuperCluster.hlist s)))
      as [l1 r1] eqn:E1.
    simpl in S. subst r1.
    destruct (L (HList.lst (SubSuperCluster.hlist s)) I D) as [l' [E [Sz Dm]]];
      [rewrite E1; reflexivity|].
    rewrite E1 in E. simpl in E.
    change (Grow (NSubSuperCluster (SubSuperCluster.mk (HList.mk l1))))
      with (let (s', r) := SubSuperCluster.Grow Grow
                             (SubSuperCluster.mk (HList.mk l1)) in
            (NSubSuperCluster s', r)).
    unfold SubSuperCluster.Grow, HList.Grow. simpl HList.lst.
    simpl SubSuperCluster.hlist. simpl HList.lst. rewrite E.
    exists (NSubSuperCluster (SubSuperCluster.mk (HList.mk l'))).
    split; [reflexivity|]. split; assumption.
Qed.

Lemma Shrink_Grow_restores_witness :
  exists n',
    shrinkGrow (NHList scaledExample) = Ok n'
    /\ ownSize n' = 0
    /\ ownDims n' = map shrunkGrown [3; 1; 2; 0.5; 1]%float
    /\ allWithinTol (ownDims n') [3; 1; 2; 0.5; 1]%float = true.
Proof.
  destruct (Shrink_Grow_restores (NHList scaledExample)) as [n' [E [Sz [Dm T]]]].
  - unfold isInt. simpl. lia.
  - vm_compute. reflexivity.
  - vm_compute. reflexivity.
  - exists n'. repeat split; try assumption. apply T. vm_compute. reflexivity.
Defined.

(** C3, as stated, fails where [Shrink] no longer scales: a box at size
    level 7 keeps its dimensions when shrunk and is scaled by
    [GROW_FACTOR] when grown, which is not within 1e-9 of the dimensions
    before.  It also fails for the smallest subnormal numbers, which the
    two roundings do not bring back: a kern of width 1e-323 (twice the
    smallest positive float) comes back with width 5e-324. *)
Lemma Shrink_Grow_saturated_counterexample :
  (let n := NBox (Box.mk 7 1 1 1) in
   exists n',
     shrinkGrow n = Ok n'
     /\ ownSize n' = 7
     /\ ownDims n' = [GROW_FACTOR; GROW_FACTOR; GROW_FACTOR]
     /\ allWithinTol (ownDims n') (ownDims n) = false)
  /\ (let n := NKern (NewKern 0x1p-1073) in
      exists n',
        shrinkGrow n = Ok n'
        /\ ownSize n' = 0
        /\ ownDims n' = [0x1p-1074%float]
        /\ allWithinTol (ownDims n') (ownDims n) = false).
Proof.
  split.
  - eexists. split; [vm_compute; reflexivity|].
    vm_compute. repeat split; reflexivity.
  - eexists. split; [vm_compute; reflexivity|].
    vm_compute. repeat split; reflexivity.
Qed.

(** ** Size levels: what one Shrink and one Grow do *)

Lemma TexList_Grow_Ok (l : List_) :
  snd (TexList.Grow Grow l) = Ok tt ->
  exists cs u, forEach Grow (TexList.children l) = (cs, Ok u).
Proof.
  unfold TexList.Grow.
  destruct (forEach Grow (TexList.children l)) as [cs [u|msg]];
    [eauto|discriminate].
Qed.

Lemma TexList_Shrink_effect (l : List_) :
  snd (TexList.Shrink Shrink l) = Ok tt ->
  Box.size (TexList.box (fst (TexList.Shrink Shrink l)))
  = decr (Box.size (TexList.box l))
  /\ listDims (fst (TexList.Shrink Shrink l))
     = (if decr (Box.size (TexList.box l)) <? NUM_SIZE_LEVELS
        then map (fun v => (v * SHRINK_FACTOR)%float) (listDims l)
        else listDims l).
Proof.
  intros S. destruct (TexList_Shrink_Ok l S) as [cs [u E]].
  unfold TexList.Shrink. rewrite E. unfold Box.Shrink.
  destruct (decr (Box.size (TexList.box l)) >=? NUM_SIZE_LEVELS) eqn:C; simpl.
  - apply Z.geb_le in C.
    destruct (decr (Box.size (TexList.box l)) <? NUM_SIZE_LEVELS) eqn:C';
      [apply Z.ltb_lt in C'; lia|]. simpl. split; reflexivity.
  - destruct (decr (Box.size (TexList.box l)) <? NUM_SIZE_LEVELS) eqn:C'.
    + simpl. split; reflexivity.
    + apply Z.ltb_ge in C'. rewrite Z.geb_leb in C. apply Z.leb_gt in C. lia.
Qed.

Lemma TexList_Grow_effect (l : List_) :
  snd (TexList.Grow Grow l) = Ok tt ->
  Box.size (TexList.box (fst (TexList.Grow Grow l)))
  = incr (Box.size (TexList.box l))
  /\ listDims (fst (TexList.Grow Grow l))
     = map (fun v => (v * GROW_FACTOR)%float) (listDims l).
Proof.
  intros G. destruct (TexList_Grow_Ok l G) as [cs [u E]].
  unfold TexList.Grow. rewrite E. simpl. split; reflexivity.
Qed.

(** Every [Shrink] that returns takes one off the size counter; it
    multiplies the dimensions by [SHRINK_FACTOR] when the new counter is
    below [NUM_SIZE_LEVELS] and leaves them alone otherwise. *)
Lemma Shrink_effect (n : Node) :
  snd (Shrink n) = Ok tt ->
  ownSize (fst (Shrink n)) = decr (ownSize n)
  /\ ownDims (fst (Shrink n))
     = (if decr (ownSize n) <? NUM_SIZE_LEVELS
        then map (fun v => (v * SHRINK_FACTOR)%float) (ownDims n)
        else ownDims n).
Proof.
  assert (forall s, (s >=? NUM_SIZE_LEVELS) = negb (s <? NUM_SIZE_LEVELS)) as GE.
  { intros s. rewrite Z.geb_leb, Z.ltb_antisym, negb_involutive. reflexivity. }
  destruct n; intros S;
    try (simpl;
         unfold Box.Shrink, VBox.Shrink, HBox.Shrink, Char.Shrink, Glue.Shrink,
           Kern.Shrink, Rule.Shrink, HRule.Shrink, VRule.Shrink, Rule.Shrink,
           Box.Shrink;
         simpl; rewrite GE;
         match goal with
         | |- context [?s <? NUM_SIZE_LEVELS] => destruct (s <? NUM_SIZE_LEVELS)
         end; simpl; split; reflexivity).
  - change (Shrink (NList l))
      with (let (l', r) := TexList.Shrink Shrink l in (NList l', r)) in *.
    pose proof (TexList_Shrink_effect l) as T.
    destruct (TexList.Shrink Shrink l) as [l1 r1]. simpl in *. apply T. exact S.
  - change (Shrink (NHList l))
      with (let (l', r) := HList.Shrink Shrink l in (NHList l', r)) in *.
    unfold HList.Shrink in *.
    pose proof (TexList_Shrink_effect (HList.lst l)) as T.
    destruct (TexList.Shrink Shrink (HList.lst l)) as [l1 r1]. simpl in *.
    apply T. exact S.
  - change (Shrink (NVList l))
      with (let (l', r) := VList.Shrink Shrink l in (NVList l', r)) in *.
    unfold VList.Shrink in *.
    pose proof (TexList_Shrink_effect (VList.lst l)) as T.
    destruct (TexList.Shrink Shrink (VList.lst l)) as [l1 r1]. simpl in *.
    apply T. exact S.
  - change (Shrink (NSubSuperCluster s))
      with (let (s', r) := SubSuperCluster.Shrink Shrink s in
            (NSubSuperCluster s', r)) in *.
    unfold SubSuperCluster.Shrink, HList.Shrink in *.
    pose proof (TexList_Shrink_effect (HList.lst (SubSuperCluster.hlist s))) as T.
    destruct (TexList.Shrink Shrink (HList.lst (SubSuperCluster.hlist s)))
      as [l1 r1]. simpl in *.
    apply T. exact S.
Qed.

Lemma Shrink_effect_witness :
  ownSize (fst (Shrink (NHList scaledExample))) = -1
  /\ ownDims (fst (Shrink (NHList scaledExample)))
     = map (fun v => (v * SHRINK_FACTOR)%float) [3; 1; 2; 0.5; 1]%float.
Proof.
  exact (Shrink_effect (NHList scaledExample) eq_refl).
Defined.

(** Every [Grow] that returns adds one to the size counter and multiplies
    the dimensions by [GROW_FACTOR], at every size level. *)
Lemma Grow_effect (n : Node) :
  snd (Grow n) = Ok tt ->
  ownSize (fst (Grow n)) = incr (ownSize n)
  /\ ownDims (fst (Grow n))
     = map (fun v => (v * GROW_FACTOR)%float) (ownDims n).
Proof.
  destruct n; intros G; try (simpl; split; reflexivity).
  - change (Grow (NList l))
      with (let (l', r) := TexList.Grow Grow l in (NList l', r)) in *.
    pose proof (TexList_Grow_effect l) as T.
    destruct (TexList.Grow Grow l) as [l1 r1]. simpl in *. apply T. exact G.
  - change (Grow (NHList l))
      with (let (l', r) := HList.Grow Grow l in (NHList l', r)) in *.
    unfold HList.Grow in *.
    pose proof (TexList_Grow_effect (HList.lst l)) as T.
    destruct (TexList.Grow Grow (HList.lst l)) as [l1 r1]. simpl in *.
    apply T. exact G.
  - change (Grow (NVList l))
      with (let (l', r) := VList.Grow Grow l in (NVList l', r)) in *.
    unfold VList.Grow in *.
    pose proof (TexList_Grow_effect (VList.lst l)) as T.
    destruct (TexList.Grow Grow (VList.lst l)) as [l1 r1]. simpl in *.
    apply T. exact G.
  - change (Grow (NSubSuperCluster s))
      with (let (s', r) := SubSuperCluster.Grow Grow s in
            (NSubSuperCluster s', r)) in *.
    unfold SubSuperCluster.Grow, HList.Grow in *.
    pose proof (TexList_Grow_effect (HList.lst (SubSuperCluster.hlist s))) as T.
    destruct (TexList.Grow Grow (HList.lst (SubSuperCluster.hlist s)))
      as [l1 r1]. simpl in *.
    apply T. exact G.
Qed.

Lemma Grow_effect_witness :
  ownSize (fst (Grow (NHList scaledExample))) = 1
  /\ ownDims (fst (Grow (NHList scaledExample)))
     = map (fun v => (v * GROW_FACTOR)%float) [3; 1; 2; 0.5; 1]%float.
Proof.
  exact (Grow_effect (NHList scaledExample) eq_refl).
Defined.

(** C4 (the code departs from the claim): a box at size level
    [NUM_SIZE_LEVELS] is still scaled by a further [Shrink], and so is a
    fresh kern (size 0) at its seventh [Shrink]: the counter moves away
    from the level at which scaling stops, and only a node that was grown
    past that level is left alone. *)
Theorem Shrink_at_size_level_scales :
  Box.Shrink (Box.mk NUM_SIZE_LEVELS 1 1 1)
  = Box.mk 5 SHRINK_FACTOR SHRINK_FACTOR SHRINK_FACTOR
  /\ (let k6 := Nat.iter 6 Kern.Shrink (NewKern 1) in
      let k7 := Kern.Shrink k6 in
      Kern.size k6 = -6 /\ Kern.size k7 = -7
      /\ Kern.width k7 = (Kern.width k6 * SHRINK_FACTOR)%float
      /\ (Kern.width k7 <? Kern.width k6)%float = true)
  /\ Box.Shrink (Box.mk 7 1 1 1) = Box.mk 6 1 1 1.
Proof. vm_compute. repeat split; reflexivity. Qed.

(** ** The outcomes of [HListOf] and [VListOf] *)

Lemma SFeqb_finite_refl (s : bool) (m : positive) (e : Z) :
  SFeqb (S754_finite s m e) (S754_finite s m e) = true.
Proof.
  unfold SFeqb, SFcompare. rewrite Z.compare_refl.
  destruct s; rewrite Pos.compare_cont_refl; reflexivity.
Qed.

Lemma is_finite_finite (x : float) (s : bool) (m : positive) (e : Z) :
  Prim2SF x = S754_finite s m e -> is_finite x = true.
Proof.
  intros V. unfold is_finite, is_nan, is_infinity.
  rewrite !eqb_spec, abs_spec, V. simpl SFabs.
  rewrite SFeqb_finite_refl.
  change (Prim2SF infinity) with (S754_infinity false). reflexivity.
Qed.

(** Adding a float to 0 and taking it off again leaves 0 exactly when the
    float is finite. *)
Lemma zero_add_sub_eqb (x : float) :
  ((0 + x - x) =? 0)%float = is_finite x.
Proof.
  destruct (Prim2SF x) as [s|s| |s m e] eqn:V.
  - rewrite <- (SF2Prim_Prim2SF x), V. destruct s; vm_compute; reflexivity.
  - rewrite <- (SF2Prim_Prim2SF x), V. destruct s; vm_compute; reflexivity.
  - rewrite <- (SF2Prim_Prim2SF x), V. vm_compute; reflexivity.
  - rewrite (is_finite_finite x s m e V).
    assert ((0 + x)%float = x) as A.
    { apply Prim2SF_inj. rewrite add_spec, V. reflexivity. }
    rewrite A, eqb_spec, sub_spec, V.
    unfold SF64sub, SFsub. rewrite Z.sub_diag. reflexivity.
Qed.

(** Nothing exceeds an infinite depth limit. *)
Lemma infinity_ltb (d : float) : (infinity <? d)%float = false.
Proof.
  rewrite ltb_spec. change (Prim2SF infinity) with (S754_infinity false).
  destruct (Prim2SF d) as [s|[]| |s m e]; reflexivity.
Qed.

(** Adding 0 on the right before adding to 0 on the left changes nothing. *)
Lemma zero_add_add_zero (x : float) : (0 + (x + 0))%float = (0 + x)%float.
Proof.
  destruct (Prim2SF x) as [s|s| |s m e] eqn:V.
  - rewrite <- (SF2Prim_Prim2SF x), V. destruct s; vm_compute; reflexivity.
  - rewrite <- (SF2Prim_Prim2SF x), V. destruct s; vm_compute; reflexivity.
  - rewrite <- (SF2Prim_Prim2SF x), V. vm_compute; reflexivity.
  - assert ((x + 0)%float = x) as A.
    { apply Prim2SF_inj. rewrite add_spec, V. reflexivity. }
    rewrite A. reflexivity.
Qed.

Lemma is_finite_add_zero (x : float) : is_finite (x + 0)%float = is_finite x.
Proof.
  destruct (Prim2SF x) as [s|s| |s m e] eqn:V.
  - rewrite <- (SF2Prim_Prim2SF x), V. destruct s; vm_compute; reflexivity.
  - rewrite <- (SF2Prim_Prim2SF x), V. destruct s; vm_compute; reflexivity.
  - rewrite <- (SF2Prim_Prim2SF x), V. vm_compute; reflexivity.
  - assert ((x + 0)%float = x) as A.
    { apply Prim2SF_inj. rewrite add_spec, V. reflexivity. }
    rewrite A. reflexivity.
Qed.

Lemma HListOf_finite (elements : list Node) :
  forallb glueOk elements = true ->
  HListOf elements false
  = if is_finite (naturalWidth elements)
    then Ok (packedHList elements)
    else Panic "FIXME".
Proof.
  intros G.
  destruct (hpackLoop_width elements startDims G startDims_totalsOk)
    as [a [E [_ W]]].
  destruct (hpackLoop_height_depth _ _ _ E) as [H D].
  assert (dwidth a = naturalWidth elements) as W' by exact W.
  unfold HListOf, HListOfWith, hpack. simpl. rewrite E. cbv zeta.
  unfold finishPack. rewrite W', zero_add_sub_eqb.
  destruct (is_finite (naturalWidth elements)).
  - simpl. unfold packedHList, maxHeightOf, maxDepthOf.
    rewrite H, D. reflexivity.
  - unfold TexList.setGlue.
    destruct (0 <? 0 + naturalWidth elements - naturalWidth elements)%float;
      reflexivity.
Qed.

Lemma VListOf_finite (elements : list Node) :
  forallb vOk elements = true ->
  VListOf elements
  = if is_finite (naturalHeight elements)
    then Ok (packedVList elements)
    else Panic "FIXME".
Proof.
  intros V.
  destruct (vpackLoop_measures elements startDims V startDims_totalsOk)
    as [a [E [W [H D]]]].
  unfold VListOf, vpack. simpl. rewrite E. cbv zeta.
  rewrite infinity_ltb.
  assert (dheight a = naturalHeight elements) as H' by exact H.
  unfold finishPack. rewrite H', zero_add_sub_eqb.
  destruct (is_finite (naturalHeight elements)).
  - simpl. unfold packedVList. rewrite D, W. reflexivity.
  - unfold TexList.setGlue.
    destruct (0 <? 0 + naturalHeight elements - naturalHeight elements)%float;
      reflexivity.
Qed.

Lemma addAtNat_out (s : list float) (i : nat) (v : float) :
  (List.length s <= i)%nat -> addAtNat s i v = None.
Proof.
  revert i. induction s as [|a s IH]; intros i L; simpl in *; [reflexivity|].
  destruct i as [|i]; [lia|]. rewrite IH by lia. reflexivity.
Qed.

Lemma addAt_out (s : list float) (i : Z) (v : float) :
  List.length s = 4%nat -> orderOk i = false ->
  addAt s i v = Panic "index out of range".
Proof.
  intros L H. unfold addAt. destruct (i <? 0) eqn:N; [reflexivity|].
  apply Z.ltb_ge in N. unfold orderOk in H.
  apply andb_false_iff in H. destruct H as [H|H].
  - apply Z.leb_gt in H. lia.
  - apply Z.ltb_ge in H. rewrite addAtNat_out; [reflexivity|]. rewrite L. lia.
Qed.

Lemma Glue_hpackDims_out (g : Glue.t) (a : dims) :
  glueOk (NGlue g) = false -> totalsOk a ->
  Glue.hpackDims g a = Panic "index out of range".
Proof.
  simpl. intros H [Ls Lh]. unfold Glue.hpackDims.
  destruct (orderOk (Glue.stretchOrder g)) eqn:O1.
  - simpl in H.
    destruct (addAt_ok (dstretch a) _ (Glue.stretch g) Ls O1) as [st [E1 L1]].
    rewrite E1. simpl. rewrite addAt_out by assumption. reflexivity.
  - rewrite addAt_out by assumption. reflexivity.
Qed.

Lemma hpackLoop_out (children : list Node) (a : dims) :
  forallb glueOk children = false -> totalsOk a ->
  packLoop hpackDims children a = Panic "index out of range".
Proof.
  revert a. induction children as [|n cs IH]; intros a G T; simpl in *.
  - discriminate.
  - destruct (glueOk n) eqn:Gn.
    + destruct (hpackDims_width n a Gn T) as [a1 [E1 [T1 _]]].
      rewrite E1. simpl. apply IH; assumption.
    + destruct n; try discriminate. simpl.
      rewrite Glue_hpackDims_out by assumption. reflexivity.
Qed.

(** [HListOf] without kerning, for every list of elements. *)
Lemma HListOf_total (elements : list Node) :
  HListOf elements false
  = if forallb glueOk elements
    then if is_finite (naturalWidth elements)
         then Ok (packedHList elements)
         else Panic "FIXME"
    else Panic "index out of range".
Proof.
  destruct (forallb glueOk elements) eqn:G.
  - apply HListOf_finite. exact G.
  - unfold HListOf, HListOfWith, hpack. simpl.
    rewrite (hpackLoop_out elements startDims G startDims_totalsOk).
    reflexivity.
Qed.

(** The splice with the [Kerning] of the source. *)
Lemma spliceKerns_source (elements : list Node) :
  spliceKerns Kerning elements
  = if kernable elements then Ok elements else Panic "not implemented".
Proof.
  unfold kernable.
  induction elements as [|elem rest IH]; [reflexivity|].
  destruct rest as [|next rest']; [reflexivity|].
  change (spliceKerns Kerning (elem :: next :: rest'))
    with (dist <- Kerning elem next ;;
          tail <- spliceKerns Kerning (next :: rest') ;;
          Ok (elem :: (if negb (dist =? 0)%float
                       then NKern (NewKern dist) :: tail
                       else tail))).
  change (removelast (elem :: next :: rest'))
    with (elem :: removelast (next :: rest')).
  rewrite IH. clear IH.
  set (k := forallb (fun n => negb (isCharOrAccent n))
                    (removelast (next :: rest'))).
  change (forallb (fun n => negb (isCharOrAccent n))
                  (elem :: removelast (next :: rest')))
    with (negb (isCharOrAccent elem) && k).
  clearbody k.
  destruct (isCharOrAccent elem) eqn:C.
  - destruct elem; try discriminate; reflexivity.
  - assert (Kerning elem next = Ok 0%float) as K
        by (destruct elem; try discriminate; reflexivity).
    rewrite K. destruct k; reflexivity.
Qed.

(** [HListOf] with kerning: the kerning of the source cannot be asked of
    a character, and is 0 elsewhere. *)
Lemma HListOf_kern_source (elements : list Node) :
  HListOf elements true
  = if kernable elements then HListOf elements false
    else Panic "not implemented".
Proof.
  unfold HListOf, HListOfWith. rewrite kernWith_splice. simpl.
  rewrite spliceKerns_source.
  destruct (kernable elements); reflexivity.
Qed.

(** [HListOf] on every list of elements.  With kerning it panics with
    "not implemented" when an element other than the last is a character
    or an accent; otherwise it panics with "index out of range" when a
    glue has an order outside 0..3, and with "FIXME" (from [setGlue])
    when the natural width is infinite or NaN; otherwise it returns the
    elements unchanged in a box of their natural width, of the greatest
    height and of the greatest depth.  With the kerning of the source no
    kern is ever inserted. *)
Theorem HListOf_outcome (elements : list Node) (doKern : bool) :
  HListOf elements doKern
  = if doKern && negb (kernable elements) then Panic "not implemented"
    else if negb (forallb glueOk elements) then Panic "index out of range"
    else if negb (is_finite (naturalWidth elements)) then Panic "FIXME"
    else Ok (packedHList elements).
Proof.
  destruct doKern; simpl andb.
  - rewrite HListOf_kern_source, HListOf_total.
    destruct (kernable elements); simpl; [|reflexivity].
    destruct (forallb glueOk elements); simpl; [|reflexivity].
    destruct (is_finite (naturalWidth elements)); reflexivity.
  - rewrite HListOf_total.
    destruct (forallb glueOk elements); simpl; [|reflexivity].
    destruct (is_finite (naturalWidth elements)); reflexivity.
Qed.

Lemma Glue_vpackDims_out (g : Glue.t) (a : dims) :
  glueOk (NGlue g) = false -> totalsOk a ->
  Glue.vpackDims g a = Panic "index out of range".
Proof.
  simpl. intros H [Ls Lh]. unfold Glue.vpackDims.
  destruct (orderOk (Glue.stretchOrder g)) eqn:O1.
  - simpl in H.
    destruct (addAt_ok (dstretch a) _ (Glue.stretch g) Ls O1) as [st [E1 L1]].
    rewrite E1. simpl. rewrite addAt_out by assumption. reflexivity.
  - rewrite addAt_out by assumption. reflexivity.
Qed.

Lemma vpackPanic_None (n : Node) : vpackPanic n = None -> vOk n = true.
Proof.
  unfold vOk. destruct n; simpl; try reflexivity; try discriminate.
  destruct (orderOk (Glue.stretchOrder g) && orderOk (Glue.shrinkOrder g));
    [reflexivity|discriminate].
Qed.

Lemma vpackPanic_Some (n : Node) (a : dims) (msg : string) :
  vpackPanic n = Some msg -> totalsOk a -> vpackDims n a = Panic msg.
Proof.
  destruct n; simpl; try discriminate.
  - intros E _. injection E as <-. reflexivity.
  - intros E _. injection E as <-. reflexivity.
  - intros E T.
    destruct (orderOk (Glue.stretchOrder g) && orderOk (Glue.shrinkOrder g)) eqn:G;
      [discriminate|].
    injection E as <-. apply Glue_vpackDims_out; assumption.
Qed.

Lemma vpackLoop_firstPanic (children : list Node) (a : dims) (msg : string) :
  firstSome vpackPanic children = Some msg -> totalsOk a ->
  packLoop vpackDims children a = Panic msg.
Proof.
  revert a. induction children as [|n cs IH]; intros a F T; simpl in *.
  - discriminate.
  - destruct (vpackPanic n) as [m|] eqn:P.
    + injection F as <-. rewrite (vpackPanic_Some n a m P T). reflexivity.
    + destruct (vpackDims_step n a (vpackPanic_None n P) T) as [a1 [E1 [T1 _]]].
      rewrite E1. simpl. apply IH; assumption.
Qed.

Lemma firstSome_None_vOk (children : list Node) :
  firstSome vpackPanic children = None -> forallb vOk children = true.
Proof.
  induction children as [|n cs IH]; simpl; [reflexivity|].
  destruct (vpackPanic n) eqn:P; [discriminate|].
  intros F. rewrite (vpackPanic_None n P), (IH F). reflexivity.
Qed.

(** [VListOf] on every list of elements.  It panics with the message of
    the first element that cannot be stacked (a character, an accent, or
    a glue with an order outside 0..3), and with "FIXME" (from [setGlue])
    when the natural height is infinite or NaN; otherwise it returns the
    elements in a box of their natural height, of the depth of the last
    element and of the greatest width. *)
Theorem VListOf_outcome (elements : list Node) :
  VListOf elements
  = match firstSome vpackPanic elements with
    | Some msg => Panic msg
    | None => if negb (is_finite (naturalHeight elements)) then Panic "FIXME"
              else Ok (packedVList elements)
    end.
Proof.
  destruct (firstSome vpackPanic elements) as [msg|] eqn:F.
  - unfold VListOf, vpack. simpl.
    rewrite (vpackLoop_firstPanic elements startDims msg F startDims_totalsOk).
    reflexivity.
  - rewrite (VListOf_finite elements (firstSome_None_vOk elements F)).
    destruct (is_finite (naturalHeight elements)); reflexivity.
Qed.

(** ** Centering *)

Lemma centered_glueOk (elements : list Node) :
  forallb glueOk (centered elements) = forallb glueOk elements.
Proof.
  unfold centered. simpl. rewrite forallb_app. simpl.
  rewrite andb_true_r. reflexivity.
Qed.

Lemma centered_naturalWidth (elements : list Node) :
  naturalWidth (centered elements) = (naturalWidth elements + 0)%float.
Proof.
  unfold naturalWidth, centered. simpl fold_left.
  change (0 + Glue.width ssGlue)%float with 0%float.
  rewrite fold_left_app. reflexivity.
Qed.

Lemma centered_measured (elements : list Node) :
  maxHeightOf (measuredChildren (centered elements))
  = maxHeightOf (measuredChildren elements)
  /\ maxDepthOf (measuredChildren (centered elements))
     = maxDepthOf (measuredChildren elements).
Proof.
  unfold maxHeightOf, maxDepthOf, measuredChildren, centered.
  rewrite !fold_left_filter. simpl fold_left.
  rewrite !fold_left_app. simpl. split; reflexivity.
Qed.

(** [HCentered] gives the box and the outcome of [HListOf] without
    kerning over the elements alone: the glue before and the glue after
    add no width, height or depth, and are the only change to the
    children. *)
Theorem HCentered_box (elements : list Node) :
  HCentered elements
  = match HListOf elements false with
    | Ok l => Ok (HList.mk (TexList.withChildren (HList.lst l) (centered elements)))
    | Panic msg => Panic msg
    end.
Proof.
  unfold HCentered. fold (centered elements).
  rewrite !HListOf_total, centered_glueOk.
  destruct (forallb glueOk elements); [|reflexivity].
  rewrite centered_naturalWidth, is_finite_add_zero.
  destruct (is_finite (naturalWidth elements)); [|reflexivity].
  unfold packedHList. destruct (centered_measured elements) as [-> ->].
  rewrite centered_naturalWidth, zero_add_add_zero. reflexivity.
Qed.

Lemma centered_vpackPanic (elements : list Node) :
  firstSome vpackPanic (centered elements) = firstSome vpackPanic elements.
Proof.
  unfold centered. simpl.
  induction elements as [|n cs IH]; simpl; [reflexivity|].
  destruct (vpackPanic n); [reflexivity|exact IH].
Qed.

Lemma naturalHeight_snoc (elements : list Node) (x : Node) (d0 h0 : float) :
  fold_left (fun h p => vadvance (fst p) h (snd p))
            (combine (elements ++ [x]) (d0 :: map vdepth (elements ++ [x]))) h0
  = vadvance x
      (fold_left (fun h p => vadvance (fst p) h (snd p))
                 (combine elements (d0 :: map vdepth elements)) h0)
      (last (map vdepth elements) d0).
Proof.
  revert d0 h0. induction elements as [|n cs IH]; intros d0 h0.
  - reflexivity.
  - simpl app. simpl map. simpl combine. simpl fold_left.
    rewrite IH. rewrite last_cons_default. reflexivity.
Qed.

Lemma centered_naturalHeight (elements : list Node) :
  naturalHeight (centered elements)
  = (naturalHeight elements + lastDepth elements + 0)%float.
Proof.
  unfold naturalHeight, lastDepth, centered.
  simpl map. simpl combine. simpl fold_left.
  change (vadvance (NGlue ssGlue) 0 0) with 0%float.
  change (vdepth (NGlue ssGlue)) with 0%float.
  rewrite naturalHeight_snoc. reflexivity.
Qed.

Lemma centered_lastDepth (elements : list Node) :
  lastDepth (centered elements) = 0%float.
Proof.
  unfold lastDepth, centered. simpl map. rewrite last_cons_default.
  rewrite map_app. simpl map. rewrite last_last. reflexivity.
Qed.

Lemma centered_maxWidth (elements : list Node) :
  maxWidth (centered elements) = maxWidth elements.
Proof.
  unfold maxWidth, centered. simpl fold_left. rewrite fold_left_app. reflexivity.
Qed.

(** [VCentered] on every list of elements: it panics where [VListOf]
    over the elements alone finds an element that cannot be stacked;
    otherwise the glue after the elements takes the depth of the last
    element into the height, so that the list has the natural height plus
    that depth as its height, depth 0, the greatest width, and the
    elements between the two glues as children. *)
Theorem VCentered_box (elements : list Node) :
  VCentered elements
  = match firstSome vpackPanic elements with
    | Some msg => Panic msg
    | None =>
        let h := (naturalHeight elements + lastDepth elements + 0)%float in
        if negb (is_finite h) then Panic "FIXME"
        else Ok (VList.mk (TexList.mk (Box.mk 0 (maxWidth elements) (0 + h)%float 0%float)
                                      0%float (centered elements)
                                      (TexList.mkGlue 0%float 0 0 0%float)))
    end.
Proof.
  unfold VCentered. fold (centered elements).
  destruct (firstSome vpackPanic elements) as [msg|] eqn:F.
  - unfold VListOf, vpack. simpl TexList.children.
    rewrite <- centered_vpackPanic in F.
    rewrite (vpackLoop_firstPanic _ startDims msg F startDims_totalsOk).
    reflexivity.
  - rewrite <- centered_vpackPanic in F.
    rewrite (VListOf_finite _ (firstSome_None_vOk _ F)).
    rewrite centered_naturalHeight. cbv zeta.
    destruct (is_finite (naturalHeight elements + lastDepth elements + 0)%float);
      [|reflexivity].
    unfold packedVList.
    rewrite centered_naturalHeight, centered_lastDepth, centered_maxWidth.
    reflexivity.
Qed.

(** ** Packing twice *)

Lemma finishPack_twice (l : List_) (x : float) (a : dims) :
  finishPack (fst (finishPack l x a)) x a = finishPack l x a.
Proof.
  unfold finishPack, TexList.setGlue.
  destruct (x =? 0)%float; [reflexivity|].
  destruct (0 <? x)%float; reflexivity.
Qed.

Lemma withBox_same (l : List_) (b : Box.t) :
  TexList.box l = b ->
  TexList.withBox l (Box.mk (Box.size (TexList.box l)) (Box.width b)
                            (Box.height b) (Box.depth b)) = l.
Proof.
  intros <-. destruct l as [[sz w h d] s c g]. reflexivity.
Qed.

Lemma hpack_twice (lst : HList) (width : float) (additional : bool) :
  hpack (fst (hpack lst width additional)) width additional
  = hpack lst width additional.
Proof.
  destruct (packLoop hpackDims (TexList.children (HList.lst lst)) startDims)
    as [a|msg] eqn:E.
  - unfold hpack at 2 3. rewrite E. cbv zeta.
    set (w := if additional then (width + dwidth a)%float else width).
    set (l1 := TexList.withBox (HList.lst lst)
                 (Box.mk (Box.size (TexList.box (HList.lst lst))) w
                         (dheight a) (ddepth a))).
    set (x := (w - dwidth a)%float).
    pose proof (finishPack_twice l1 x a) as T.
    pose proof (finishPack_box l1 x a) as [B C].
    destruct (finishPack l1 x a) as [l2 r] eqn:F.
    simpl fst in *. unfold hpack. simpl HList.lst.
    rewrite C. subst l1. simpl TexList.children. rewrite E. cbv zeta.
    fold w. fold x.
    pose proof (withBox_same l2 _ B) as S. simpl in S. rewrite S.
    rewrite T. reflexivity.
  - unfold hpack. rewrite E. simpl. rewrite E. reflexivity.
Qed.

Lemma vpack_twice (lst : VList) (height : float) (additional : bool) (l : float) :
  vpack (fst (vpack lst height additional l)) height additional l
  = vpack lst height additional l.
Proof.
  destruct (packLoop vpackDims (TexList.children (VList.lst lst)) startDims)
    as [a|msg] eqn:E.
  - unfold vpack at 2 3. rewrite E. cbv zeta.
    set (x0 := if (l <? ddepth a)%float
               then (dheight a + (ddepth a - l))%float else dheight a).
    set (dp := if (l <? ddepth a)%float then l else ddepth a).
    set (h := if additional then (height + x0)%float else height).
    set (l1 := TexList.withBox (VList.lst lst)
                 (Box.mk (Box.size (TexList.box (VList.lst lst))) (dwidth a) h dp)).
    set (x := (h - x0)%float).
    pose proof (finishPack_twice l1 x a) as T.
    pose proof (finishPack_box l1 x a) as [B C].
    destruct (finishPack l1 x a) as [l2 r] eqn:F.
    simpl fst in *. unfold vpack. simpl VList.lst.
    rewrite C. subst l1. simpl TexList.children. rewrite E. cbv zeta.
    fold x0. fold dp. fold h. fold x.
    pose proof (withBox_same l2 _ B) as S. simpl in S. rewrite S.
    rewrite T. reflexivity.
  - unfold vpack. rewrite E. simpl. rewrite E. reflexivity.
Qed.

(** Packing a list that [hpack] or [vpack] has just packed, with the
    same arguments, changes nothing: the outcome (return or panic) and
    the list are the same as after the first packing. *)
Theorem pack_idempotent :
  (forall (lst : HList) (width : float) (additional : bool),
      hpack (fst (hpack lst width additional)) width additional
      = hpack lst width additional)
  /\ (forall (lst : VList) (height : float) (additional : bool) (l : float),
         vpack (fst (vpack lst height additional l)) height additional l
         = vpack lst height additional l).
Proof. split; [exact hpack_twice|exact vpack_twice]. Qed.

(** ** What packing leaves alone *)

Lemma finishPack_frame (l : List_) (x : float) (a : dims) :
  packFrame (fst (finishPack l x a)) = packFrame l.
Proof.
  unfold finishPack, TexList.setGlue.
  destruct (x =? 0)%float; [reflexivity|].
  destruct (0 <? x)%float; reflexivity.
Qed.

(** [hpack] and [vpack] write the width, the height and the depth of the
    box and the sign, order and ratio of the glue setting, and nothing
    else: the children, the shift, the size counter and the glue set
    amount are as before, whether the packing returns or panics. *)
Theorem pack_frame (l : List_) (size : float) (additional : bool) (limit : float) :
  packFrame (HList.lst (fst (hpack (HList.mk l) size additional))) = packFrame l
  /\ packFrame (VList.lst (fst (vpack (VList.mk l) size additional limit)))
     = packFrame l.
Proof.
  split.
  - unfold hpack. simpl HList.lst.
    destruct (packLoop hpackDims (TexList.children l) startDims) as [a|msg];
      [|reflexivity].
    cbv zeta.
    match goal with
    | |- context [finishPack ?l1 ?x ?a] =>
        pose proof (finishPack_frame l1 x a) as F;
        destruct (finishPack l1 x a) as [l2 r]
    end.
    simpl in *. exact F.
  - unfold vpack. simpl VList.lst.
    destruct (packLoop vpackDims (TexList.children l) startDims) as [a|msg];
      [|reflexivity].
    cbv zeta.
    match goal with
    | |- context [finishPack ?l1 ?x ?a] =>
        pose proof (finishPack_frame l1 x a) as F;
        destruct (finishPack l1 x a) as [l2 r]
    end.
    simpl in *. exact F.
Qed.

(** ** Scaling and accents *)

Lemma forEach_outcome (f : Node -> Node * result unit) (l : list Node) :
  Forall (fun n => snd (f n) = scalingOutcome n) l ->
  snd (forEach f l)
  = if existsb hasAccent l then Panic "not implemented" else Ok tt.
Proof.
  induction 1 as [|n l Hn _ IH]; simpl; [reflexivity|].
  unfold scalingOutcome in Hn.
  destruct (f n) as [n' r]. simpl in Hn. subst r.
  destruct (hasAccent n); simpl; [reflexivity|].
  destruct (forEach f l) as [rest' r']. simpl in *. exact IH.
Qed.

Lemma TexList_Shrink_outcome (l : List_) :
  snd (TexList.Shrink Shrink l) = snd (forEach Shrink (TexList.children l)).
Proof.
  unfold TexList.Shrink.
  destruct (forEach Shrink (TexList.children l)) as [cs [[]|msg]]; simpl;
    [|reflexivity].
  destruct (Box.size (Box.Shrink (TexList.box l)) <? NUM_SIZE_LEVELS); reflexivity.
Qed.

Lemma TexList_Grow_outcome (l : List_) :
  snd (TexList.Grow Grow l) = snd (forEach Grow (TexList.children l)).
Proof.
  unfold TexList.Grow.
  destruct (forEach Grow (TexList.children l)) as [cs [[]|msg]]; reflexivity.
Qed.

Lemma Shrink_outcome (n : Node) : snd (Shrink n) = scalingOutcome n.
Proof.
  induction n using Node_nested_ind; try reflexivity.
  - change (Shrink (NList l))
      with (let (l', r) := TexList.Shrink Shrink l in (NList l', r)).
    pose proof (TexList_Shrink_outcome l) as T.
    destruct (TexList.Shrink Shrink l) as [l1 r1]. simpl in *.
    rewrite T. apply forEach_outcome. exact H.
  - change (Shrink (NHList l))
      with (let (l', r) := HList.Shrink Shrink l in (NHList l', r)).
    unfold HList.Shrink.
    pose proof (TexList_Shrink_outcome (HList.lst l)) as T.
    destruct (TexList.Shrink Shrink (HList.lst l)) as [l1 r1]. simpl in *.
    rewrite T. apply forEach_outcome. exact H.
  - change (Shrink (NVList l))
      with (let (l', r) := VList.Shrink Shrink l in (NVList l', r)).
    unfold VList.Shrink.
    pose proof (TexList_Shrink_outcome (VList.lst l)) as T.
    destruct (TexList.Shrink Shrink (VList.lst l)) as [l1 r1]. simpl in *.
    rewrite T. apply forEach_outcome. exact H.
  - change (Shrink (NSubSuperCluster s))
      with (let (s', r) := SubSuperCluster.Shrink Shrink s in
            (NSubSuperCluster s', r)).
    unfold SubSuperCluster.Shrink, HList.Shrink.
    pose proof (TexList_Shrink_outcome (HList.lst (SubSuperCluster.hlist s))) as T.
    destruct (TexList.Shrink Shrink (HList.lst (SubSuperCluster.hlist s)))
      as [l1 r1]. simpl in *.
    rewrite T. apply forEach_outcome. exact H.
Qed.

Lemma Grow_outcome (n : Node) : snd (Grow n) = scalingOutcome n.
Proof.
  induction n using Node_nested_ind; try reflexivity.
  - change (Grow (NList l))
      with (let (l', r) := TexList.Grow Grow l in (NList l', r)).
    pose proof (TexList_Grow_outcome l) as T.
    destruct (TexList.Grow Grow l) as [l1 r1]. simpl in *.
    rewrite T. apply forEach_outcome. exact H.
  - change (Grow (NHList l))
      with (let (l', r) := HList.Grow Grow l in (NHList l', r)).
    unfold HList.Grow.
    pose proof (TexList_Grow_outcome (HList.lst l)) as T.
    destruct (TexList.Grow Grow (HList.lst l)) as [l1 r1]. simpl in *.
    rewrite T. apply forEach_outcome. exact H.
  - change (Grow (NVList l))
      with (let (l', r) := VList.Grow Grow l in (NVList l', r)).
    unfold VList.Grow.
    pose proof (TexList_Grow_outcome (VList.lst l)) as T.
    destruct (TexList.Grow Grow (VList.lst l)) as [l1 r1]. simpl in *.
    rewrite T. apply forEach_outcome. exact H.
  - change (Grow (NSubSuperCluster s))
      with (let (s', r) := SubSuperCluster.Grow Grow s in
            (NSubSuperCluster s', r)).
    unfold SubSuperCluster.Grow, HList.Grow.
    pose proof (TexList_Grow_outcome (HList.lst (SubSuperCluster.hlist s))) as T.
    destruct (TexList.Grow Grow (HList.lst (SubSuperCluster.hlist s)))
      as [l1 r1]. simpl in *.
    rewrite T. apply forEach_outcome. exact H.
Qed.

(** [Shrink] and [Grow] panic with "not implemented" exactly on the
    nodes that hold an accent, at any depth of nested lists, and return
    on every other node. *)
Theorem scaling_panics_on_Accent (n : Node) :
  snd (Shrink n) = (if hasAccent n then Panic "not implemented" else Ok tt)
  /\ snd (Grow n) = (if hasAccent n then Panic "not implemented" else Ok tt).
Proof. split; [apply Shrink_outcome|apply Grow_outcome]. Qed.

(** ** Scaling keeps a list measurable *)

Lemma forEach_preserves (A : Type) (p : Node -> A)
      (f : Node -> Node * result unit) (l : list Node) :
  (forall n, p (fst (f n)) = p n) ->
  map p (fst (forEach f l)) = map p l.
Proof.
  intros P. induction l as [|n l IH]; simpl; [reflexivity|].
  pose proof (P n) as Pn. destruct (f n) as [n' [[]|msg]]; simpl in *.
  - destruct (forEach f l) as [rest' r]. simpl in *. rewrite Pn, IH. reflexivity.
  - rewrite Pn. reflexivity.
Qed.

Lemma Shrink_vpackPanic (n : Node) :
  vpackPanic (fst (Shrink n)) = vpackPanic n
  /\ glueOk (fst (Shrink n)) = glueOk n.
Proof.
  destruct n; try (split; reflexivity).
  - change (Shrink (NList l))
      with (let (l', r) := TexList.Shrink Shrink l in (NList l', r)).
    destruct (TexList.Shrink Shrink l). split; reflexivity.
  - change (Shrink (NHList l))
      with (let (l', r) := HList.Shrink Shrink l in (NHList l', r)).
    destruct (HList.Shrink Shrink l). split; reflexivity.
  - change (Shrink (NVList l))
      with (let (l', r) := VList.Shrink Shrink l in (NVList l', r)).
    destruct (VList.Shrink Shrink l). split; reflexivity.
  - simpl. unfold Glue.Shrink.
    destruct (decr (Glue.size g) >=? NUM_SIZE_LEVELS); split; reflexivity.
  - change (Shrink (NSubSuperCluster s))
      with (let (s', r) := SubSuperCluster.Shrink Shrink s in
            (NSubSuperCluster s', r)).
    destruct (SubSuperCluster.Shrink Shrink s). split; reflexivity.
Qed.

Lemma Grow_vpackPanic (n : Node) :
  vpackPanic (fst (Grow n)) = vpackPanic n
  /\ glueOk (fst (Grow n)) = glueOk n.
Proof.
  destruct n; try (split; reflexivity).
  - change (Grow (NList l))
      with (let (l', r) := TexList.Grow Grow l in (NList l', r)).
    destruct (TexList.Grow Grow l). split; reflexivity.
  - change (Grow (NHList l))
      with (let (l', r) := HList.Grow Grow l in (NHList l', r)).
    destruct (HList.Grow Grow l). split; reflexivity.
  - change (Grow (NVList l))
      with (let (l', r) := VList.Grow Grow l in (NVList l', r)).
    destruct (VList.Grow Grow l). split; reflexivity.
  - change (Grow (NSubSuperCluster s))
      with (let (s', r) := SubSuperCluster.Grow Grow s in
            (NSubSuperCluster s', r)).
    destruct (SubSuperCluster.Grow Grow s). split; reflexivity.
Qed.

Lemma hpackLoop_isOk (children : list Node) :
  isOk (packLoop hpackDims children startDims) = forallb glueOk children.
Proof.
  destruct (forallb glueOk children) eqn:G.
  - destruct (hpackLoop_width _ startDims G startDims_totalsOk) as [a [E _]].
    rewrite E. reflexivity.
  - rewrite (hpackLoop_out _ startDims G startDims_totalsOk). reflexivity.
Qed.

Lemma vpackLoop_isOk (children : list Node) :
  isOk (packLoop vpackDims children startDims)
  = match firstSome vpackPanic children with Some _ => false | None => true end.
Proof.
  destruct (firstSome vpackPanic children) as [msg|] eqn:F.
  - rewrite (vpackLoop_firstPanic _ startDims msg F startDims_totalsOk).
    reflexivity.
  - destruct (vpackLoop_measures _ startDims (firstSome_None_vOk _ F)
                startDims_totalsOk) as [a [E _]].
    rewrite E. reflexivity.
Qed.

Lemma firstSome_map (A B : Type) (p : A -> option B) (l l' : list A) :
  map p l' = map p l -> firstSome p l' = firstSome p l.
Proof.
  revert l'. induction l as [|a l IH]; intros [|a' l'] M; simpl in *;
    try discriminate; [reflexivity|].
  injection M as Ma Ml. rewrite Ma, (IH _ Ml). reflexivity.
Qed.

Lemma forallb_map (A : Type) (p : A -> bool) (l l' : list A) :
  map p l' = map p l -> forallb p l' = forallb p l.
Proof.
  revert l'. induction l as [|a l IH]; intros [|a' l'] M; simpl in *;
    try discriminate; [reflexivity|].
  injection M as Ma Ml. rewrite Ma, (IH _ Ml). reflexivity.
Qed.

Lemma TexList_Shrink_children (lst : List_) :
  TexList.children (fst (TexList.Shrink Shrink lst))
  = fst (forEach Shrink (TexList.children lst)).
Proof.
  unfold TexList.Shrink.
  destruct (forEach Shrink (TexList.children lst)) as [cs [[]|msg]];
    [|reflexivity].
  cbv zeta.
  destruct (Box.size (Box.Shrink (TexList.box lst)) <? NUM_SIZE_LEVELS);
    reflexivity.
Qed.

Lemma TexList_Grow_children (lst : List_) :
  TexList.children (fst (TexList.Grow Grow lst))
  = fst (forEach Grow (TexList.children lst)).
Proof.
  unfold TexList.Grow.
  destruct (forEach Grow (TexList.children lst)) as [cs [[]|msg]]; reflexivity.
Qed.

(** The measuring loops of [hpack] and [vpack] panic on the kinds of the
    children and on the orders of their glue only; [Shrink] and [Grow]
    change neither, also when they stop half way on a panic.  So the
    children of a list can be measured after a scaling exactly when they
    could before it. *)
Theorem scaling_keeps_measurable (lst : List_) :
  let shrunk := TexList.children (fst (TexList.Shrink Shrink lst)) in
  let grown := TexList.children (fst (TexList.Grow Grow lst)) in
  let children := TexList.children lst in
  isOk (packLoop hpackDims shrunk startDims)
  = isOk (packLoop hpackDims children startDims)
  /\ isOk (packLoop vpackDims shrunk startDims)
     = isOk (packLoop vpackDims children startDims)
  /\ isOk (packLoop hpackDims grown startDims)
     = isOk (packLoop hpackDims children startDims)
  /\ isOk (packLoop vpackDims grown startDims)
     = isOk (packLoop vpackDims children startDims).
Proof.
  cbv zeta. rewrite TexList_Shrink_children, TexList_Grow_children.
  rewrite !hpackLoop_isOk, !vpackLoop_isOk.
  repeat split.
  - apply forallb_map. apply (forEach_preserves bool glueOk Shrink).
    intros n. apply Shrink_vpackPanic.
  - apply f_equal with (f := fun o : option string =>
                               match o with Some _ => false | None => true end).
    apply firstSome_map. apply (forEach_preserves _ vpackPanic Shrink).
    intros n. apply Shrink_vpackPanic.
  - apply forallb_map. apply (forEach_preserves bool glueOk Grow).
    intros n. apply Grow_vpackPanic.
  - apply f_equal with (f := fun o : option string =>
                               match o with Some _ => false | None => true end).
    apply firstSome_map. apply (forEach_preserves _ vpackPanic Grow).
    intros n. apply Grow_vpackPanic.
Qed.

(** ** Grow followed by Shrink *)

Lemma decr_incr (s : Z) : isInt s -> decr (incr s) = s.
Proof.
  unfold isInt, incr, decr, wrapInt.
  change (2 ^ 63) with 9223372036854775808.
  change (2 ^ 64) with 18446744073709551616.
  intros H. Z.to_euclidean_division_equations. lia.
Qed.

Lemma grownShrunk_withinTol (v : float) (sx : bool) (mx : positive) (ex : Z) :
  Prim2SF v = S754_finite sx mx ex ->
  2 ^ 52 <= Zpos mx < 2 ^ 53 -> -1073 <= ex <= 969 ->
  withinTol (grownShrunk v) v = true.
Proof.
  intros V Mx Ex.
  destruct (SFmul_const sx mx ex 6433713753386423 (-52)) as [m1 [k1 [HY [K1 [M1 B1]]]]];
    [exact Mx|rewrite pow2_52, pow2_53; lia|lia|lia|].
  assert (k1 = 52 \/ k1 = 53) as K1'.
  { rewrite pow2_52, pow2_53 in *.
    destruct K1 as [-> | [-> | ->]]; auto.
    exfalso. change (2 ^ 54) with 18014398509481984 in B1. lia. }
  clear K1.
  destruct (SFmul_const sx m1 (ex + -52 + k1) 6305039478318694 (-53))
    as [m2 [k2 [HZ [K2 [M2 B2]]]]];
    [exact M1|rewrite pow2_52, pow2_53; lia|lia|lia|].
  assert (Prim2SF (grownShrunk v) = S754_finite sx m2 (ex + -52 + k1 + -53 + k2)) as E.
  { unfold grownShrunk. rewrite mul_spec, mul_spec, V.
    rewrite Prim2SF_SHRINK_FACTOR, Prim2SF_GROW_FACTOR.
    unfold SF64mul. rewrite HY. exact HZ. }
  unfold withinTol. apply orb_true_iff. right.
  unfold finiteValue. rewrite E, V.
  rewrite pow2_52, pow2_53 in *.
  apply Z.leb_le.
  destruct K1' as [-> | ->]; destruct K2 as [-> | [-> | ->]];
    change (2 ^ 52) with 4503599627370496 in *;
    change (2 ^ 53) with 9007199254740992 in *;
    change (2 ^ 54) with 18014398509481984 in *;
    try (exfalso; lia).
  all: match goal with
       | |- context [Z.min ?a ?b] =>
           first [ rewrite (Z.min_l a b) by lia | rewrite (Z.min_r a b) by lia ]
       end.
  all: repeat match goal with
         | |- context [2 ^ (?a - ?b)] =>
             first [ replace (a - b) with 0 by lia
                   | replace (a - b) with 1 by lia
                   | replace (a - b) with 2 by lia ]
         end.
  all: change (2 ^ 0) with 1; change (2 ^ 1) with 2; change (2 ^ 2) with 4;
    change (10 ^ 9) with 1000000000.
  all: destruct sx; lia.
Qed.

(** A float that [roundsWell] accepts and that is not special is a normal
    number whose exponent leaves room for the two roundings. *)
Lemma roundsWell_finite (v : float) (s : bool) (m : positive) (e : Z) :
  roundsWell v = true -> Prim2SF v = S754_finite s m e ->
  2 ^ 52 <= Zpos m < 2 ^ 53 /\ -1073 <= e <= 969.
Proof.
  intros R V.
  assert ((0x1p-1021 <=? abs v)%float = true /\ (abs v <=? 0x1p1021)%float = true)
    as [Lo Hi].
  { unfold roundsWell, is_infinity, is_nan in R.
    rewrite !eqb_spec, abs_spec, V in R. simpl SFabs in R.
    change (Prim2SF 0) with (S754_zero false) in R.
    change (Prim2SF infinity) with (S754_infinity false) in R.
    assert (SFeqb (S754_finite s m e) (S754_finite s m e) = true) as Refl.
    { unfold SFeqb, SFcompare. rewrite Z.compare_refl.
      destruct s; rewrite Pos.compare_cont_refl; reflexivity. }
    rewrite Refl in R.
    assert (SFeqb (S754_finite s m e) (S754_zero false) = false) as NZ
        by (destruct s; reflexivity).
    rewrite NZ in R. simpl in R.
    apply andb_true_iff in R. exact R. }
  rewrite leb_spec, abs_spec, V, Prim2SF_low in Lo.
  rewrite leb_spec, abs_spec, V, Prim2SF_high in Hi.
  simpl SFabs in Lo, Hi. unfold SFleb, SFcompare in Lo, Hi.
  assert (-1073 <= e <= 969) as Ex.
  { split.
    - destruct (Z.compare_spec (-1073) e); try lia; discriminate.
    - destruct (Z.compare_spec e 969); try lia; discriminate. }
  pose proof (Prim2SF_valid v) as Val. rewrite V in Val.
  unfold valid_binary, bounded, canonical_mantissa in Val.
  apply andb_true_iff in Val. destruct Val as [Can _].
  apply Z.eqb_eq in Can. unfold fexp, emin, prec, emax in Can.
  pose proof (digits2_pos_bounds m) as Bd.
  assert (Zpos (digits2_pos m) = 53) as D by lia.
  rewrite D in Bd. change (53 - 1) with 52 in Bd.
  split; [exact Bd|exact Ex].
Qed.

Lemma roundsWell_grownShrunk (v : float) :
  roundsWell v = true -> withinTol (grownShrunk v) v = true.
Proof.
  intros R.
  destruct (Prim2SF v) as [s|s| |s m e] eqn:V.
  4: { destruct (roundsWell_finite v s m e R V) as [Bd Ex].
       exact (grownShrunk_withinTol v s m e V Bd Ex). }
  all: rewrite <- (SF2Prim_Prim2SF v), V; try destruct s; vm_compute;
    reflexivity.
Qed.

Lemma allWithinTol_grownShrunk (l : list float) :
  forallb roundsWell l = true -> allWithinTol (map grownShrunk l) l = true.
Proof.
  induction l as [|v l IH]; simpl; [reflexivity|].
  intros H. apply andb_true_iff in H. destruct H as [Hv Hl].
  rewrite (roundsWell_grownShrunk v Hv), (IH Hl). reflexivity.
Qed.

(** The children that [Grow] has scaled can be shrunk back. *)
Lemma forEach_Grow_Shrink (children cs : list Node) (u : unit) :
  Forall (fun n => snd (Grow n) = Ok tt -> snd (Shrink (fst (Grow n))) = Ok tt)
         children ->
  forEach Grow children = (cs, Ok u) ->
  exists cs', forEach Shrink cs = (cs', Ok tt).
Proof.
  intros IH E. destruct (forEach_Ok _ _ _ _ _ E) as [-> A].
  apply forEach_all_Ok. rewrite Forall_map.
  rewrite Forall_forall in *. intros n I. apply IH; [exact I|]. apply A. exact I.
Qed.

Lemma TexList_Grow_Shrink (l : List_) :
  Forall (fun n => snd (Grow n) = Ok tt -> snd (Shrink (fst (Grow n))) = Ok tt)
         (TexList.children l) ->
  isInt (Box.size (TexList.box l)) ->
  Box.size (TexList.box l) < NUM_SIZE_LEVELS ->
  snd (TexList.Grow Grow l) = Ok tt ->
  exists l', TexList.Shrink Shrink (fst (TexList.Grow Grow l)) = (l', Ok tt)
             /\ Box.size (TexList.box l') = Box.size (TexList.box l)
             /\ listDims l' = map grownShrunk (listDims l).
Proof.
  intros IH I D S. destruct (TexList_Grow_Ok l S) as [cs [u E]].
  destruct (forEach_Grow_Shrink _ _ _ IH E) as [cs' G].
  unfold TexList.Grow. rewrite E.
  unfold TexList.Shrink. simpl. rewrite G.
  unfold Box.Shrink, Box.Grow. simpl. rewrite (decr_incr _ I).
  assert ((Box.size (TexList.box l) >=? NUM_SIZE_LEVELS) = false) as C.
  { destruct (Box.size (TexList.box l) >=? NUM_SIZE_LEVELS) eqn:C; [|reflexivity].
    apply Z.geb_le in C. lia. }
  rewrite C. simpl.
  assert ((Box.size (TexList.box l) <? NUM_SIZE_LEVELS) = true) as L
      by (apply Z.ltb_lt; exact D).
  rewrite L. eexists. split; [reflexivity|]. split; reflexivity.
Qed.

Lemma TexList_Grow_Shrink_Ok (l : List_) :
  Forall (fun n => snd (Grow n) = Ok tt -> snd (Shrink (fst (Grow n))) = Ok tt)
         (TexList.children l) ->
  snd (TexList.Grow Grow l) = Ok tt ->
  snd (TexList.Shrink Shrink (fst (TexList.Grow Grow l))) = Ok tt.
Proof.
  intros IH S. destruct (TexList_Grow_Ok l S) as [cs [u E]].
  destruct (forEach_Grow_Shrink _ _ _ IH E) as [cs' G].
  unfold TexList.Grow. rewrite E.
  unfold TexList.Shrink. simpl. rewrite G.
  destruct (Box.size (Box.Shrink (Box.Grow (TexList.box l))) <? NUM_SIZE_LEVELS);
    reflexivity.
Qed.

(** A node that could be grown can be shrunk. *)
Lemma Grow_Shrink_Ok (n : Node) :
  snd (Grow n) = Ok tt -> snd (Shrink (fst (Grow n))) = Ok tt.
Proof.
  induction n using Node_nested_ind; simpl; try reflexivity.
  - discriminate.
  - intros S.
    destruct (TexList.Grow Grow l) as [l1 r1] eqn:E1. simpl in S. subst r1.
    pose proof (TexList_Grow_Shrink_Ok l H) as G. rewrite E1 in G.
    simpl in *. destruct (TexList.Shrink Shrink l1) as [l2 r2]. simpl in *.
    apply G. reflexivity.
  - intros S. unfold HList.Grow in *.
    destruct (TexList.Grow Grow (HList.lst l)) as [l1 r1] eqn:E1.
    simpl in S. subst r1.
    pose proof (TexList_Grow_Shrink_Ok (HList.lst l) H) as G. rewrite E1 in G.
    simpl in *. unfold HList.Shrink. simpl.
    destruct (TexList.Shrink Shrink l1) as [l2 r2]. simpl in *.
    apply G. reflexivity.
  - intros S. unfold VList.Grow in *.
    destruct (TexList.Grow Grow (VList.lst l)) as [l1 r1] eqn:E1.
    simpl in S. subst r1.
    pose proof (TexList_Grow_Shrink_Ok (VList.lst l) H) as G. rewrite E1 in G.
    simpl in *. unfold VList.Shrink. simpl.
    destruct (TexList.Shrink Shrink l1) as [l2 r2]. simpl in *.
    apply G. reflexivity.
  - intros S. unfold SubSuperCluster.Grow, HList.Grow in *.
    destruct (TexList.Grow Grow (HList.lst (SubSuperCluster.hlist s)))
      as [l1 r1] eqn:E1.
    simpl in S. subst r1.
    pose proof (TexList_Grow_Shrink_Ok (HList.lst (SubSuperCluster.hlist s)) H) as G.
    rewrite E1 in G.
    simpl in *. unfold SubSuperCluster.Shrink, HList.Shrink. simpl.
    destruct (TexList.Shrink Shrink l1) as [l2 r2]. simpl in *.
    apply G. reflexivity.
Qed.

(** A leaf that is below the last size level: the size test of the
    [Shrink] after a [Grow] fails, so that [Shrink] scales. *)
Lemma grown_gate (s : Z) :
  isInt s -> s < NUM_SIZE_LEVELS -> (decr (incr s) >=? NUM_SIZE_LEVELS) = false.
Proof.
  intros I H. rewrite (decr_incr s I).
  destruct (s >=? NUM_SIZE_LEVELS) eqn:C; [|reflexivity].
  apply Z.geb_le in C. lia.
Qed.

(** [Grow] followed by [Shrink] restores a node that is below the last
    size level: for a node whose size counter is below [NUM_SIZE_LEVELS]
    and that [Grow] can handle (no accent in it), the two return
    normally, the size counter is as before, and each of width, height
    and depth (for a list also the shift and the glue set amount) [v]
    becomes [v * GROW_FACTOR * SHRINK_FACTOR], which is within the
    relative tolerance 1e-9 of [v] when [v] is zero, infinite, NaN or of
    magnitude between 2^-1021 and 2^1021. *)
Theorem Grow_Shrink_restores (n : Node) :
  isInt (ownSize n) ->
  ownSize n < NUM_SIZE_LEVELS ->
  snd (Grow n) = Ok tt ->
  exists n',
    growShrink n = Ok n'
    /\ ownSize n' = ownSize n
    /\ ownDims n' = map grownShrunk (ownDims n)
    /\ (forallb roundsWell (ownDims n) = true ->
        allWithinTol (ownDims n') (ownDims n) = true).
Proof.
  intros I D S.
  cut (exists n', growShrink n = Ok n'
                  /\ ownSize n' = ownSize n
                  /\ ownDims n' = map grownShrunk (ownDims n)).
  { intros [n' [E [Sz Dm]]]. exists n'. repeat split; try assumption.
    intros R. rewrite Dm. apply allWithinTol_grownShrunk. exact R. }
  unfold growShrink.
  assert (forall l : List_,
             isInt (Box.size (TexList.box l)) ->
             Box.size (TexList.box l) < NUM_SIZE_LEVELS ->
             snd (TexList.Grow Grow l) = Ok tt ->
             exists l', TexList.Shrink Shrink (fst (TexList.Grow Grow l)) = (l', Ok tt)
                        /\ Box.size (TexList.box l') = Box.size (TexList.box l)
                        /\ listDims l' = map grownShrunk (listDims l)) as L.
  { intros l Il Dl Sl. apply TexList_Grow_Shrink; try assumption.
    apply Forall_forall. intros c _. apply Grow_Shrink_Ok. }
  destruct n;
    try (simpl in I, D, S |- *; eexists; split; [reflexivity|];
         unfold Box.Shrink, VBox.Shrink, HBox.Shrink, Char.Shrink, Glue.Shrink,
           Kern.Shrink, Rule.Shrink, HRule.Shrink, VRule.Shrink, Rule.Shrink,
           Box.Shrink;
         simpl; rewrite (grown_gate _ I D); simpl;
         split; [apply decr_incr; exact I|reflexivity]).
  - discriminate.
  - change (Grow (NList l))
      with (let (l', r) := TexList.Grow Grow l in (NList l', r)) in *.
    destruct (TexList.Grow Grow l) as [l1 r1] eqn:E1. simpl in S. subst r1.
    destruct (L l I D) as [l' [E [Sz Dm]]]; [rewrite E1; reflexivity|].
    rewrite E1 in E. simpl in E.
    change (Shrink (NList l1))
      with (let (l', r) := TexList.Shrink Shrink l1 in (NList l', r)).
    rewrite E. exists (NList l'). split; [reflexivity|]. split; assumption.
  - change (Grow (NHList l))
      with (let (l', r) := HList.Grow Grow l in (NHList l', r)) in *.
    unfold HList.Grow in *.
    destruct (TexList.Grow Grow (HList.lst l)) as [l1 r1] eqn:E1.
    simpl in S. subst r1.
    destruct (L (HList.lst l) I D) as [l' [E [Sz Dm]]]; [rewrite E1; reflexivity|].
    rewrite E1 in E. simpl in E.
    change (Shrink (NHList (HList.mk l1)))
      with (let (l', r) := HList.Shrink Shrink (HList.mk l1) in (NHList l', r)).
    unfold HList.Shrink. simpl HList.lst. rewrite E.
    exists (NHList (HList.mk l')). split; [reflexivity|]. split; assumption.
  - change (Grow (NVList l))
      with (let (l', r) := VList.Grow Grow l in (NVList l', r)) in *.
    unfold VList.Grow in *.
    destruct (TexList.Grow Grow (VList.lst l)) as [l1 r1] eqn:E1.
    simpl in S. subst r1.
    destruct (L (VList.lst l) I D) as [l' [E [Sz Dm]]]; [rewrite E1; reflexivity|].
    rewrite E1 in E. simpl in E.
    change (Shrink (NVList (VList.mk l1)))
      with (let (l', r) := VList.Shrink Shrink (VList.mk l1) in (NVList l', r)).
    unfold VList.Shrink. simpl VList.lst. rewrite E.
    exists (NVList (VList.mk l')). split; [reflexivity|]. split; assumption.
  - change (Grow (NSubSuperCluster s))
      with (let (s', r) := SubSuperCluster.Grow Grow s in
            (NSubSuperCluster s', r)) in *.
    unfold SubSuperCluster.Grow, HList.Grow in *.
    destruct (TexList.Grow Grow (HList.lst (SubSuperCluster.hlist s)))
      as [l1 r1] eqn:E1.
    simpl in S. subst r1.
    destruct (L (HList.lst (SubSuperCluster.hlist s)) I D) as [l' [E [Sz Dm]]];
      [rewrite E1; reflexivity|].
    rewrite E1 in E. simpl in E.
    change (Shrink (NSubSuperCluster (SubSuperCluster.mk (HList.mk l1))))
      with (let (s', r) := SubSuperCluster.Shrink Shrink
                             (SubSuperCluster.mk (HList.mk l1)) in
            (NSubSuperCluster s', r)).
    unfold SubSuperCluster.Shrink, HList.Shrink. simpl HList.lst.
    simpl SubSuperCluster.hlist. simpl HList.lst. rewrite E.
    exists (NSubSuperCluster (SubSuperCluster.mk (HList.mk l'))).
    split; [reflexivity|]. split; assumption.
Qed.

Lemma Grow_Shrink_restores_witness :
  exists n',
    growShrink (NHList scaledExample) = Ok n'
    /\ ownSize n' = 0
    /\ ownDims n' = map grownShrunk [3; 1; 2; 0.5; 1]%float
    /\ allWithinTol (ownDims n') [3; 1; 2; 0.5; 1]%float = true.
Proof.
  destruct (Grow_Shrink_restores (NHList scaledExample)) as [n' [E [Sz [Dm T]]]].
  - unfold isInt. simpl. lia.
  - vm_compute. reflexivity.
  - vm_compute. reflexivity.
  - exists n'. repeat split; try assumption. apply T. vm_compute. reflexivity.
Defined.

(** ** Rendering and the rule constructors *)


(** No rule can be constructed: [NewRule], [NewHRule] and [NewVRule]
    panic with "not implemented" for every state and all dimensions, as
    the methods of [State] they call do. *)
Theorem rule_constructors_panic (state : State) (w h d thickness : float) :
  NewRule w h d state = Panic "not implemented"
  /\ NewHRule state thickness = Panic "not implemented"
  /\ NewVRule state = Panic "not implemented".
Proof.
  unfold NewHRule. destruct (thickness <? 0)%float; repeat split; reflexivity.
Qed.

(** ** UTF-8: decoding what [string(rune)] encoded *)


Lemma lor_add (a b k : Z) :
  0 <= k -> 0 <= b < 2 ^ k -> Z.lor (a * 2 ^ k) b = a * 2 ^ k + b.
Proof.
  intros K B.
  assert (Z.land (a * 2 ^ k) b = 0) as L.
  { apply Z.bits_inj'. intros n N. rewrite Z.land_spec, Z.bits_0.
    destruct (Z_lt_le_dec n k) as [C|C].
    - rewrite Z.mul_pow2_bits_low by lia. reflexivity.
    - assert (Z.testbit b n = false) as T.
      { destruct (Z.eq_dec b 0) as [->|Nz]; [apply Z.bits_0|].
        apply Z.bits_above_log2; [lia|].
        assert (Z.log2 b < k) by (apply Z.log2_lt_pow2; lia). lia. }
      rewrite T. apply andb_false_r. }
  rewrite <- Z.lxor_lor by exact L. symmetry. apply Z.add_nocarry_lxor. exact L.
Qed.

Lemma byteOf_byteChar (b : Z) : 0 <= b < 256 -> byteOf (byteChar b) = b.
Proof.
  intros B. unfold byteOf, byteChar.
  rewrite N_ascii_embedding by lia. lia.
Qed.

Lemma byteOf_range (c : ascii) : 0 <= byteOf c < 256.
Proof.
  unfold byteOf. pose proof (N_ascii_bounded c). lia.
Qed.

Lemma land_low (x k : Z) : 0 <= k -> Z.land x (Z.ones k) = x mod 2 ^ k.
Proof. intros K. apply Z.land_ones. exact K. Qed.

Ltac split_comparisons :=
  repeat match goal with
    | |- context [?a <? ?b] => destruct (Z.ltb_spec a b); try lia
    | |- context [?a <=? ?b] => destruct (Z.leb_spec a b); try lia
    | |- context [?a =? ?b] => destruct (Z.eqb_spec a b); try lia
    end.

Lemma decode1 (r : Z) (rest : string) :
  0 <= r < 128 -> DecodeRune (String (byteChar r) rest) = (r, 1).
Proof.
  intros R. unfold DecodeRune. rewrite byteOf_byteChar by lia.
  cbv zeta. split_comparisons. reflexivity.
Qed.

Lemma decode2 (q m : Z) (rest : string) :
  2 <= q < 32 -> 0 <= m < 64 ->
  DecodeRune (String (byteChar (192 + q)) (String (byteChar (128 + m)) rest))
  = (q * 64 + m, 2).
Proof.
  intros Q M. unfold DecodeRune, inRange. rewrite !byteOf_byteChar by lia.
  cbv zeta. split_comparisons. simpl negb. cbv iota.
  change 0x1F with (Z.ones 5). change 0x3F with (Z.ones 6).
  rewrite !land_low by lia. rewrite Z.shiftl_mul_pow2 by lia.
  replace ((192 + q) mod 2 ^ 5) with q
    by (change (2 ^ 5) with 32; Z.to_euclidean_division_equations; lia).
  replace ((128 + m) mod 2 ^ 6) with m
    by (change (2 ^ 6) with 64; Z.to_euclidean_division_equations; lia).
  rewrite lor_add by (change (2 ^ 6) with 64; lia). reflexivity.
Qed.

Lemma decode3 (a b c : Z) (rest : string) :
  0 <= a < 16 -> 0 <= b < 64 -> 0 <= c < 64 ->
  (a = 0 -> 32 <= b) -> (a = 13 -> b < 32) ->
  DecodeRune (String (byteChar (224 + a)) (String (byteChar (128 + b))
                (String (byteChar (128 + c)) rest)))
  = (a * 4096 + b * 64 + c, 3).
Proof.
  intros A B C Lo Hi.
  assert (Z.lor (Z.lor (Z.shiftl (Z.land (224 + a) 0x0F) 12)
                       (Z.shiftl (Z.land (128 + b) 0x3F) 6))
                (Z.land (128 + c) 0x3F)
          = a * 4096 + b * 64 + c) as V.
  { change 0x0F with (Z.ones 4). change 0x3F with (Z.ones 6).
    rewrite !land_low by lia. rewrite !Z.shiftl_mul_pow2 by lia.
    replace ((224 + a) mod 2 ^ 4) with a
      by (change (2 ^ 4) with 16; Z.to_euclidean_division_equations; lia).
    replace ((128 + b) mod 2 ^ 6) with b
      by (change (2 ^ 6) with 64; Z.to_euclidean_division_equations; lia).
    replace ((128 + c) mod 2 ^ 6) with c
      by (change (2 ^ 6) with 64; Z.to_euclidean_division_equations; lia).
    rewrite (lor_add a (b * 2 ^ 6) 12)
      by (change (2 ^ 6) with 64; change (2 ^ 12) with 4096; lia).
    replace (a * 2 ^ 12 + b * 2 ^ 6) with ((a * 64 + b) * 2 ^ 6)
      by (change (2 ^ 6) with 64; change (2 ^ 12) with 4096; lia).
    rewrite lor_add by (change (2 ^ 6) with 64; lia).
    change (2 ^ 6) with 64. lia. }
  unfold DecodeRune, inRange. rewrite !byteOf_byteChar by lia. cbv zeta.
  rewrite V. clear V.
  destruct (Z.eqb_spec (224 + a) 0xE0) as [E0|A0];
    destruct (Z.eqb_spec (224 + a) 0xED) as [E13|A13];
    cbv iota; split_comparisons; reflexivity.
Qed.

Lemma decode4 (a b c d : Z) (rest : string) :
  0 <= a < 5 -> 0 <= b < 64 -> 0 <= c < 64 -> 0 <= d < 64 ->
  (a = 0 -> 16 <= b) -> (a = 4 -> b < 16) ->
  DecodeRune (String (byteChar (240 + a)) (String (byteChar (128 + b))
                (String (byteChar (128 + c)) (String (byteChar (128 + d)) rest))))
  = (a * 262144 + b * 4096 + c * 64 + d, 4).
Proof.
  intros A B C D Lo Hi.
  assert (Z.lor (Z.lor (Z.lor (Z.shiftl (Z.land (240 + a) 0x07) 18)
                              (Z.shiftl (Z.land (128 + b) 0x3F) 12))
                       (Z.shiftl (Z.land (128 + c) 0x3F) 6))
                (Z.land (128 + d) 0x3F)
          = a * 262144 + b * 4096 + c * 64 + d) as V.
  { change 0x07 with (Z.ones 3). change 0x3F with (Z.ones 6).
    rewrite !land_low by lia. rewrite !Z.shiftl_mul_pow2 by lia.
    replace ((240 + a) mod 2 ^ 3) with a
      by (change (2 ^ 3) with 8; Z.to_euclidean_division_equations; lia).
    replace ((128 + b) mod 2 ^ 6) with b
      by (change (2 ^ 6) with 64; Z.to_euclidean_division_equations; lia).
    replace ((128 + c) mod 2 ^ 6) with c
      by (change (2 ^ 6) with 64; Z.to_euclidean_division_equations; lia).
    replace ((128 + d) mod 2 ^ 6) with d
      by (change (2 ^ 6) with 64; Z.to_euclidean_division_equations; lia).
    rewrite (lor_add a (b * 2 ^ 12) 18)
      by (change (2 ^ 12) with 4096; change (2 ^ 18) with 262144; lia).
    replace (a * 2 ^ 18 + b * 2 ^ 12) with ((a * 64 + b) * 2 ^ 12)
      by (change (2 ^ 12) with 4096; change (2 ^ 18) with 262144; lia).
    rewrite (lor_add (a * 64 + b) (c * 2 ^ 6) 12)
      by (change (2 ^ 6) with 64; change (2 ^ 12) with 4096; lia).
    replace ((a * 64 + b) * 2 ^ 12 + c * 2 ^ 6)
      with (((a * 64 + b) * 64 + c) * 2 ^ 6)
      by (change (2 ^ 6) with 64; change (2 ^ 12) with 4096; lia).
    rewrite lor_add by (change (2 ^ 6) with 64; lia).
    change (2 ^ 6) with 64. lia. }
  unfold DecodeRune, inRange. rewrite !byteOf_byteChar by lia. cbv zeta.
  rewrite V. clear V.
  destruct (Z.eqb_spec (240 + a) 0xF0) as [E0|A0];
    destruct (Z.eqb_spec (240 + a) 0xF4) as [E4|A4];
    cbv iota; split_comparisons; reflexivity.
Qed.

Lemma lor_const (c q k a : Z) :
  0 <= k -> c = a * 2 ^ k -> 0 <= q < 2 ^ k -> Z.lor c q = c + q.
Proof. intros K -> Q. apply lor_add; assumption. Qed.

Lemma validRune_bounds (r : Z) :
  validRune r = true -> 0 <= r <= 0x10FFFF /\ (r < 0xD800 \/ 0xDFFF < r).
Proof.
  unfold validRune, inRange, MaxRune. intros H.
  apply andb_true_iff in H. destruct H as [H S].
  apply andb_true_iff in H. destruct H as [H0 H1].
  apply Z.leb_le in H0, H1. apply negb_true_iff in S.
  apply andb_false_iff in S. split; [lia|].
  destruct S as [S|S]; [left; apply Z.leb_gt in S|right; apply Z.leb_gt in S]; lia.
Qed.

Lemma runeBytes_arith (r : Z) :
  validRune r = true ->
  runeBytes r
  = if r <=? 0x7F then [r]
    else if r <=? 0x7FF then [192 + r / 64; 128 + r mod 64]
    else if r <=? 0xFFFF then
      [224 + r / 4096; 128 + (r / 64) mod 64; 128 + r mod 64]
    else [240 + r / 262144; 128 + (r / 4096) mod 64;
          128 + (r / 64) mod 64; 128 + r mod 64].
Proof.
  intros V. destruct (validRune_bounds r V) as [B S].
  unfold runeBytes. rewrite V. simpl negb. cbv iota.
  change 0x3F with (Z.ones 6).
  rewrite !land_low by lia. rewrite !Z.shiftr_div_pow2 by lia.
  change (2 ^ 6) with 64. change (2 ^ 12) with 4096. change (2 ^ 18) with 262144.
  destruct (r <=? 0x7F) eqn:C1; [reflexivity|].
  apply Z.leb_gt in C1.
  assert (forall x, Z.lor 0x80 (x mod 64) = 128 + x mod 64) as M.
  { intros x. apply (lor_const 0x80 (x mod 64) 6 2); [lia|reflexivity|].
    change (2 ^ 6) with 64. apply Z.mod_pos_bound. lia. }
  rewrite !M.
  destruct (r <=? 0x7FF) eqn:C2.
  - apply Z.leb_le in C2.
    rewrite (lor_const 0xC0 (r / 64) 6 3); [reflexivity|lia|reflexivity|].
    change (2 ^ 6) with 64. Z.to_euclidean_division_equations. lia.
  - apply Z.leb_gt in C2. destruct (r <=? 0xFFFF) eqn:C3.
    + apply Z.leb_le in C3.
      rewrite (lor_const 0xE0 (r / 4096) 4 14); [reflexivity|lia|reflexivity|].
      change (2 ^ 4) with 16. Z.to_euclidean_division_equations. lia.
    + apply Z.leb_gt in C3.
      rewrite (lor_const 0xF0 (r / 262144) 3 30); [reflexivity|lia|reflexivity|].
      change (2 ^ 3) with 8. Z.to_euclidean_division_equations. lia.
Qed.

Lemma DecodeRune_runeString (r : Z) (rest : string) :
  validRune r = true ->
  DecodeRune (runeString r ++ rest)
  = (r, Z.of_nat (List.length (runeBytes r))).
Proof.
  intros V. destruct (validRune_bounds r V) as [B S].
  unfold runeString. rewrite (runeBytes_arith r V).
  destruct (r <=? 0x7F) eqn:C1.
  - apply Z.leb_le in C1. unfold bytesString. cbn [fold_right append].
    apply decode1. lia.
  - apply Z.leb_gt in C1. destruct (r <=? 0x7FF) eqn:C2.
    + apply Z.leb_le in C2. unfold bytesString. cbn [fold_right append List.length].
      rewrite decode2 by (Z.to_euclidean_division_equations; lia).
      f_equal. Z.to_euclidean_division_equations. lia.
    + apply Z.leb_gt in C2. destruct (r <=? 0xFFFF) eqn:C3.
      * apply Z.leb_le in C3. unfold bytesString. cbn [fold_right append List.length].
        rewrite decode3 by (Z.to_euclidean_division_equations; lia).
        f_equal. Z.to_euclidean_division_equations. lia.
      * apply Z.leb_gt in C3. unfold bytesString. cbn [fold_right append List.length].
        rewrite decode4 by (Z.to_euclidean_division_equations; lia).
        f_equal. Z.to_euclidean_division_equations. lia.
Qed.

(** ** [unicodeIndex] *)

Lemma tex2uni_asciiKeys : forallb asciiKey tex2uni = true.
Proof. vm_compute. reflexivity. Qed.

Lemma lookup_asciiKeys (key : string) (m : list (string * Z)) :
  forallb asciiKey m = true -> asciiKey (key, 0) = false -> lookup key m = None.
Proof.
  intros M K. induction m as [|[k r] m IH]; simpl in *; [reflexivity|].
  apply andb_true_iff in M. destruct M as [Mk Mm].
  destruct (String.eqb_spec key k) as [->|Ne].
  - unfold asciiKey in *. simpl in *. rewrite Mk in K. discriminate.
  - apply IH. exact Mm.
Qed.

Lemma DecodeRune_ascii (c : ascii) (rest : string) :
  byteOf c < 0x80 -> DecodeRune (String c rest) = (byteOf c, 1).
Proof.
  intros C. unfold DecodeRune. cbv zeta.
  destruct (Z.ltb_spec (byteOf c) 0x80); [reflexivity|lia].
Qed.

(** A string whose first rune does not decode is empty or starts with a
    byte that is not ASCII, and so does what is left of it without its
    first backslash. *)
Lemma DecodeRune_error (v : string) :
  fst (DecodeRune v) = RuneError -> asciiKey (removeBackslash v, 0) = false.
Proof.
  destruct v as [|c rest]; [reflexivity|].
  intros E. unfold asciiKey. simpl fst.
  destruct (Z.ltb_spec (byteOf c) 0x80) as [C|C].
  - rewrite (DecodeRune_ascii c rest C) in E. simpl in E.
    unfold RuneError in E. lia.
  - simpl removeBackslash.
    destruct (Z.eqb_spec (byteOf c) 0x5C) as [B|B]; [lia|].
    apply Z.ltb_ge. exact C.
Qed.

(** A string whose first rune decodes is read as that rune. *)
Lemma unicodeIndex_decoded (v : string) (math : bool) (r n : Z) :
  DecodeRune v = (r, n) -> r <> RuneError -> math && String.eqb v "-" = false ->
  unicodeIndex v math = Ok r.
Proof.
  intros D E M. unfold unicodeIndex. rewrite D.
  destruct (Z.eqb_spec r RuneError) as [|_]; [contradiction|].
  destruct math; simpl in *; [rewrite M|]; reflexivity.
Qed.

(** The table of TeX symbols is never the source of the answer of
    [unicodeIndex].  In math mode, as in text mode, a string other than
    the minus sign is read by its first rune alone, whatever follows it;
    and a string whose first rune does not decode is not a key of the
    table, with or without its first backslash, so that it panics. *)
Theorem unicodeIndex_first_rune (v : string) (math : bool) :
  unicodeIndex v math
  = if math && String.eqb v "-" then Ok 0x2212
    else if fst (DecodeRune v) =? RuneError
         then Panic (if math
                     then v ++ " is not a valid unicode character nor a known TeX symbol"
                     else "tex: invalid rune " ++ v)
         else Ok (fst (DecodeRune v)).
Proof.
  unfold unicodeIndex. destruct math; simpl negb; cbv iota; simpl andb.
  - destruct (String.eqb v "-"); [reflexivity|].
    destruct (DecodeRune v) as [r n] eqn:D. simpl fst.
    destruct (Z.eqb_spec r RuneError) as [E|E]; simpl negb; cbv iota;
      [|reflexivity].
    rewrite lookup_asciiKeys; [reflexivity|apply tex2uni_asciiKeys|].
    apply DecodeRune_error. rewrite D. exact E.
  - destruct (DecodeRune v) as [r n]. reflexivity.
Qed.

(** A TeX command written with its backslash, such as [\alpha], is read
    as the backslash itself (U+005C) in either mode: the name after the
    backslash is not looked at. *)
Theorem unicodeIndex_command (name : string) (math : bool) :
  unicodeIndex (String "\" name) math = Ok 0x5C.
Proof.
  apply (unicodeIndex_decoded _ _ _ 1).
  - apply DecodeRune_ascii. vm_compute. reflexivity.
  - unfold RuneError. lia.
  - destruct math; [|reflexivity]. simpl. destruct name; reflexivity.
Qed.

Lemma append_empty (s : string) : (s ++ "")%string = s.
Proof. induction s as [|c s IH]; simpl; [reflexivity|now rewrite IH]. Qed.

Lemma DecodeRune_runeString_alone (r : Z) :
  validRune r = true ->
  DecodeRune (runeString r) = (r, Z.of_nat (List.length (runeBytes r))).
Proof.
  intros V. rewrite <- (append_empty (runeString r)).
  apply (DecodeRune_runeString r "" V).
Qed.

(** [unicodeIndex] reads back the rune that [Char.String] wrote: for a
    character whose rune has an encoding and is not U+FFFD, the index of
    its string is its rune, but for the hyphen in math mode, which
    becomes the minus sign U+2212. *)
Theorem unicodeIndex_Char_String (c : Char.t) (math : bool) :
  validRune (Char.c c) = true -> Char.c c <> RuneError ->
  unicodeIndex (Char_String c) math
  = Ok (if math && (Char.c c =? 0x2D) then 0x2212 else Char.c c).
Proof.
  intros V E. unfold Char_String.
  destruct (Z.eqb_spec (Char.c c) 0x2D) as [M|M].
  - rewrite M. destruct math; reflexivity.
  - rewrite andb_false_r.
    apply (unicodeIndex_decoded _ _ _ _ (DecodeRune_runeString_alone _ V) E).
    destruct (String.eqb_spec (runeString (Char.c c)) "-") as [S|S];
      [|apply andb_false_r].
    exfalso. apply M.
    pose proof (DecodeRune_runeString_alone _ V) as D. rewrite S in D.
    injection D as D _. symmetry. exact D.
Qed.

Lemma unicodeIndex_Char_String_witness :
  unicodeIndex (Char_String (Char.mk 0x3B1 0 1 1 1 10 72 true)) true = Ok 0x3B1.
Proof.
  apply (unicodeIndex_Char_String (Char.mk 0x3B1 0 1 1 1 10 72 true) true).
  - vm_compute. reflexivity.
  - unfold RuneError. simpl. lia.
Defined.
